(** * E-commerce storefront: the GraphQL schema of [backend/ecommerce/schema.py]

    A shallow embedding of the resolvers and mutations of [schema.py] that
    touch the catalogue, the cart, the orders and the appointments, and the
    properties of the order workflow and of the booking guard.

    The Django tables are fields of a [State]; a mutation is a computation
    in a state-and-exception monad [M].  Django runs each ORM statement in
    autocommit mode and [schema.py] opens no transaction, so an exception
    leaves the writes made before it in place: [raise] returns the state
    as it is at that point. *)

From Stdlib Require Import ZArith QArith Qround String Ascii List Lia SpecFloat.
From stdpp Require Import base option list gmap strings.

Local Open Scope Z_scope.

(** ** Data model *)

(** Modelled from the spec: [models.py] is not part of the sources.  The
    rows carry the columns that [schema.py] reads and writes; primary keys
    are numbers, prices and quantities are integers. *)
Record Product := mkProduct {
  product_name : string;
  product_kind : string;
  product_price : Z;
  product_discount : Z;
  product_stock : Z
}.

Record Address := mkAddress {
  address_user : nat;
  address_name : string;
  address_phone : string;
  address_address1 : string;
  address_address2 : string;
  address_pincode : Z;
  address_city : string;
  address_state : string;
  address_country : string
}.

(** A row of the through table of [User.cart]. *)
Record CartObj := mkCartObj {
  cart_obj_id : nat;
  cart_obj_user : nat;
  cart_obj_product_id : nat;
  cart_obj_qty : Z
}.

Record Order := mkOrder {
  order_id : nat;
  order_user : nat;
  order_name : string;
  order_phone : string;
  order_address1 : string;
  order_address2 : string;
  order_pincode : Z;
  order_city : string;
  order_state : string;
  order_country : string
}.

(** A row of the through table of [Order.product_objects]. *)
Record OrderObj := mkOrderObj {
  order_obj_order : nat;
  order_obj_product : nat;
  order_obj_qty : Z;
  order_obj_price : Z
}.

(** [datetime.date] *)
Record date := mkDate { d_year : Z; d_month : Z; d_day : Z }.

(** The fields of a [datetime.datetime], without the sub-second part.  A
    stored timestamp and the current time have their fields in UTC, as
    the database holds them. *)
Record datetime := mkDatetime {
  year : Z; month : Z; day : Z;
  hour : Z; minute : Z; second : Z
}.

(** A [graphene.DateTime] argument: the fields as the client wrote them,
    and the offset of their zone from UTC in minutes (330 for
    ["+05:30"]). *)
Record DateTime := at_offset {
  local :> datetime;
  utcoffset : Z
}.

Record Appointment := mkAppointment {
  appointment_user : nat;
  appointment_timestamp : datetime
}.

(** What [run_async] hands to the mail thread. *)
Inductive Mail :=
  | OrderConfirmedMail (user order : nat)
  | OrderPlacedAdminMail (order : nat)
  | AppointmentConfirmedMail (user : nat) (t : datetime)
  | AppointmentAdminMail (user : nat) (t : datetime).

Record State := mkState {
  Products : gmap nat Product;
  Addresses : gmap nat Address;
  CartObjs : list CartObj;
  Orders : list Order;
  OrderObjs : list OrderObj;
  Appointments : list Appointment;
  outbox : list Mail
}.

Definition set_Products (f : gmap nat Product → gmap nat Product) (s : State) : State :=
  mkState (f (Products s)) (Addresses s) (CartObjs s) (Orders s) (OrderObjs s)
          (Appointments s) (outbox s).

Definition set_Addresses (f : gmap nat Address → gmap nat Address) (s : State) : State :=
  mkState (Products s) (f (Addresses s)) (CartObjs s) (Orders s) (OrderObjs s)
          (Appointments s) (outbox s).

Definition set_CartObjs (f : list CartObj → list CartObj) (s : State) : State :=
  mkState (Products s) (Addresses s) (f (CartObjs s)) (Orders s) (OrderObjs s)
          (Appointments s) (outbox s).

Definition set_Orders (f : list Order → list Order) (s : State) : State :=
  mkState (Products s) (Addresses s) (CartObjs s) (f (Orders s)) (OrderObjs s)
          (Appointments s) (outbox s).

Definition set_OrderObjs (f : list OrderObj → list OrderObj) (s : State) : State :=
  mkState (Products s) (Addresses s) (CartObjs s) (Orders s) (f (OrderObjs s))
          (Appointments s) (outbox s).

Definition set_Appointments (f : list Appointment → list Appointment) (s : State) : State :=
  mkState (Products s) (Addresses s) (CartObjs s) (Orders s) (OrderObjs s)
          (f (Appointments s)) (outbox s).

Definition set_outbox (f : list Mail → list Mail) (s : State) : State :=
  mkState (Products s) (Addresses s) (CartObjs s) (Orders s) (OrderObjs s)
          (Appointments s) (f (outbox s)).

(** ** Exceptions and the monad of a request handler *)

Inductive exn :=
  | PermissionDenied                       (* raised by [login_required] *)
  | DoesNotExist (model : string)
  | MultipleObjectsReturned (model : string)
  | IntegrityError
  | OverflowError
  | Exception (msg : string).

Definition M (A : Type) : Type := State → State * (exn + A).

#[global] Instance M_ret : MRet M := λ A a s, (s, inr a).

#[global] Instance M_bind : MBind M := λ A B f m s,
  match m s with
  | (s', inl e) => (s', inl e)
  | (s', inr a) => f a s'
  end.

Definition raise {A} (e : exn) : M A := λ s, (s, inl e).
Definition gets {A} (f : State → A) : M A := λ s, (s, inr (f s)).
Definition modify (f : State → State) : M unit := λ s, (f s, inr tt).

(** [for x in l: body(x)] *)
Fixpoint for_each {A} (l : list A) (body : A → M unit) : M unit :=
  match l with
  | [] => mret tt
  | x :: l' => body x ;; for_each l' body
  end.

(** [info.context.user] is a user or the anonymous user. *)
Record ResolveInfo := mkInfo { context_user : option nat }.

(** [@login_required] *)
Definition login_required {A} (f : ResolveInfo → nat → M A) (info : ResolveInfo) : M A :=
  match context_user info with
  | Some user => f info user
  | None => raise PermissionDenied
  end.

(** [run_async(f, args)] starts a thread and returns at once. *)
Definition run_async (m : Mail) : M unit := modify (set_outbox (λ o, o ++ [m])).

(** ** The ORM calls used by the mutations *)

(** The key the database gives to a new row: one that no row has, the
    greatest key and one.  (A sequence of the database does not give the
    key of a deleted row again; here the key of the last row is given
    again once that row is deleted.) *)
Definition fresh_pk {A} (id : A → nat) (rows : list A) : nat :=
  S (foldr Nat.max 0%nat (map id rows)).

(** [Address.objects.get(pk=address_id)] *)
Definition Address_objects_get (address_id : nat) : M Address := λ s,
  match Addresses s !! address_id with
  | Some a => (s, inr a)
  | None => (s, inl (DoesNotExist "Address"))
  end.

(** [Product.objects.get(pk=product_id)] *)
Definition Product_objects_get (product_id : nat) : M Product := λ s,
  match Products s !! product_id with
  | Some p => (s, inr p)
  | None => (s, inl (DoesNotExist "Product"))
  end.

(** [product.save()] for a product read from the table under key [id]. *)
Definition Product_save (id : nat) (p : Product) : M unit :=
  modify (set_Products (λ t, <[id := p]> t)).

(** The order row that [Order.objects.create] inserts. *)
Definition new_order (user : nat) (address : Address) (s : State) : Order :=
  mkOrder (fresh_pk order_id (Orders s)) user
          (address_name address) (address_phone address)
          (address_address1 address) (address_address2 address)
          (address_pincode address) (address_city address)
          (address_state address) (address_country address).

Definition with_order (order : Order) (s : State) : State :=
  set_Orders (λ t, t ++ [order]) s.

(** [Order.objects.create(user=user, name=address.name, ...)] *)
Definition Order_objects_create (user : nat) (address : Address) : M Order := λ s,
  let order := new_order user address s in
  (with_order order s, inr order).

(** *** Binary64 arithmetic

    Python's [float] is the binary64 format of IEEE 754: a mantissa of 53
    bits and an exponent, the smallest step being [2 ^ -1074].  Every
    finite [float] is a whole number of such steps, and it is held here as
    that number: [x] stands for [x * 2 ^ -1074].  Each operation gives the
    [float] nearest to the exact result and, of two that are as near, the
    one with the even mantissa.  (The overflow beyond [2 ^ 1024] is left
    out: an integer column holds 64 bits at most.) *)
Definition float_scale : Z := 2 ^ 1074.

(** The distance between two neighbouring [float]s of magnitude [m]. *)
Definition ulp (m : Z) : Z := 2 ^ Z.max 0 (Z.log2 m - 52).

(** The integer nearest to [n / d], the even one of two that are as near
    ([0 ≤ n] and [0 < d]). *)
Definition nearest_even (n d : Z) : Z :=
  let '(q, r) := Z.div_eucl n d in
  match 2 * r ?= d with
  | Lt => q
  | Gt => q + 1
  | Eq => if Z.even q then q else q + 1
  end.

(** The [float] nearest to [n / d] steps ([0 < d]). *)
Definition round_binary64 (n d : Z) : Z :=
  let u := ulp (Z.abs n / d) in
  Z.sgn n * (u * nearest_even (Z.abs n) (d * u)).

(** [float(n)] for an [int], as [n - x] converts [n]. *)
Definition float_of_int (n : Z) : Z := round_binary64 (n * float_scale) 1.

(** [a / b] on two [int]s with [0 < b]: the quotient, rounded once. *)
Definition int_truediv (a b : Z) : Z := round_binary64 (a * float_scale) b.

(** [x - y] on two [float]s. *)
Definition float_sub (x y : Z) : Z := round_binary64 (x - y) 1.

(** [math.ceil(x)] *)
Definition math_ceil (x : Z) : Z := - ((- x) / float_scale).

(** [math.ceil(product.price - (product.discount * product.price) / 100)]:
    the product of the two [int]s is exact, the quotient is a [float], and
    so is the difference. *)
Definition order_price (product : Product) : Z :=
  math_ceil
    (float_sub (float_of_int (product_price product))
               (int_truediv (product_discount product * product_price product) 100)).

(** The row of the through table for [order] and the product, if any. *)
Definition has_order_line (order : Order) (product_id : nat) (o : OrderObj) : bool :=
  (order_obj_order o =? order_id order)%nat && (order_obj_product o =? product_id)%nat.

(** [order.product_objects.add(product_id, through_defaults={...})]: a row
    of the through table is inserted unless the order already has one for
    this product. *)
Definition order_product_objects_add (order : Order) (product_id : nat) (qty price : Z)
    : M unit := λ s,
  if existsb (has_order_line order product_id) (OrderObjs s)
  then (s, inr tt)
  else (set_OrderObjs (λ t, t ++ [mkOrderObj (order_id order) product_id qty price]) s, inr tt).

(** [CartObj.objects.filter(user=user)] *)
Definition CartObj_objects_filter (user : nat) (s : State) : list CartObj :=
  List.filter (λ c, (cart_obj_user c =? user)%nat) (CartObjs s).

(** [cart_obj.delete()] *)
Definition CartObj_delete (c : CartObj) : M unit :=
  modify (set_CartObjs (List.filter (λ r, negb (cart_obj_id r =? cart_obj_id c)%nat))).

(** ** Ordering one product *)

(** [ProductOrderInputType] *)
Record ProductOrderInputType := mkProductOrderInput { product_id : nat; qty : Z }.

(** [product.stock -= qty] *)
Definition sub_stock (product : Product) (qty : Z) : Product :=
  mkProduct (product_name product) (product_kind product) (product_price product)
            (product_discount product) (product_stock product - qty).

(** [OrderProduct.mutate] *)
Definition OrderProduct_mutate (product_obj : ProductOrderInputType) (address_id : nat)
    : ResolveInfo → M Order :=
  login_required (λ info user,
    address ← Address_objects_get address_id;
    order ← Order_objects_create user address;
    product ← Product_objects_get (product_id product_obj);
    if product_stock product <? qty product_obj then raise (Exception "Stock Error")
    else
      let product := sub_stock product (qty product_obj) in
      Product_save (product_id product_obj) product ;;
      order_product_objects_add order (product_id product_obj) (qty product_obj)
                                (order_price product) ;;
      run_async (OrderConfirmedMail user (order_id order)) ;;
      run_async (OrderPlacedAdminMail (order_id order)) ;;
      mret order).

(** ** Ordering the cart *)

(** The body of the loop of [OrderCart.mutate]; [cart_obj.product] reads
    the product row when the line is reached. *)
Definition order_cart_obj (order : Order) (cart_obj : CartObj) : M unit :=
  product ← Product_objects_get (cart_obj_product_id cart_obj);
  if product_stock product <? cart_obj_qty cart_obj then raise (Exception "Stock Error")
  else
    let product := sub_stock product (cart_obj_qty cart_obj) in
    Product_save (cart_obj_product_id cart_obj) product ;;
    order_product_objects_add order (cart_obj_product_id cart_obj) (cart_obj_qty cart_obj)
                              (order_price product) ;;
    CartObj_delete cart_obj.

(** [OrderCart.mutate] *)
Definition OrderCart_mutate (address_id : nat) : ResolveInfo → M Order :=
  login_required (λ info user,
    address ← Address_objects_get address_id;
    order ← Order_objects_create user address;
    cart ← gets (CartObj_objects_filter user);
    for_each cart (order_cart_obj order) ;;
    run_async (OrderConfirmedMail user (order_id order)) ;;
    run_async (OrderPlacedAdminMail (order_id order)) ;;
    mret order).

(** ** The cart *)

(** The filter [user=user, product_id=product_id] on a cart line. *)
Definition cart_line_of (user product_id : nat) (c : CartObj) : bool :=
  (cart_obj_user c =? user)%nat && (cart_obj_product_id c =? product_id)%nat.

(** [CartObj.objects.get(user=user, product_id=product_id)] *)
Definition CartObj_objects_get (user product_id : nat) : M CartObj := λ s,
  match List.filter (cart_line_of user product_id) (CartObjs s) with
  | [] => (s, inl (DoesNotExist "CartObj"))
  | [c] => (s, inr c)
  | _ => (s, inl (MultipleObjectsReturned "CartObj"))
  end.

(** The row [r] of the table once [c] is saved. *)
Definition save_row (c : CartObj) (r : CartObj) : CartObj :=
  if (cart_obj_id r =? cart_obj_id c)%nat then c else r.

(** [_cart_obj.save()]: the row with this key is overwritten. *)
Definition CartObj_save (c : CartObj) : M unit :=
  modify (set_CartObjs (map (save_row c))).

(** [_cart_obj.qty = qty] *)
Definition set_qty (c : CartObj) (qty : Z) : CartObj :=
  mkCartObj (cart_obj_id c) (cart_obj_user c) (cart_obj_product_id c) qty.

(** [user.cart.remove(product_id)] *)
Definition user_cart_remove (user product_id : nat) : M unit :=
  modify (set_CartObjs (List.filter (λ r, negb (cart_line_of user product_id r)))).

(** [user.cart.add(product_id, through_defaults={"qty": qty})]: nothing is
    inserted when the user already has a line for the product; the foreign
    key refuses a product that is not in the catalogue. *)
Definition user_cart_add (user product_id : nat) (qty : Z) : M unit := λ s,
  if existsb (cart_line_of user product_id) (CartObjs s) then (s, inr tt)
  else match Products s !! product_id with
       | None => (s, inl IntegrityError)
       | Some _ =>
           (set_CartObjs
              (λ t, t ++ [mkCartObj (fresh_pk cart_obj_id t) user product_id qty]) s,
            inr tt)
       end.

(** [try: body except CartObj.DoesNotExist: handler] *)
Definition try_except_DoesNotExist {A} (model : string) (body handler : M A) : M A := λ s,
  match body s with
  | (s', inl (DoesNotExist m)) =>
      if String.eqb m model then handler s' else (s', inl (DoesNotExist m))
  | r => r
  end.

(** [SetCart.mutate]; [add] is [kwargs.get("add", False)]. *)
Definition SetCart_mutate (cart_obj : ProductOrderInputType) (add : option bool)
    : ResolveInfo → M (list CartObj) :=
  login_required (λ info user,
    let add := default false add in
    try_except_DoesNotExist "CartObj"
      (_cart_obj ← CartObj_objects_get user (product_id cart_obj);
       if add then CartObj_save (set_qty _cart_obj (cart_obj_qty _cart_obj + qty cart_obj))
       else if 0 <? qty cart_obj then CartObj_save (set_qty _cart_obj (qty cart_obj))
       else user_cart_remove user (product_id cart_obj))
      (if 0 <? qty cart_obj
       then user_cart_add user (product_id cart_obj) (qty cart_obj)
       else mret tt) ;;
    gets (CartObj_objects_filter user)).

(** ** Dates and timestamps *)

(** [timestamp.date()] *)
Definition datetime_date (t : datetime) : date := mkDate (year t) (month t) (day t).

(** The values [datetime.datetime(...)] accepts (the length of the month
    apart, which no property below depends on). *)
Definition valid_datetime (t : datetime) : Prop :=
  1 ≤ year t ≤ 9999 ∧ 1 ≤ month t ≤ 12 ∧ 1 ≤ day t ≤ 31
  ∧ 0 ≤ hour t < 24 ∧ 0 ≤ minute t < 60 ∧ 0 ≤ second t < 60.

#[global] Instance valid_datetime_dec t : Decision (valid_datetime t).
Proof. unfold valid_datetime. apply _. Defined.

(** The character of the last decimal digit of [n]. *)
Definition digit (n : Z) : ascii := ascii_of_N (Z.to_N (48 + n mod 10)).

(** ["%02d"] and ["%04d"] *)
Definition pad2 (n : Z) (rest : string) : string :=
  String (digit (n / 10)) (String (digit n) rest).

Definition pad4 (n : Z) (rest : string) : string :=
  String (digit (n / 1000)) (String (digit (n / 100)) (pad2 n rest)).

(** [str(d)] for a [datetime.date]: ["YYYY-MM-DD"], followed by [rest]. *)
Definition str_date_then (d : date) (rest : string) : string :=
  pad4 (d_year d) (String "-" (pad2 (d_month d) (String "-" (pad2 (d_day d) rest)))).

Definition str_date (d : date) : string := str_date_then d "".

(** The text of a stored timestamp: ["YYYY-MM-DD HH:MM:SS"]. *)
Definition str_datetime (t : datetime) : string :=
  str_date_then (datetime_date t)
    (String " " (pad2 (hour t) (String ":" (pad2 (minute t) (String ":" (pad2 (second t) "")))))).

(** The values of a [graphene.DateTime] argument: an offset is less than
    a day. *)
Definition valid_DateTime (t : DateTime) : Prop :=
  valid_datetime t ∧ -1440 < utcoffset t < 1440.

#[global] Instance valid_DateTime_dec t : Decision (valid_DateTime t).
Proof. unfold valid_DateTime. apply _. Defined.

(** A timestamp that the client wrote in UTC. *)
Definition utc (t : datetime) : DateTime := at_offset t 0.

Definition is_leap (y : Z) : bool :=
  (y mod 4 =? 0) && (negb (y mod 100 =? 0) || (y mod 400 =? 0)).

Definition days_in_month (y m : Z) : Z :=
  if m =? 2 then (if is_leap y then 29 else 28)
  else if (m =? 4) || (m =? 6) || (m =? 9) || (m =? 11) then 30
  else 31.

(** The day after [d] and the day before it; a [datetime.date] is of the
    years 1 to 9999. *)
Definition tomorrow (d : date) : option date :=
  if d_day d <? days_in_month (d_year d) (d_month d)
  then Some (mkDate (d_year d) (d_month d) (d_day d + 1))
  else if d_month d <? 12 then Some (mkDate (d_year d) (d_month d + 1) 1)
  else if d_year d <? 9999 then Some (mkDate (d_year d + 1) 1 1)
  else None.

Definition yesterday (d : date) : option date :=
  if 1 <? d_day d then Some (mkDate (d_year d) (d_month d) (d_day d - 1))
  else if 1 <? d_month d
  then Some (mkDate (d_year d) (d_month d - 1) (days_in_month (d_year d) (d_month d - 1)))
  else if 1 <? d_year d then Some (mkDate (d_year d - 1) 12 31)
  else None.

(** [timestamp.astimezone(utc)], as Django converts a timestamp that it
    stores: the offset is taken off the time of the day, and the date moves
    to the day before or the day after where the time leaves the day.
    [None] is the [OverflowError] of a date out of range. *)
Definition astimezone_utc (t : DateTime) : option datetime :=
  let minutes := hour t * 60 + minute t - utcoffset t in
  d ← (if minutes <? 0 then yesterday (datetime_date t)
       else if minutes <? 1440 then Some (datetime_date t)
       else tomorrow (datetime_date t));
  Some (mkDatetime (d_year d) (d_month d) (d_day d)
                   (minutes mod 1440 / 60) (minutes mod 60) (second t)).

(** Python compares two datetimes as the tuples of their fields. *)
Fixpoint tuple_compare (l1 l2 : list Z) : comparison :=
  match l1, l2 with
  | [], [] => Eq
  | [], _ :: _ => Lt
  | _ :: _, [] => Gt
  | x :: l1', y :: l2' =>
      match Z.compare x y with
      | Eq => tuple_compare l1' l2'
      | c => c
      end
  end.

Definition datetime_tuple (t : datetime) : list Z :=
  [year t; month t; day t; hour t; minute t; second t].

(** [t1 > t2], the test of [timestamp__gt]. *)
Definition datetime_gt (t1 t2 : datetime) : bool :=
  match tuple_compare (datetime_tuple t1) (datetime_tuple t2) with
  | Gt => true
  | _ => false
  end.

(** ** Appointments *)

(** [Appointment.objects.filter(timestamp__startswith=d)]: the rows whose
    timestamp, as the text of the database (in UTC), starts with
    [str(d)]. *)
Definition Appointment_objects_filter_startswith (d : date) (s : State) : list Appointment :=
  List.filter (λ a, String.prefix (str_date d) (str_datetime (appointment_timestamp a)))
              (Appointments s).

(** [Appointment.objects.create(user=user, timestamp=timestamp)]: the row
    holds the timestamp in UTC. *)
Definition Appointment_objects_create (user : nat) (timestamp : DateTime) : M Appointment :=
  λ s, match astimezone_utc timestamp with
       | None => (s, inl OverflowError)
       | Some t =>
           let a := mkAppointment user t in
           (set_Appointments (λ rows, rows ++ [a]) s, inr a)
       end.

(** [BookAppointment.mutate]; [timestamp.date()] is the date that the
    client wrote, in the zone of [timestamp]. *)
Definition BookAppointment_mutate (timestamp : DateTime) : ResolveInfo → M Appointment :=
  login_required (λ info user,
    _appoint ← gets (Appointment_objects_filter_startswith (datetime_date timestamp));
    if (0 <? length _appoint)%nat then raise (Exception "No slot on that day!")
    else
      new_appoint ← Appointment_objects_create user timestamp;
      run_async (AppointmentConfirmedMail user (appointment_timestamp new_appoint)) ;;
      run_async (AppointmentAdminMail user (appointment_timestamp new_appoint)) ;;
      mret new_appoint).

(** [Query.resolve_booked_dates], with [datetime.datetime.now().astimezone()]
    as [now], in UTC as the stored timestamps that it is compared with. *)
Definition resolve_booked_dates (now : datetime) (s : State) : list datetime :=
  let appointments :=
    List.filter (λ a, datetime_gt (appointment_timestamp a) now) (Appointments s) in
  map appointment_timestamp appointments.

(** ** The catalogue *)

(** [Product.objects.all()].  The query asks for no order and the
    database promises none; the rows come in the order of the map. *)
Definition Product_objects_all (s : State) : list (nat * Product) :=
  map_to_list (Products s).

(** [name.lower()], on the letters A to Z. *)
Definition lower (c : ascii) : ascii :=
  let n := nat_of_ascii c in
  if ((65 <=? n) && (n <=? 90))%nat then ascii_of_nat (n + 32) else c.

Fixpoint lower_string (s : string) : string :=
  match s with
  | EmptyString => EmptyString
  | String c s' => String (lower c) (lower_string s')
  end.

(** [needle in haystack] *)
Fixpoint contains (needle haystack : string) : bool :=
  String.prefix needle haystack
  || match haystack with
     | EmptyString => false
     | String _ h' => contains needle h'
     end.

(** [name__icontains=search] *)
Definition icontains (name search : string) : bool :=
  contains (lower_string search) (lower_string name).

(** The truth value of an optional argument: [None], [""] and [0] are false. *)
Definition truthy_str (o : option string) : option string :=
  match o with
  | Some s => if String.eqb s "" then None else Some s
  | None => None
  end.

Definition truthy_int (o : option Z) : option Z :=
  match o with
  | Some 0 => None
  | o => o
  end.

(** [qs[skip:]] and [qs[:first]]; a query set refuses a negative bound. *)
Definition slice_from {A} (skip : Z) (qs : list A) : exn + list A :=
  if skip <? 0 then inl (Exception "Negative indexing is not supported.")
  else inr (drop (Z.to_nat skip) qs).

Definition slice_to {A} (first : Z) (qs : list A) : exn + list A :=
  if first <? 0 then inl (Exception "Negative indexing is not supported.")
  else inr (take (Z.to_nat first) qs).

(** [Query.resolve_products] *)
Definition resolve_products (first skip : option Z) (search kind : option string)
    (s : State) : exn + list (nat * Product) :=
  let qs := Product_objects_all s in
  let qs := match truthy_str search with
            | Some search => List.filter (λ p, icontains (product_name (snd p)) search) qs
            | None => qs
            end in
  let qs := match truthy_str kind with
            | Some kind => List.filter (λ p, String.eqb (product_kind (snd p)) kind) qs
            | None => qs
            end in
  match match truthy_int skip with
        | Some skip => slice_from skip qs
        | None => inr qs
        end with
  | inl e => inl e
  | inr qs =>
      match truthy_int first with
      | Some first => slice_to first qs
      | None => inr qs
      end
  end.

(** ** The address book *)

(** [CreateAddress.mutate] *)
Definition CreateAddress_mutate (name phone address1 address2 : string) (pincode : Z)
    (city state country : string) : ResolveInfo → M Address :=
  login_required (λ info user,
    let address := mkAddress user name phone address1 address2 pincode city state country in
    modify (set_Addresses (λ t, <[fresh (dom t) := address]> t)) ;;
    mret address).

(** [DeleteAddress.mutate] *)
Definition DeleteAddress_mutate (addressId : nat) : ResolveInfo → M nat :=
  login_required (λ info user,
    address ← Address_objects_get addressId;
    if negb (address_user address =? user)%nat
    then raise (Exception "You must the owner of that address to remove it!")
    else
      modify (set_Addresses (delete addressId)) ;;
      mret addressId).

(** [AddressInputType] *)
Record AddressInputType := mkAddressInput {
  input_name : string;
  input_phone : string;
  input_address1 : string;
  input_address2 : string;
  input_pincode : Z;
  input_city : string;
  input_state : string
}.

(** [Address.objects.get(user=user)], and [Address(user=user)] when there
    is none (the country of a new row is left empty here). *)
Definition Address_get_or_new (user : nat) : M (nat * Address) := λ s,
  match List.filter (λ ka, (address_user (snd ka) =? user)%nat) (map_to_list (Addresses s)) with
  | [] => (s, inr (fresh (dom (Addresses s)), mkAddress user "" "" "" "" 0 "" "" ""))
  | [ka] => (s, inr ka)
  | _ => (s, inl (MultipleObjectsReturned "Address"))
  end.

(** [UpdateSelf.mutate], the part that writes the address book (the name
    and the phone number go to the user table, which is not modelled). *)
Definition UpdateSelf_mutate (address : option AddressInputType) : ResolveInfo → M unit :=
  login_required (λ info user,
    match address with
    | Some a =>
        ka ← Address_get_or_new user;
        let address :=
          mkAddress (address_user (snd ka)) (input_name a) (input_phone a)
                    (input_address1 a) (input_address2 a) (input_pincode a)
                    (input_city a) (input_state a) (address_country (snd ka)) in
        modify (set_Addresses (λ t, <[fst ka := address]> t))
    | None => mret tt
    end).

(** ** Histories *)

(** The fields of [class Mutation] that write the modelled tables. *)
Inductive Mutation :=
  | create_address (name phone address1 address2 : string) (pincode : Z)
                   (city state country : string)
  | delete_address (addressId : nat)
  | update_me (address : option AddressInputType)
  | order_cart (address_id : nat)
  | set_cart (cart_obj : ProductOrderInputType) (add : option bool)
  | book_appointment (timestamp : DateTime)
  | order_product (product_obj : ProductOrderInputType) (address_id : nat).

(** The state a mutation leaves, whether it returns or raises. *)
Definition execute (m : Mutation) (info : ResolveInfo) (s : State) : State :=
  match m with
  | create_address name phone address1 address2 pincode city state country =>
      (CreateAddress_mutate name phone address1 address2 pincode city state country info s).1
  | delete_address addressId => (DeleteAddress_mutate addressId info s).1
  | update_me address => (UpdateSelf_mutate address info s).1
  | order_cart address_id => (OrderCart_mutate address_id info s).1
  | set_cart cart_obj add => (SetCart_mutate cart_obj add info s).1
  | book_appointment timestamp => (BookAppointment_mutate timestamp info s).1
  | order_product product_obj address_id =>
      (OrderProduct_mutate product_obj address_id info s).1
  end.

(** What happens to the store: a request, or an edit of the price and the
    discount of a product by the shop (outside [schema.py]). *)
Inductive Event :=
  | Call (info : ResolveInfo) (m : Mutation)
  | CatalogueEdit (product_id : nat) (price discount : Z).

Definition edit_product (price discount : Z) (p : Product) : Product :=
  mkProduct (product_name p) (product_kind p) price discount (product_stock p).

Definition step (s : State) (e : Event) : State :=
  match e with
  | Call info m => execute m info s
  | CatalogueEdit product_id price discount =>
      set_Products (alter (edit_product price discount) product_id) s
  end.

Definition run (es : list Event) (s : State) : State := foldl step s es.

(** [graphene.DateTime] parses its argument into a [datetime]. *)
Definition valid_event (e : Event) : Prop :=
  match e with
  | Call _ (book_appointment timestamp) => valid_DateTime timestamp
  | _ => True
  end.

(** ** The vocabulary of the properties *)

(** Unfolds the monad and the ORM calls of the order mutations. *)
Ltac unfold_M :=
  unfold login_required, Address_objects_get, Product_objects_get, Product_save,
    Order_objects_create, order_product_objects_add, CartObj_delete, run_async,
    with_order, mbind, M_bind, mret, M_ret, raise, gets, modify in *.

(** *** Checkout *)

(** The cart line asks for more than the stock of its product, or for no
    more. *)
Definition exceeds_stock (s : State) (c : CartObj) : Prop :=
  ∃ p, Products s !! cart_obj_product_id c = Some p ∧ product_stock p < cart_obj_qty c.

Definition in_stock (s : State) (c : CartObj) : Prop :=
  ∃ p, Products s !! cart_obj_product_id c = Some p ∧ cart_obj_qty c ≤ product_stock p.

#[global] Instance exceeds_stock_dec s c : Decision (exceeds_stock s c).
Proof.
  unfold exceeds_stock. destruct (Products s !! cart_obj_product_id c) as [p|].
  - destruct (decide (product_stock p < cart_obj_qty c)) as [Hlt|Hge].
    + left. by exists p.
    + right. by intros (p' & [= <-] & Hlt).
  - right. by intros (p' & Hp' & _).
Defined.

#[global] Instance in_stock_dec s c : Decision (in_stock s c).
Proof.
  unfold in_stock. destruct (Products s !! cart_obj_product_id c) as [p|].
  - destruct (decide (cart_obj_qty c ≤ product_stock p)) as [Hle|Hgt].
    + left. by exists p.
    + right. by intros (p' & [= <-] & Hle).
  - right. by intros (p' & Hp' & _).
Defined.

(** The order line that [order] gets for the cart line [c]. *)
Definition order_line (t : gmap nat Product) (order : Order) (c : CartObj) : OrderObj :=
  mkOrderObj (order_id order) (cart_obj_product_id c) (cart_obj_qty c)
             (from_option order_price 0 (t !! cart_obj_product_id c)).

(** The catalogue after the stock of each line of [done] is taken. *)
Definition sub_stocks (done : list CartObj) (t : gmap nat Product) : gmap nat Product :=
  foldl (λ t c, alter (λ p, sub_stock p (cart_obj_qty c)) (cart_obj_product_id c) t) t done.

(** The state after the cart lines [done] have gone through the loop. *)
Definition committed (order : Order) (done : list CartObj) (s : State) : State :=
  mkState
    (sub_stocks done (Products s))
    (Addresses s)
    (List.filter (λ r, negb (existsb (λ c, (cart_obj_id r =? cart_obj_id c)%nat) done))
                 (CartObjs s))
    (Orders s)
    (OrderObjs s ++ map (order_line (Products s) order) done)
    (Appointments s)
    (outbox s).

(** *** Consistent stores and invariants *)

(** The pair that a cart line is the only one to have. *)
Definition cart_key (c : CartObj) : nat * nat := (cart_obj_user c, cart_obj_product_id c).

(** What the keys of the database give: a cart line has its own primary
    key and is the only line of its user for its product; it points to a
    product of the catalogue, and an order line to an order. *)
Definition consistent (s : State) : Prop :=
  NoDup (map cart_obj_id (CartObjs s))
  ∧ NoDup (map cart_key (CartObjs s))
  ∧ Forall (λ c, is_Some (Products s !! cart_obj_product_id c)) (CartObjs s)
  ∧ Forall (λ o, order_obj_order o ∈ map order_id (Orders s)) (OrderObjs s).

#[global] Instance consistent_dec s : Decision (consistent s).
Proof. unfold consistent. apply _. Defined.

(** The two mails of an order are queued. *)
Definition with_mails (user : nat) (order : Order) (s : State) : State :=
  set_outbox (λ o, (o ++ [OrderConfirmedMail user (order_id order)])
                   ++ [OrderPlacedAdminMail (order_id order)]) s.

(** What a checkout that meets a line beyond the stock leaves behind. *)
Definition partial_checkout (s s' : State) (user : nat) (order : Order)
    (done : list CartObj) (bad : CartObj) (rest : list CartObj) : Prop :=
  (* the lines before the failing one are committed *)
  (∀ c, c ∈ done →
     (c ∉ CartObjs s')
     ∧ Products s' !! cart_obj_product_id c
       = (λ p, sub_stock p (cart_obj_qty c)) <$> Products s !! cart_obj_product_id c)
  (* the failing line and the lines after it are as they were *)
  ∧ (∀ c, c ∈ bad :: rest →
       c ∈ CartObjs s'
       ∧ Products s' !! cart_obj_product_id c = Products s !! cart_obj_product_id c)
  (* the rest of the cart table and of the catalogue is as it was *)
  ∧ (∀ c, c ∈ CartObjs s' ↔ c ∈ CartObjs s ∧ c ∉ done)
  ∧ (∀ k, k ∉ map cart_obj_product_id done → Products s' !! k = Products s !! k)
  (* the order and the order lines of the committed cart lines stay *)
  ∧ Orders s' = Orders s ++ [order]
  ∧ OrderObjs s' = OrderObjs s ++ map (order_line (Products s) order) done
  ∧ outbox s' = outbox s.

(** *** Two small stores *)

Definition lamp : Product := mkProduct "Lamp" "decor" 100 10 5.
Definition vase : Product := mkProduct "Vase" "decor" 250 0 1.

Definition home : Address :=
  mkAddress 7 "Asha" "555-0100" "12 Hill Road" "" 500032 "Hyderabad" "Telangana" "India".

(** User 7 has two lamps and three vases in the cart; one vase is in stock. *)
Definition shop : State :=
  mkState {[ 1%nat := lamp; 2%nat := vase ]} {[ 1%nat := home ]}
          [mkCartObj 1 7 1 2; mkCartObj 2 7 2 3] [] [] [] [].

(** User 7 has an appointment on the first of May 2024 at ten. *)
Definition may_1st_at_10 : datetime := mkDatetime 2024 5 1 10 0 0.
Definition may_1st_at_12 : datetime := mkDatetime 2024 5 1 12 0 0.
Definition may_1st_at_18 : datetime := mkDatetime 2024 5 1 18 0 0.
Definition may_2nd_at_9 : datetime := mkDatetime 2024 5 2 9 0 0.

Definition clinic : State :=
  mkState ∅ ∅ [] [] [] [mkAppointment 7 may_1st_at_10] [].

(** Two times of the second of May 2024 in India, five and a half hours
    ahead of UTC: two in the night, which is half past eight in the evening
    of the first of May in UTC, and ten in the morning. *)
Definition may_2nd_at_2_in_India : DateTime := at_offset (mkDatetime 2024 5 2 2 0 0) 330.
Definition may_2nd_at_10_in_India : DateTime := at_offset (mkDatetime 2024 5 2 10 0 0) 330.

(** C1 as the claim states it: the failed checkout changes nothing. *)
Definition all_or_nothing (s : State) (user address_id : nat) : Prop :=
  let r := OrderCart_mutate address_id (mkInfo (Some user)) s in
  r.2 = inl (Exception "Stock Error")
  ∧ Products r.1 = Products s
  ∧ CartObjs r.1 = CartObjs s
  ∧ Orders r.1 = Orders s
  ∧ OrderObjs r.1 = OrderObjs s.

(** *** Invariants of a handler *)

(** [m] keeps [P], whether it returns or raises. *)
Definition preserves {A} (P : State → Prop) (m : M A) : Prop := ∀ s, P s → P (m s).1.

(** No product has a negative stock. *)
Definition nonneg_stock (s : State) : Prop :=
  map_Forall (λ _ p, 0 ≤ product_stock p) (Products s).

#[global] Instance nonneg_stock_dec s : Decision (nonneg_stock s).
Proof. unfold nonneg_stock. apply _. Defined.

(** Unfolds the mutations that have no loop. *)
Ltac unfold_handlers :=
  unfold SetCart_mutate, try_except_DoesNotExist, CartObj_objects_get, CartObj_save,
    user_cart_remove, user_cart_add, BookAppointment_mutate, Appointment_objects_create,
    CreateAddress_mutate, DeleteAddress_mutate, UpdateSelf_mutate, Address_get_or_new,
    OrderProduct_mutate, order_cart_obj in *;
  unfold_M.

(** A handler without a loop, case by case. *)
Ltac by_cases s :=
  unfold_handlers; cbn;
  repeat (case_match; simplify_eq; cbn; try done).

(** The part of [consistent] that the loop of a checkout relies on. *)
Definition consistent_with (order : Order) (s : State) : Prop :=
  consistent s ∧ order_id order ∈ map order_id (Orders s).

(** *** Order lines and their price *)

Definition with_order_line (o : OrderObj) (s : State) : State :=
  set_OrderObjs (λ t, t ++ [o]) s.

(** The order lines [l] are still the first rows of the table. *)
Definition keeps_order_lines (l : list OrderObj) (s : State) : Prop :=
  l `prefix_of` OrderObjs s.

(** [float(n)] with the operations of the Standard Library. *)
Definition binary64_of_Z (n : Z) : spec_float := binary_normalize 53 1024 n 0 false.

(** An [int] as the dividend of [/]: all of its digits enter the division,
    which rounds once. *)
Definition dividend_of_Z (n : Z) : spec_float :=
  match n with
  | Z0 => S754_zero false
  | Zpos m => S754_finite false m 0
  | Zneg m => S754_finite true m 0
  end.

(** [math.ceil] of a finite binary64 number. *)
Definition binary64_ceil (x : spec_float) : option Z :=
  match x with
  | S754_zero _ => Some 0
  | S754_finite sign m e =>
      let v := if sign then Z.neg m else Z.pos m in
      Some (if 0 <=? e then v * 2 ^ e else - ((- v) / 2 ^ (- e)))
  | _ => None
  end.

(** The price once more, with the binary64 operations of the Standard
    Library. *)
Definition order_price_binary64 (product : Product) : option Z :=
  binary64_ceil
    (SFsub 53 1024 (binary64_of_Z (product_price product))
       (SFdiv 53 1024 (dividend_of_Z (product_discount product * product_price product))
                      (binary64_of_Z 100))).

(** The two evaluations agree on these prices and discounts. *)
Definition agree_on (prices discounts : list Z) : bool :=
  forallb (λ price,
    forallb (λ discount,
      let p := mkProduct "" "" price discount 0 in
      bool_decide (order_price_binary64 p = Some (order_price p))) discounts) prices.

(** The unit price as the specification writes it: [ceil(p - p*d/100)]. *)
Definition ceil_discounted (p d : Z) : Z :=
  Qceiling (inject_Z p - inject_Z p * inject_Z d / inject_Z 100)%Q.

(** *** The cart, the stock error and the listing *)

(** The quantity of the cart line of [user] for [product_id], if there is one. *)
Definition cart_qty (user product_id : nat) (s : State) : option Z :=
  cart_obj_qty <$> head (List.filter (cart_line_of user product_id) (CartObjs s)).

(** C7 as the claim states it: the exception tells which product was
    beyond the stock. *)
Definition stock_error_identifies_product : Prop :=
  ∃ offending : exn → nat,
    ∀ s user address_id address product_obj p e,
      Addresses s !! address_id = Some address →
      Products s !! product_id product_obj = Some p →
      product_stock p < qty product_obj →
      (OrderProduct_mutate product_obj address_id (mkInfo (Some user)) s).2 = inl e →
      offending e = product_id product_obj.

(** The listing as the specification words it: each filter is applied when
    its argument is given, then [skip] drops and [first] caps. *)
Definition listProducts (first skip : option Z) (search kind : option string)
    (qs : list (nat * Product)) : list (nat * Product) :=
  let qs := match search with
            | Some search => List.filter (λ p, icontains (product_name (snd p)) search) qs
            | None => qs
            end in
  let qs := match kind with
            | Some kind => List.filter (λ p, String.eqb (product_kind (snd p)) kind) qs
            | None => qs
            end in
  let qs := match skip with
            | Some skip => drop (Z.to_nat skip) qs
            | None => qs
            end in
  match first with
  | Some first => take (Z.to_nat first) qs
  | None => qs
  end.

(** *** Appointments *)

#[global] Instance date_eq_dec : EqDecision date.
Proof. solve_decision. Defined.

(** The calendar date of an appointment. *)
Definition appointment_date (a : Appointment) : date :=
  datetime_date (appointment_timestamp a).

(** The stored timestamps are valid and no two fall on one date. *)
Definition one_per_day (s : State) : Prop :=
  Forall (λ a, valid_datetime (appointment_timestamp a)) (Appointments s)
  ∧ NoDup (map appointment_date (Appointments s)).

#[global] Instance one_per_day_dec s : Decision (one_per_day s).
Proof. unfold one_per_day. apply _. Defined.

(** The appointment is stored and its two mails are queued. *)
Definition with_appointment (user : nat) (timestamp : datetime) (s : State) : State :=
  set_outbox (λ o, (o ++ [AppointmentConfirmedMail user timestamp])
                   ++ [AppointmentAdminMail user timestamp])
    (set_Appointments (λ t, t ++ [mkAppointment user timestamp]) s).

(** The timestamp falls on the same date in UTC as in its own zone. *)
Definition same_date_in_utc (timestamp : DateTime) : Prop :=
  match astimezone_utc timestamp with
  | Some t => datetime_date t = datetime_date timestamp
  | None => True
  end.

#[global] Instance same_date_in_utc_dec t : Decision (same_date_in_utc t).
Proof. unfold same_date_in_utc. destruct (astimezone_utc t); apply _. Defined.

(** The bookings of a history whose timestamps do. *)
Definition books_on_utc_date (e : Event) : Prop :=
  match e with
  | Call _ (book_appointment timestamp) => same_date_in_utc timestamp
  | _ => True
  end.

(** C3 as the claim states it, for two timestamps of one zone: after the
    first is booked, the second, on the same date, is refused. *)
Definition second_booking_refused (first second : DateTime) (s : State) : Prop :=
  datetime_date first = datetime_date second →
  utcoffset first = utcoffset second →
  let s1 := (BookAppointment_mutate first (mkInfo (Some 8%nat)) s).1 in
  BookAppointment_mutate second (mkInfo (Some 9%nat)) s1
  = (s1, inl (Exception "No slot on that day!")).

(** A count that grows with time on valid timestamps. *)
Definition clock (t : datetime) : Z :=
  ((((year t * 12 + (month t - 1)) * 31 + (day t - 1)) * 24 + hour t) * 60 + minute t) * 60
  + second t.

(** ** Queries on orders *)

(** [Order.objects.get(pk=id)] *)
Definition Order_objects_get (id : nat) (s : State) : exn + Order :=
  match List.filter (λ o, (order_id o =? id)%nat) (Orders s) with
  | [] => inl (DoesNotExist "Order")
  | [o] => inr o
  | _ => inl (MultipleObjectsReturned "Order")
  end.

(** [Query.resolve_order] *)
Definition resolve_order (id : nat) (info : ResolveInfo) (s : State) : exn + Order :=
  match context_user info with
  | None => inl PermissionDenied
  | Some user =>
      match Order_objects_get id s with
      | inl e => inl e
      | inr product =>
          if negb (order_user product =? user)%nat
          then inl (Exception "Not the owner of the order")
          else inr product
      end
  end.

(** [Query.resolve_orders] *)
Definition resolve_orders (info : ResolveInfo) (s : State) : exn + list Order :=
  match context_user info with
  | None => inl PermissionDenied
  | Some user => inr (List.filter (λ o, (order_user o =? user)%nat) (Orders s))
  end.

(** [OrderType.resolve_product_objects] *)
Definition resolve_product_objects (parent : Order) (s : State) : list OrderObj :=
  List.filter (λ o, (order_obj_order o =? order_id parent)%nat) (OrderObjs s).

(** [UserType.resolve_cart] *)
Definition resolve_cart (parent : nat) (s : State) : list CartObj :=
  CartObj_objects_filter parent s.

(** ** Reviews and likes *)

(** Modelled from the spec: the rows of [Review] and [Like]; no key makes
    a like the only one of its user for its review. *)
Record Review := mkReview {
  review_id : nat;
  review_user : nat;
  review_product : nat;
  review_rating : Z;
  review_text : option string
}.

Record Like := mkLike {
  like_id : nat;
  like_user : nat;
  like_review : nat
}.

Record Community := mkCommunity {
  Reviews : list Review;
  Likes : list Like
}.

(** The likes of [user] for the review, and the likes of the review. *)
Definition like_of (user reviewId : nat) (l : Like) : bool :=
  (like_user l =? user)%nat && (like_review l =? reviewId)%nat.

Definition like_on (reviewId : nat) (l : Like) : bool := (like_review l =? reviewId)%nat.

(** [ReviewType.resolve_likes_count] *)
Definition resolve_likes_count (parent : Review) (c : Community) : nat :=
  length (List.filter (like_on (review_id parent)) (Likes c)).

(** [ReviewType.resolve_is_liked]: the count, read as a Boolean. *)
Definition resolve_is_liked (parent : Review) (info : ResolveInfo) (c : Community)
    : exn + bool :=
  match context_user info with
  | None => inl PermissionDenied
  | Some user =>
      inr (0 <? length (List.filter (like_of user (review_id parent)) (Likes c)))%nat
  end.

(** [Review.objects.get(pk=reviewId)] *)
Definition Review_objects_get (reviewId : nat) (c : Community) : exn + Review :=
  match List.filter (λ r, (review_id r =? reviewId)%nat) (Reviews c) with
  | [] => inl (DoesNotExist "Review")
  | [r] => inr r
  | _ => inl (MultipleObjectsReturned "Review")
  end.

(** [AddReview.mutate]; [catalogue] is the product table, which the
    foreign key of the review reads. *)
Definition AddReview_mutate (rating : Z) (productId : nat) (text : option string)
    (catalogue : gmap nat Product) (info : ResolveInfo) (c : Community)
    : Community * (exn + (nat * Z * option string)) :=
  match context_user info with
  | None => (c, inl PermissionDenied)
  | Some user =>
      match catalogue !! productId with
      | None => (c, inl IntegrityError)
      | Some _ =>
          let review :=
            mkReview (fresh_pk review_id (Reviews c)) user productId rating text in
          (mkCommunity (Reviews c ++ [review]) (Likes c),
           inr (review_id review, review_rating review, review_text review))
      end
  end.

(** [DeleteReview.mutate]; [on_delete] is what [models.py] tells the
    database to do with the likes of a deleted review. *)
Definition DeleteReview_mutate (on_delete : nat → list Like → list Like) (reviewId : nat)
    (info : ResolveInfo) (c : Community) : Community * (exn + nat) :=
  match context_user info with
  | None => (c, inl PermissionDenied)
  | Some user =>
      match Review_objects_get reviewId c with
      | inl e => (c, inl e)
      | inr review =>
          if negb (review_user review =? user)%nat
          then (c, inl (Exception "You must be author of the review to delete it."))
          else
            (mkCommunity
               (List.filter (λ r, negb (review_id r =? review_id review)%nat) (Reviews c))
               (on_delete (review_id review) (Likes c)),
             inr reviewId)
      end
  end.

(** [LikeReview.mutate] *)
Definition LikeReview_mutate (reviewId : nat) (info : ResolveInfo) (c : Community)
    : Community * (exn + nat) :=
  match context_user info with
  | None => (c, inl PermissionDenied)
  | Some user =>
      if existsb (λ r, (review_id r =? reviewId)%nat) (Reviews c)
      then
        let like := mkLike (fresh_pk like_id (Likes c)) user reviewId in
        (mkCommunity (Reviews c) (Likes c ++ [like]), inr (like_id like))
      else (c, inl IntegrityError)
  end.

(** [UnlikeReview.mutate] *)
Definition UnlikeReview_mutate (reviewId : nat) (info : ResolveInfo) (c : Community)
    : Community * (exn + nat) :=
  match context_user info with
  | None => (c, inl PermissionDenied)
  | Some user =>
      match List.filter (like_of user reviewId) (Likes c) with
      | [] => (c, inl (DoesNotExist "Like"))
      | [like] =>
          (mkCommunity (Reviews c)
             (List.filter (λ l, negb (like_id l =? like_id like)%nat) (Likes c)),
           inr (like_id like))
      | _ => (c, inl (MultipleObjectsReturned "Like"))
      end
  end.

(** User 7 has reviewed the lamp, and user 8 likes the review. *)
Definition lamp_review : Review := mkReview 1 7 1 5 (Some "Bright"%string).

Definition forum : Community := mkCommunity [lamp_review] [mkLike 1 8 1].

(** The products that pass the two filters of [resolve_products]. *)
Definition filtered_products (search kind : option string) (s : State)
    : list (nat * Product) :=
  let qs := Product_objects_all s in
  let qs := match truthy_str search with
            | Some search => List.filter (λ p, icontains (product_name (snd p)) search) qs
            | None => qs
            end in
  match truthy_str kind with
  | Some kind => List.filter (λ p, String.eqb (product_kind (snd p)) kind) qs
  | None => qs
  end.

(** ** Proofs *)

(** C8: [OrderProduct.mutate] does not write the cart table: whether the
    call returns or raises, the cart of every user is what it was, each
    line with the quantity it had. *)
Theorem OrderProduct_cart_untouched :
  ∀ product_obj address_id info s,
    let s' := (OrderProduct_mutate product_obj address_id info s).1 in
    CartObjs s' = CartObjs s
    ∧ ∀ user,
        CartObj_objects_filter user s' = CartObj_objects_filter user s
        ∧ ∀ product_id, cart_qty user product_id s' = cart_qty user product_id s.
Proof.
  intros product_obj address_id info s s'.
  assert (CartObjs s' = CartObjs s) as Heq.
  { subst s'. unfold OrderProduct_mutate. unfold_M.
    destruct (context_user info) as [user|]; [|done].
    destruct (Addresses s !! address_id) as [address|]; [|done].
    cbn [Products set_Orders].
    destruct (Products s !! product_id product_obj) as [product|]; [|done].
    destruct (product_stock product <? qty product_obj); [done|].
    cbn. by destruct (existsb _ _). }
  split; [done|]. intros user. unfold CartObj_objects_filter, cart_qty. by rewrite Heq.
Qed.

(** *** One line of the cart *)

Lemma order_cart_obj_stock_error order c s :
  exceeds_stock s c → order_cart_obj order c s = (s, inl (Exception "Stock Error")).
Proof.
  intros (p & Hp & Hlt). unfold order_cart_obj. unfold_M. rewrite Hp.
  by apply Z.ltb_lt in Hlt as ->.
Qed.

Lemma order_cart_obj_commit order c s :
  in_stock s c →
  existsb (has_order_line order (cart_obj_product_id c)) (OrderObjs s) = false →
  order_cart_obj order c s = (committed order [c] s, inr tt).
Proof.
  intros (p & Hp & Hle) Hnew. unfold order_cart_obj. unfold_M. rewrite Hp.
  apply Z.ltb_ge in Hle as ->. cbn.
  rewrite Hnew.
  unfold committed, set_CartObjs, order_line. cbn. rewrite Hp. cbn.
  f_equal. f_equal.
  - apply map_eq. intros k. destruct (decide (cart_obj_product_id c = k)) as [<-|Hne].
    + by rewrite lookup_insert_eq, lookup_alter_eq, Hp.
    + by rewrite lookup_insert_ne, lookup_alter_ne.
  - apply filter_ext. intros r. by rewrite orb_false_r.
Qed.

Lemma committed_nil order s : committed order [] s = s.
Proof.
  unfold committed. cbn. rewrite app_nil_r.
  destruct s. cbn. f_equal.
  induction CartObjs0; cbn; congruence.
Qed.

Lemma committed_cons order c done s :
  Forall (λ c', cart_obj_product_id c' ≠ cart_obj_product_id c) done →
  committed order (c :: done) s = committed order done (committed order [c] s).
Proof.
  intros Hne. unfold committed. cbn. f_equal.
  - induction (CartObjs s) as [|r l IH]; [done|]. cbn.
    destruct (cart_obj_id r =? cart_obj_id c)%nat; cbn; [done|].
    destruct (existsb _ done); cbn; [done|]. by rewrite IH.
  - rewrite <- app_assoc. f_equal. cbn. f_equal.
    apply map_ext_Forall. eapply Forall_impl; [exact Hne|].
    intros c' Hc'. unfold order_line. by rewrite lookup_alter_ne.
Qed.

Lemma in_stock_committed_ne order c c' s :
  cart_obj_product_id c' ≠ cart_obj_product_id c →
  in_stock s c' → in_stock (committed order [c] s) c'.
Proof.
  intros Hne (p & Hp & Hle). exists p. split; [|done].
  cbn. by rewrite lookup_alter_ne.
Qed.

Lemma NoDup_map_cons_ne {A B} (f : A → B) (x : A) (l : list A) :
  NoDup (map f (x :: l)) → Forall (λ y, f y ≠ f x) l ∧ NoDup (map f l).
Proof.
  cbn. intros [Hx Hl]%NoDup_cons. split; [|done].
  apply Forall_forall. intros y Hy Heq. apply Hx. rewrite <- Heq.
  apply list_elem_of_fmap. by exists y.
Qed.

Lemma sub_stocks_cons c done t :
  sub_stocks (c :: done) t
  = sub_stocks done (alter (λ p, sub_stock p (cart_obj_qty c)) (cart_obj_product_id c) t).
Proof. reflexivity. Qed.

Lemma sub_stocks_other done t k :
  k ∉ map cart_obj_product_id done → sub_stocks done t !! k = t !! k.
Proof.
  revert t. induction done as [|c done IH]; intros t Hk; [done|].
  rewrite sub_stocks_cons. apply not_elem_of_cons in Hk as [Hk1 Hk2].
  rewrite IH by done. by rewrite lookup_alter_ne.
Qed.

Lemma sub_stocks_done done t c :
  NoDup (map cart_obj_product_id done) → c ∈ done →
  sub_stocks done t !! cart_obj_product_id c
  = (λ p, sub_stock p (cart_obj_qty c)) <$> t !! cart_obj_product_id c.
Proof.
  revert t. induction done as [|c' done IH]; intros t Hnd Hc.
  - by apply elem_of_nil in Hc.
  - apply NoDup_map_cons_ne in Hnd as [Hne Hnd]. rewrite sub_stocks_cons.
    rewrite Forall_forall in Hne.
    apply elem_of_cons in Hc as [->|Hc].
    + rewrite sub_stocks_other.
      * by rewrite lookup_alter_eq.
      * intros (y & Hy1 & Hy2)%list_elem_of_fmap. by apply (Hne y).
    + rewrite IH by done. rewrite lookup_alter_ne; [done|].
      intros Heq. by apply (Hne c).
Qed.

Lemma exceeds_stock_committed order done c s :
  cart_obj_product_id c ∉ map cart_obj_product_id done →
  exceeds_stock s c → exceeds_stock (committed order done s) c.
Proof.
  intros Hne (p & Hp & Hlt). exists p. split; [|done]. cbn.
  by rewrite sub_stocks_other.
Qed.

Lemma for_each_order_cart_obj_app order done tail s :
  NoDup (map cart_obj_product_id done) →
  Forall (in_stock s) done →
  Forall (λ c, existsb (has_order_line order (cart_obj_product_id c)) (OrderObjs s) = false)
         done →
  for_each (done ++ tail) (order_cart_obj order) s
  = for_each tail (order_cart_obj order) (committed order done s).
Proof.
  revert s. induction done as [|c done IH]; intros s Hnd Hin Hnew.
  - by rewrite committed_nil.
  - apply NoDup_map_cons_ne in Hnd as [Hne Hnd].
    apply Forall_cons in Hin as [Hc Hin]. apply Forall_cons in Hnew as [Hcnew Hnew].
    cbn [app for_each]. unfold mbind at 1, M_bind at 1.
    rewrite (order_cart_obj_commit order c s Hc Hcnew).
    rewrite (committed_cons order c done s) by done.
    apply IH; [done| |].
    + eapply Forall_impl; [apply Forall_and; split; [exact Hne|exact Hin]|].
      intros c' [Hc'ne Hc']. by apply in_stock_committed_ne.
    + eapply Forall_impl; [apply Forall_and; split; [exact Hne|exact Hnew]|].
      intros c' [Hc'ne Hc']. cbn. rewrite existsb_app, Hc'. cbn.
      unfold has_order_line. cbn. rewrite orb_false_r.
      apply andb_false_intro2. by apply Nat.eqb_neq.
Qed.

Lemma committed_CartObjs order done s c :
  c ∈ CartObjs (committed order done s)
  ↔ c ∈ CartObjs s ∧ cart_obj_id c ∉ map cart_obj_id done.
Proof.
  cbn. rewrite list_elem_of_In, filter_In, <- list_elem_of_In.
  apply and_iff_compat_l. rewrite negb_true_iff, <- not_true_iff_false, existsb_exists.
  split.
  - intros Hno (y & Heq & Hy)%list_elem_of_fmap. apply Hno. exists y.
    split; [by apply list_elem_of_In|]. by apply Nat.eqb_eq.
  - intros Hno (y & Hy & Heq). apply Hno. apply Nat.eqb_eq in Heq. rewrite Heq.
    apply list_elem_of_fmap. exists y. split; [done|]. by apply list_elem_of_In.
Qed.

Lemma first_exceeding s (l : list CartObj) :
  Forall (λ c, is_Some (Products s !! cart_obj_product_id c)) l →
  Exists (exceeds_stock s) l →
  ∃ done bad rest, l = done ++ bad :: rest ∧ Forall (in_stock s) done ∧ exceeds_stock s bad.
Proof.
  induction l as [|c l IH]; intros Hfk Hex.
  - by apply Exists_nil in Hex.
  - apply Forall_cons in Hfk as [[p Hp] Hfk].
    destruct (decide (product_stock p < cart_obj_qty c)) as [Hlt|Hge].
    + exists [], c, l. repeat split; [done|]. by exists p.
    + assert (Exists (exceeds_stock s) l) as Hl.
      { apply Exists_cons in Hex as [(p' & Hp' & Hlt)|Hex]; [|done].
        rewrite Hp in Hp'. by injection Hp' as <-. }
      destruct (IH Hfk Hl) as (done & bad & rest & -> & Hdone & Hbad).
      exists (c :: done), bad, rest. repeat split; [|done].
      apply Forall_cons. split; [|done]. exists p. split; [done|lia].
Qed.

(** *** Consistent stores *)

Lemma fresh_pk_bound {A} (id : A → nat) (rows : list A) x :
  x ∈ rows → (id x < fresh_pk id rows)%nat.
Proof.
  unfold fresh_pk. induction rows as [|y rows IH]; intros Hx.
  - by apply elem_of_nil in Hx.
  - cbn. apply elem_of_cons in Hx as [->|Hx]; [lia|]. specialize (IH Hx). lia.
Qed.

Lemma fresh_pk_fresh {A} (id : A → nat) (rows : list A) :
  fresh_pk id rows ∉ map id rows.
Proof.
  intros (x & Heq & Hx)%list_elem_of_fmap.
  apply (fresh_pk_bound id) in Hx. lia.
Qed.

Lemma user_cart_elem user s c :
  c ∈ CartObj_objects_filter user s ↔ c ∈ CartObjs s ∧ cart_obj_user c = user.
Proof.
  unfold CartObj_objects_filter.
  by rewrite list_elem_of_In, filter_In, <- list_elem_of_In, Nat.eqb_eq.
Qed.

Lemma user_cart_NoDup_products user s :
  NoDup (map cart_key (CartObjs s)) →
  NoDup (map cart_obj_product_id (CartObj_objects_filter user s)).
Proof.
  unfold CartObj_objects_filter. induction (CartObjs s) as [|c l IH]; intros Hnd.
  - constructor.
  - cbn in Hnd. apply NoDup_cons in Hnd as [Hc Hnd]. cbn.
    destruct (cart_obj_user c =? user)%nat eqn:Hu; [|by apply IH].
    cbn. apply NoDup_cons. split; [|by apply IH].
    intros (y & Heq & Hy)%list_elem_of_fmap. apply Hc.
    apply list_elem_of_In, filter_In in Hy as [Hy Hyu].
    apply Nat.eqb_eq in Hu, Hyu. apply list_elem_of_fmap. exists y.
    split; [|by apply list_elem_of_In]. unfold cart_key. congruence.
Qed.

Lemma user_cart_NoDup_ids user s :
  NoDup (map cart_obj_id (CartObjs s)) →
  NoDup (map cart_obj_id (CartObj_objects_filter user s)).
Proof.
  unfold CartObj_objects_filter. induction (CartObjs s) as [|c l IH]; intros Hnd.
  - constructor.
  - cbn in Hnd. apply NoDup_cons in Hnd as [Hc Hnd]. cbn.
    destruct (cart_obj_user c =? user)%nat; [|by apply IH].
    cbn. apply NoDup_cons. split; [|by apply IH].
    intros (y & Heq & Hy)%list_elem_of_fmap. apply Hc.
    apply list_elem_of_In, filter_In in Hy as [Hy _].
    apply list_elem_of_fmap. exists y. split; [done|]. by apply list_elem_of_In.
Qed.

Lemma OrderCart_mutate_eq address_id user address s :
  Addresses s !! address_id = Some address →
  OrderCart_mutate address_id (mkInfo (Some user)) s
  = let order := new_order user address s in
    match for_each (CartObj_objects_filter user s) (order_cart_obj order)
                   (with_order order s) with
    | (s', inl e) => (s', inl e)
    | (s', inr _) => (with_mails user order s', inr order)
    end.
Proof.
  intros Ha. unfold OrderCart_mutate. unfold_M. cbn. rewrite Ha. cbn.
  fold (new_order user address s). fold (with_order (new_order user address s) s).
  by destruct (for_each _ _ _) as [s' [e|[]]].
Qed.

Lemma new_order_fresh user address s c :
  Forall (λ o, order_obj_order o ∈ map order_id (Orders s)) (OrderObjs s) →
  existsb (has_order_line (new_order user address s) (cart_obj_product_id c))
          (OrderObjs (with_order (new_order user address s) s)) = false.
Proof.
  intros Hfk. cbn. apply not_true_iff_false. intros (o & Ho & Hline)%existsb_exists.
  rewrite Forall_forall in Hfk. apply list_elem_of_In, Hfk in Ho.
  apply andb_true_iff in Hline as [Hline _]. apply Nat.eqb_eq in Hline.
  cbn in Hline. rewrite Hline in Ho. by apply fresh_pk_fresh in Ho.
Qed.

Lemma NoDup_map_elem_inj {A B} (f : A → B) (l : list A) x y :
  NoDup (map f l) → x ∈ l → y ∈ l → f x = f y → x = y.
Proof.
  induction l as [|z l IH]; intros Hnd Hx Hy Heq.
  - by apply elem_of_nil in Hx.
  - cbn in Hnd. apply NoDup_cons in Hnd as [Hz Hnd].
    apply elem_of_cons in Hx as [->|Hx]; apply elem_of_cons in Hy as [->|Hy].
    + done.
    + exfalso. apply Hz. rewrite Heq. apply list_elem_of_fmap. by exists y.
    + exfalso. apply Hz. rewrite <- Heq. apply list_elem_of_fmap. by exists x.
    + by apply IH.
Qed.

Lemma OrderCart_loop_stock_error user address s done bad rest :
  consistent s →
  CartObj_objects_filter user s = done ++ bad :: rest →
  Forall (in_stock s) done → exceeds_stock s bad →
  let order := new_order user address s in
  for_each (CartObj_objects_filter user s) (order_cart_obj order) (with_order order s)
  = (committed order done (with_order order s), inl (Exception "Stock Error")).
Proof.
  intros (Hpk & Hkey & Hfk & Hofk) Hsplit Hdone Hbad order.
  pose proof (user_cart_NoDup_products user s Hkey) as Hnd.
  rewrite Hsplit in Hnd. rewrite Hsplit. rewrite map_app in Hnd.
  apply NoDup_app in Hnd as (Hnd1 & Hdisj & Hnd2).
  rewrite for_each_order_cart_obj_app.
  - cbn [for_each]. unfold mbind, M_bind.
    rewrite order_cart_obj_stock_error; [done|].
    apply exceeds_stock_committed; [|done].
    intros Hin. apply (Hdisj _ Hin). cbn. left.
  - done.
  - done.
  - apply Forall_forall. intros c _. by apply new_order_fresh.
Qed.

Lemma committed_partial_checkout user address s done bad rest :
  consistent s →
  CartObj_objects_filter user s = done ++ bad :: rest →
  let order := new_order user address s in
  partial_checkout s (committed order done (with_order order s)) user order done bad rest.
Proof.
  intros (Hpk & Hkey & Hfk & Hofk) Hsplit order.
  pose proof (user_cart_NoDup_products user s Hkey) as Hndp.
  pose proof (user_cart_NoDup_ids user s Hpk) as Hndi.
  rewrite Hsplit, map_app in Hndp, Hndi.
  apply NoDup_app in Hndp as (Hndp & Hdisjp & _).
  apply NoDup_app in Hndi as (_ & Hdisji & _).
  assert (∀ c, c ∈ done ++ bad :: rest → c ∈ CartObjs s) as Hsub.
  { intros c Hc. rewrite <- Hsplit in Hc. by apply user_cart_elem in Hc as [? _]. }
  assert (∀ c, c ∈ CartObjs s → cart_obj_id c ∈ map cart_obj_id done ↔ c ∈ done) as Hid.
  { intros c Hc. split.
    - intros (y & Heq & Hy)%list_elem_of_fmap.
      assert (c = y) as ->; [|done].
      eapply NoDup_map_elem_inj; [exact Hpk|done| |done].
      apply Hsub, elem_of_app. by left.
    - intros Hd. apply list_elem_of_fmap. by exists c. }
  split.
  { intros c Hc. split.
    - intros [Hc' Hno]%committed_CartObjs. apply Hno. by apply Hid.
    - by apply sub_stocks_done. }
  split.
  { intros c Hc. split.
    - apply committed_CartObjs. cbn [with_order set_Orders CartObjs]. split.
      + apply Hsub, elem_of_app. by right.
      + intros Hin. apply (Hdisji _ Hin). apply list_elem_of_fmap. by exists c.
    - cbn. apply sub_stocks_other. intros Hin. apply (Hdisjp _ Hin).
      apply list_elem_of_fmap. by exists c. }
  split.
  { intros c. rewrite committed_CartObjs. cbn [with_order set_Orders CartObjs].
    split; intros [Hc Hno]; (split; [done|]); intros Hin; apply Hno; by apply Hid. }
  split.
  { intros k Hk. cbn. by apply sub_stocks_other. }
  done.
Qed.

Lemma OrderCart_mutate_exceeds address_id user address s :
  consistent s →
  Addresses s !! address_id = Some address →
  Exists (exceeds_stock s) (CartObj_objects_filter user s) →
  ∃ l1 bad l2,
    CartObj_objects_filter user s = l1 ++ bad :: l2
    ∧ Forall (in_stock s) l1
    ∧ exceeds_stock s bad
    ∧ OrderCart_mutate address_id (mkInfo (Some user)) s
      = (committed (new_order user address s) l1 (with_order (new_order user address s) s),
         inl (Exception "Stock Error")).
Proof.
  intros Hs Ha Hex.
  destruct (first_exceeding s (CartObj_objects_filter user s))
    as (l1 & bad & l2 & Hsplit & Hl1 & Hbad); [|done|].
  { destruct Hs as (_ & _ & Hfk & _). apply Forall_forall. intros c Hc.
    rewrite Forall_forall in Hfk. apply Hfk. by apply user_cart_elem in Hc as [? _]. }
  exists l1, bad, l2. split; [done|]. split; [done|]. split; [done|].
  rewrite (OrderCart_mutate_eq _ _ _ _ Ha). cbn zeta.
  by rewrite (OrderCart_loop_stock_error user address s l1 bad l2).
Qed.

(** C1, as the code has it: a checkout of a cart with a line beyond the
    stock raises the stock error at the first such line of the cart.  The
    lines before it are committed (their stock is taken and they leave the
    cart), that line and the lines after it stay in the cart with the
    stock of their products as it was, and the order row created at the
    start stays, with the order lines of the committed cart lines. *)
Theorem OrderCart_stock_error_partial :
  ∀ s user address_id address,
    consistent s →
    Addresses s !! address_id = Some address →
    Exists (exceeds_stock s) (CartObj_objects_filter user s) →
    ∃ done bad rest s',
      CartObj_objects_filter user s = done ++ bad :: rest
      ∧ Forall (in_stock s) done
      ∧ exceeds_stock s bad
      ∧ OrderCart_mutate address_id (mkInfo (Some user)) s
        = (s', inl (Exception "Stock Error"))
      ∧ partial_checkout s s' user (new_order user address s) done bad rest.
Proof.
  intros s user address_id address Hs Ha Hex.
  destruct (OrderCart_mutate_exceeds _ _ _ _ Hs Ha Hex)
    as (l1 & bad & l2 & Hsplit & Hl1 & Hbad & Heq).
  exists l1, bad, l2,
    (committed (new_order user address s) l1 (with_order (new_order user address s) s)).
  split; [done|]. split; [done|]. split; [done|]. split; [done|].
  by apply committed_partial_checkout.
Qed.

(** *** A small shop *)

Lemma shop_consistent : consistent shop.
Proof. apply (bool_decide_unpack _). by vm_compute. Qed.

Lemma shop_exceeds : Exists (exceeds_stock shop) (CartObj_objects_filter 7 shop).
Proof.
  apply Exists_cons_tl, Exists_cons_hd. exists vase. split; [|done]. by vm_compute.
Qed.

(** C1, counterexample: in [shop] the vases are beyond the stock, the
    checkout of user 7 raises the stock error, and yet the two lamps are
    taken from the stock and from the cart and an order with their line is
    stored. *)
Lemma OrderCart_not_all_or_nothing :
  consistent shop
  ∧ Exists (exceeds_stock shop) (CartObj_objects_filter 7 shop)
  ∧ (let r := OrderCart_mutate 1 (mkInfo (Some 7%nat)) shop in
     r.2 = inl (Exception "Stock Error")
     ∧ product_stock <$> Products shop !! 1%nat = Some 5
     ∧ product_stock <$> Products r.1 !! 1%nat = Some 3
     ∧ CartObjs r.1 = [mkCartObj 2 7 2 3]
     ∧ Orders r.1 = [new_order 7 home shop]
     ∧ OrderObjs r.1 = [mkOrderObj 1 1 2 90])
  ∧ ¬ all_or_nothing shop 7 1.
Proof.
  split; [exact shop_consistent|]. split; [exact shop_exceeds|]. split.
  - by vm_compute.
  - intros (_ & _ & Hcart & _). vm_compute in Hcart. discriminate Hcart.
Qed.

Lemma OrderCart_stock_error_partial_witness :
  ∃ done bad rest s',
    CartObj_objects_filter 7 shop = done ++ bad :: rest
    ∧ Forall (in_stock shop) done
    ∧ exceeds_stock shop bad
    ∧ OrderCart_mutate 1 (mkInfo (Some 7%nat)) shop = (s', inl (Exception "Stock Error"))
    ∧ partial_checkout shop s' 7 (new_order 7 home shop) done bad rest.
Proof.
  apply (OrderCart_stock_error_partial shop 7 1 home).
  - apply (bool_decide_unpack _). by vm_compute.
  - by vm_compute.
  - apply Exists_cons_tl, Exists_cons_hd. exists vase. split; [|done]. by vm_compute.
Defined.

(** *** Invariants of a handler *)

Lemma preserves_ret {A} P (a : A) : preserves P (mret a).
Proof. by intros s Hs. Qed.

Lemma preserves_raise {A} P e : preserves P (raise e : M A).
Proof. by intros s Hs. Qed.

Lemma preserves_gets {A} P (f : State → A) : preserves P (gets f).
Proof. by intros s Hs. Qed.

Lemma preserves_modify P f : (∀ s, P s → P (f s)) → preserves P (modify f).
Proof. intros Hf s Hs. by apply Hf. Qed.

Lemma preserves_bind {A B} P (m : M A) (f : A → M B) :
  preserves P m → (∀ a, preserves P (f a)) → preserves P (m ≫= f).
Proof.
  intros Hm Hf s Hs. unfold mbind, M_bind. specialize (Hm s Hs).
  destruct (m s) as [s' [e|a]]; [done|]. by apply Hf.
Qed.

Lemma preserves_for_each {A} P (l : list A) body :
  (∀ x, preserves P (body x)) → preserves P (for_each l body).
Proof.
  intros Hbody. induction l as [|x l IH]; cbn [for_each].
  - apply preserves_ret.
  - apply preserves_bind; [apply Hbody|]. by intros _.
Qed.

Lemma preserves_login_required {A} P (f : ResolveInfo → nat → M A) info :
  (∀ user, preserves P (f info user)) → preserves P (login_required f info).
Proof.
  intros Hf. unfold login_required. destruct (context_user info); [apply Hf|].
  apply preserves_raise.
Qed.

Lemma preserves_try_except {A} P model (body handler : M A) :
  preserves P body → preserves P handler →
  preserves P (try_except_DoesNotExist model body handler).
Proof.
  intros Hb Hh s Hs. unfold try_except_DoesNotExist. specialize (Hb s Hs).
  destruct (body s) as [s' [[]|a]]; try done.
  destruct (String.eqb _ _); [by apply Hh|done].
Qed.

Lemma preserves_if {A} P (b : bool) (m1 m2 : M A) :
  preserves P m1 → preserves P m2 → preserves P (if b then m1 else m2).
Proof. by destruct b. Qed.

(** *** The stock is never negative *)

Lemma nonneg_stock_frame s s' : Products s' = Products s → nonneg_stock s → nonneg_stock s'.
Proof. unfold nonneg_stock. by intros ->. Qed.

Lemma take_stock_nonneg order product_id qty :
  preserves nonneg_stock
    (product ← Product_objects_get product_id;
     if product_stock product <? qty then raise (Exception "Stock Error")
     else
       let product := sub_stock product qty in
       Product_save product_id product ;;
       order_product_objects_add order product_id qty (order_price product)).
Proof.
  intros s Hs. unfold_M. destruct (Products s !! product_id) as [p|] eqn:Hp; [|done].
  destruct (product_stock p <? qty) eqn:Hlt; [done|]. apply Z.ltb_ge in Hlt. cbn.
  assert (nonneg_stock (set_Products (λ t, <[product_id := sub_stock p qty]> t) s)) as Hs'.
  { intros k p'. cbn. destruct (decide (product_id = k)) as [<-|Hne].
    - rewrite lookup_insert_eq. intros [= <-]. cbn. lia.
    - rewrite lookup_insert_ne by done. apply Hs. }
  by destruct (existsb _ _).
Qed.

Lemma order_cart_obj_nonneg order c : preserves nonneg_stock (order_cart_obj order c).
Proof.
  intros s Hs. unfold order_cart_obj.
  pose proof (take_stock_nonneg order (cart_obj_product_id c) (cart_obj_qty c) s Hs) as H.
  revert H. unfold_M. destruct (Products s !! _) as [p|]; [|done].
  destruct (_ <? _); [done|]. cbn. by destruct (existsb _ _).
Qed.

Lemma OrderProduct_nonneg product_obj address_id info :
  preserves nonneg_stock (OrderProduct_mutate product_obj address_id info).
Proof.
  intros s Hs. unfold OrderProduct_mutate, login_required.
  destruct (context_user info) as [user|]; [|done].
  unfold mbind at 1, M_bind at 1. unfold Address_objects_get at 1.
  destruct (Addresses s !! address_id) as [address|]; [|done].
  unfold mbind at 1, M_bind at 1. unfold Order_objects_create at 1.
  set (order := new_order user address s).
  assert (nonneg_stock (with_order order s)) as Hs' by done.
  pose proof (take_stock_nonneg order (product_id product_obj) (qty product_obj) _ Hs') as H.
  revert H. unfold_M. cbn. destruct (Products s !! _) as [p|]; [|done].
  destruct (_ <? _); [done|]. cbn. by destruct (existsb _ _).
Qed.

Lemma OrderCart_nonneg address_id info :
  preserves nonneg_stock (OrderCart_mutate address_id info).
Proof.
  apply preserves_login_required. intros user.
  apply preserves_bind. { intros s Hs. by_cases s. }
  intros address. apply preserves_bind. { by intros s Hs. }
  intros order. apply preserves_bind. { apply preserves_gets. }
  intros cart. apply preserves_bind.
  { apply preserves_for_each. intros c. apply order_cart_obj_nonneg. }
  intros _. apply preserves_bind. { by intros s Hs. }
  intros _. apply preserves_bind. { by intros s Hs. }
  intros _. apply preserves_ret.
Qed.

Lemma execute_Products_frame m info s :
  match m with order_cart _ | order_product _ _ => True
  | _ => Products (execute m info s) = Products s end.
Proof.
  destruct m; try done; cbn [execute]; by_cases s.
Qed.

Lemma step_nonneg e s : nonneg_stock s → nonneg_stock (step s e).
Proof.
  intros Hs. destruct e as [info m|k price discount]; cbn [step].
  - pose proof (execute_Products_frame m info s) as Hframe.
    destruct m; try (by eapply nonneg_stock_frame); cbn [execute].
    + by apply OrderCart_nonneg.
    + by apply OrderProduct_nonneg.
  - intros k' p. cbn. destruct (decide (k = k')) as [<-|Hne].
    + rewrite lookup_alter_eq. destruct (Products s !! k) as [p0|] eqn:Hp0; [|done].
      cbn. intros [= <-]. cbn. by apply (Hs k).
    + rewrite lookup_alter_ne by done. apply Hs.
Qed.

Lemma run_nonneg es s : nonneg_stock s → nonneg_stock (run es s).
Proof.
  revert s. induction es as [|e es IH]; intros s Hs; [done|].
  cbn. apply IH. by apply step_nonneg.
Qed.

(** *** Consistency is kept *)

Lemma consistent_frame s s' :
  CartObjs s' = CartObjs s → Products s' = Products s →
  Orders s' = Orders s → OrderObjs s' = OrderObjs s →
  consistent s → consistent s'.
Proof. unfold consistent. by intros -> -> -> ->. Qed.

Lemma NoDup_map_filter {A B} (f : A → B) (g : A → bool) (l : list A) :
  NoDup (map f l) → NoDup (map f (List.filter g l)).
Proof.
  induction l as [|x l IH]; [done|]. cbn. intros [Hx Hl]%NoDup_cons.
  destruct (g x); [|by apply IH]. cbn. apply NoDup_cons. split; [|by apply IH].
  intros (y & Heq & Hy)%list_elem_of_fmap. apply Hx. apply list_elem_of_fmap.
  exists y. split; [done|]. by apply list_elem_of_In, filter_In in Hy as [?%list_elem_of_In _].
Qed.

Lemma Forall_filter_bool {A} (P : A → Prop) (g : A → bool) (l : list A) :
  Forall P l → Forall P (List.filter g l).
Proof.
  rewrite !Forall_forall. intros H x Hx. apply H.
  by apply list_elem_of_In, filter_In in Hx as [?%list_elem_of_In _].
Qed.

Lemma Forall_mono_Orders (t : list Order) (l : list OrderObj) order :
  Forall (λ o, order_obj_order o ∈ map order_id t) l →
  Forall (λ o, order_obj_order o ∈ map order_id (t ++ [order])) l.
Proof.
  intros H. eapply Forall_impl; [exact H|]. intros o Ho. cbn in *.
  rewrite map_app. apply elem_of_app. by left.
Qed.

Lemma take_stock_consistent order product_id qty :
  preserves (consistent_with order)
    (product ← Product_objects_get product_id;
     if product_stock product <? qty then raise (Exception "Stock Error")
     else
       let product := sub_stock product qty in
       Product_save product_id product ;;
       order_product_objects_add order product_id qty (order_price product)).
Proof.
  intros s [(Hpk & Hkey & Hfk & Hofk) Ho]. unfold_M.
  destruct (Products s !! product_id) as [p|] eqn:Hp; [|done].
  destruct (product_stock p <? qty); [done|]. cbn.
  assert (Forall (λ c, is_Some (<[product_id := sub_stock p qty]> (Products s)
                                !! cart_obj_product_id c)) (CartObjs s)) as Hfk'.
  { eapply Forall_impl; [exact Hfk|]. intros c Hc. cbn in *.
    destruct (decide (product_id = cart_obj_product_id c)) as [<-|Hne].
    - by rewrite lookup_insert_eq.
    - by rewrite lookup_insert_ne. }
  destruct (existsb _ _); cbn; (split; [repeat split|]); try done.
  cbn. apply Forall_app. split; [done|]. by apply Forall_singleton.
Qed.

Lemma CartObj_delete_consistent order c : preserves (consistent_with order) (CartObj_delete c).
Proof.
  intros s [(Hpk & Hkey & Hfk & Hofk) Ho]. unfold_M. cbn. split; [|done].
  repeat split; cbn; try done.
  - by apply NoDup_map_filter.
  - by apply NoDup_map_filter.
  - by apply Forall_filter_bool.
Qed.

Lemma order_cart_obj_consistent order c : preserves (consistent_with order) (order_cart_obj order c).
Proof.
  intros s Hs. unfold order_cart_obj.
  pose proof (take_stock_consistent order (cart_obj_product_id c) (cart_obj_qty c) s Hs) as H.
  revert H. unfold mbind, M_bind, Product_objects_get.
  destruct (Products s !! _) as [p|]; [|done].
  destruct (_ <? _); [done|]. cbn zeta.
  destruct (Product_save _ _ s) as [s1 [e|[]]]; [done|].
  destruct (order_product_objects_add _ _ _ _ s1) as [s2 [e|[]]]; [done|].
  apply CartObj_delete_consistent.
Qed.

Lemma with_order_consistent user address s :
  consistent s →
  consistent_with (new_order user address s) (with_order (new_order user address s) s).
Proof.
  intros (Hpk & Hkey & Hfk & Hofk). split.
  - repeat split; try done. cbn. by apply Forall_mono_Orders.
  - cbn. rewrite map_app. apply elem_of_app. right. cbn. left.
Qed.

Lemma OrderCart_consistent address_id info :
  preserves consistent (OrderCart_mutate address_id info).
Proof.
  intros s Hs. destruct info as [[user|]]; [|done].
  destruct (Addresses s !! address_id) as [address|] eqn:Ha.
  - rewrite (OrderCart_mutate_eq _ _ _ _ Ha). cbn zeta.
    pose proof (preserves_for_each (consistent_with (new_order user address s))
                  (CartObj_objects_filter user s) _
                  (order_cart_obj_consistent (new_order user address s)) _
                  (with_order_consistent user address s Hs)) as H.
    destruct (for_each _ _ _) as [s' [e|[]]]; cbn in *; [by destruct H|].
    eapply consistent_frame; [..|exact (proj1 H)]; done.
  - unfold OrderCart_mutate. unfold_M. cbn. by rewrite Ha.
Qed.

Lemma OrderProduct_consistent product_obj address_id info :
  preserves consistent (OrderProduct_mutate product_obj address_id info).
Proof.
  intros s Hs. unfold OrderProduct_mutate, login_required.
  destruct (context_user info) as [user|]; [|done].
  unfold mbind at 1, M_bind at 1. unfold Address_objects_get at 1.
  destruct (Addresses s !! address_id) as [address|]; [|done].
  unfold mbind at 1, M_bind at 1. unfold Order_objects_create at 1.
  fold (new_order user address s). fold (with_order (new_order user address s) s).
  pose proof (take_stock_consistent (new_order user address s) (product_id product_obj)
                (qty product_obj) _ (with_order_consistent user address s Hs)) as H.
  revert H. unfold mbind, M_bind, Product_objects_get.
  destruct (Products _ !! _) as [p|]; [|by intros []].
  destruct (_ <? _); [by intros []|]. cbn zeta.
  destruct (Product_save _ _ _) as [s1 [e|[]]]; [by intros []|].
  destruct (order_product_objects_add _ _ _ _ s1) as [s2 [e|[]]]; [by intros []|].
  cbn. intros [H _]. eapply consistent_frame; [..|exact H]; done.
Qed.

Lemma save_row_same_keys (l : list CartObj) c qty :
  NoDup (map cart_obj_id l) → c ∈ l →
  map cart_obj_id (map (save_row (set_qty c qty)) l) = map cart_obj_id l
  ∧ map cart_key (map (save_row (set_qty c qty)) l) = map cart_key l.
Proof.
  intros Hnd Hc. rewrite !map_map. split; apply map_ext_in; intros r Hr%list_elem_of_In;
    unfold save_row; cbn; destruct (cart_obj_id r =? cart_obj_id c)%nat eqn:Heq; try done;
    apply Nat.eqb_eq in Heq.
  - done.
  - by rewrite (NoDup_map_elem_inj cart_obj_id l r c Hnd Hr Hc Heq).
Qed.

Lemma CartObj_save_consistent s c qty :
  consistent s → c ∈ CartObjs s →
  consistent (set_CartObjs (map (save_row (set_qty c qty))) s).
Proof.
  intros (Hpk & Hkey & Hfk & Hofk) Hc.
  destruct (save_row_same_keys (CartObjs s) c qty Hpk Hc) as [Hids Hkeys].
  repeat split; cbn; [by rewrite Hids|by rewrite Hkeys| |done].
  rewrite Forall_forall in Hfk. apply Forall_forall.
  intros x (r & -> & Hr)%list_elem_of_fmap. unfold save_row.
  destruct (_ =? _)%nat; cbn; by apply Hfk.
Qed.

Lemma filter_singleton_elem {A} (g : A → bool) (l : list A) c l' :
  List.filter g l = c :: l' → c ∈ l ∧ g c = true.
Proof.
  intros H. assert (In c (List.filter g l)) as Hin by (rewrite H; by left).
  apply filter_In in Hin as [Hin Hg]. split; [by apply list_elem_of_In|done].
Qed.

Lemma user_cart_add_consistent user product_id qty :
  preserves consistent (user_cart_add user product_id qty).
Proof.
  intros s (Hpk & Hkey & Hfk & Hofk). unfold user_cart_add.
  destruct (existsb _ _) eqn:Hex; [done|].
  destruct (Products s !! product_id) as [p|] eqn:Hp; [|done]. cbn.
  repeat split; cbn; [| | |done].
  - rewrite map_app. apply NoDup_app. split; [done|]. split; [|apply NoDup_singleton].
    intros k Hk [->|[]%elem_of_nil]%elem_of_cons. by apply fresh_pk_fresh in Hk.
  - rewrite map_app. apply NoDup_app. split; [done|]. split; [|apply NoDup_singleton].
    intros k (y & -> & Hy)%list_elem_of_fmap [Heq|[]%elem_of_nil]%elem_of_cons.
    apply not_true_iff_false in Hex. apply Hex, existsb_exists. exists y.
    split; [by apply list_elem_of_In|]. unfold cart_key in Heq. cbn in Heq.
    injection Heq as Hu Hpid. unfold cart_line_of. by rewrite Hu, Hpid, !Nat.eqb_refl.
  - apply Forall_app. split; [done|]. apply Forall_singleton. cbn. by rewrite Hp.
Qed.

Lemma SetCart_consistent cart_obj add info :
  preserves consistent (SetCart_mutate cart_obj add info).
Proof.
  apply preserves_login_required. intros user.
  apply preserves_bind; [|intros _; apply preserves_gets].
  apply preserves_try_except.
  - intros s Hs. unfold mbind, M_bind, CartObj_objects_get.
    destruct (List.filter _ _) as [|c [|c' l]] eqn:Hget; [done| |done].
    apply filter_singleton_elem in Hget as [Hc _].
    destruct (default false add); [by apply CartObj_save_consistent|].
    destruct (0 <? qty cart_obj); [by apply CartObj_save_consistent|].
    destruct Hs as (Hpk & Hkey & Hfk & Hofk). cbn.
    repeat split; cbn; [by apply NoDup_map_filter|by apply NoDup_map_filter| |done].
    by apply Forall_filter_bool.
  - apply preserves_if; [apply user_cart_add_consistent|apply preserves_ret].
Qed.

Lemma execute_consistent m info s : consistent s → consistent (execute m info s).
Proof.
  intros Hs. destruct m; cbn [execute];
    try (by (apply OrderCart_consistent || apply OrderProduct_consistent
             || apply SetCart_consistent));
    (eapply consistent_frame; [..|exact Hs]); by_cases s.
Qed.

Lemma step_consistent e s : consistent s → consistent (step s e).
Proof.
  intros Hs. destruct e as [info m|k price discount]; cbn [step].
  - by apply execute_consistent.
  - destruct Hs as (Hpk & Hkey & Hfk & Hofk). repeat split; try done. cbn.
    eapply Forall_impl; [exact Hfk|]. intros c [p Hp]. cbn in *.
    destruct (decide (k = cart_obj_product_id c)) as [->|Hne].
    + rewrite lookup_alter_eq, Hp. by eexists.
    + rewrite lookup_alter_ne by done. by eexists.
Qed.

Lemma run_consistent es s : consistent s → consistent (run es s).
Proof.
  revert s. induction es as [|e es IH]; intros s Hs; [done|].
  cbn. apply IH. by apply step_consistent.
Qed.

(** *** What an order does to the stock *)

Lemma OrderProduct_mutate_eq product_obj address_id user address p s :
  consistent s →
  Addresses s !! address_id = Some address →
  Products s !! product_id product_obj = Some p →
  OrderProduct_mutate product_obj address_id (mkInfo (Some user)) s
  = let order := new_order user address s in
    if product_stock p <? qty product_obj
    then (with_order order s, inl (Exception "Stock Error"))
    else (with_mails user order
            (with_order_line
               (mkOrderObj (order_id order) (product_id product_obj) (qty product_obj)
                           (order_price p))
               (set_Products (λ t, <[product_id product_obj := sub_stock p (qty product_obj)]> t)
                             (with_order order s))),
          inr order).
Proof.
  intros (_ & _ & _ & Hofk) Ha Hp. unfold OrderProduct_mutate. unfold_M. cbn.
  rewrite Ha. cbn. rewrite Hp. destruct (_ <? _); [done|]. cbn.
  pose proof (new_order_fresh user address s (mkCartObj 0 0 (product_id product_obj) 0) Hofk)
    as Hnew.
  change (existsb (has_order_line (new_order user address s) (product_id product_obj))
            (OrderObjs s) = false) in Hnew.
  by rewrite Hnew.
Qed.

Lemma OrderCart_mutate_in_stock address_id user address s :
  consistent s →
  Addresses s !! address_id = Some address →
  Forall (in_stock s) (CartObj_objects_filter user s) →
  OrderCart_mutate address_id (mkInfo (Some user)) s
  = let order := new_order user address s in
    (with_mails user order
       (committed order (CartObj_objects_filter user s) (with_order order s)),
     inr order).
Proof.
  intros (Hpk & Hkey & Hfk & Hofk) Ha Hin.
  rewrite (OrderCart_mutate_eq _ _ _ _ Ha). cbn zeta.
  rewrite <- (app_nil_r (CartObj_objects_filter user s)) at 1.
  rewrite for_each_order_cart_obj_app; [done| | |].
  - by apply user_cart_NoDup_products.
  - done.
  - apply Forall_forall. intros c _. by apply new_order_fresh.
Qed.

(** C2: in every state that a history of requests and catalogue edits
    reaches from a consistent store without negative stock, no stock is
    negative; an order of one product, or of the cart, that succeeds leaves
    the stock of each ordered product at what it was minus the ordered
    quantity, which is not negative; and an order of more than the stock
    is refused with the stock error. *)
Theorem stock_decrement_never_negative :
  ∀ s0 es,
    consistent s0 → nonneg_stock s0 →
    let s := run es s0 in
    nonneg_stock s
    ∧ (∀ user address_id address product_obj p,
         Addresses s !! address_id = Some address →
         Products s !! product_id product_obj = Some p →
         let r := OrderProduct_mutate product_obj address_id (mkInfo (Some user)) s in
         (qty product_obj ≤ product_stock p →
            (∃ order, r.2 = inr order)
            ∧ product_stock <$> Products r.1 !! product_id product_obj
              = Some (product_stock p - qty product_obj)
            ∧ 0 ≤ product_stock p - qty product_obj)
         ∧ (product_stock p < qty product_obj →
            r.2 = inl (Exception "Stock Error") ∧ Products r.1 = Products s))
    ∧ (∀ user address_id address,
         Addresses s !! address_id = Some address →
         let r := OrderCart_mutate address_id (mkInfo (Some user)) s in
         (Forall (in_stock s) (CartObj_objects_filter user s) →
            (∃ order, r.2 = inr order)
            ∧ ∀ c, c ∈ CartObj_objects_filter user s →
                ∃ p, Products s !! cart_obj_product_id c = Some p
                     ∧ product_stock <$> Products r.1 !! cart_obj_product_id c
                       = Some (product_stock p - cart_obj_qty c)
                     ∧ 0 ≤ product_stock p - cart_obj_qty c)
         ∧ (Exists (exceeds_stock s) (CartObj_objects_filter user s) →
            r.2 = inl (Exception "Stock Error") ∧ nonneg_stock r.1)).
Proof.
  intros s0 es Hc0 Hn0 s.
  assert (consistent s) as Hc by by apply run_consistent.
  assert (nonneg_stock s) as Hn by by apply run_nonneg.
  split; [done|]. split.
  - intros user address_id address product_obj p Ha Hp r. subst r.
    rewrite (OrderProduct_mutate_eq _ _ _ _ _ _ Hc Ha Hp). cbn zeta. split.
    + intros Hle. apply Z.ltb_ge in Hle as Hltb. rewrite Hltb. cbn.
      split; [by eexists|]. split; [|lia]. by rewrite lookup_insert_eq.
    + intros Hlt. apply Z.ltb_lt in Hlt as ->. done.
  - intros user address_id address Ha r. subst r. split.
    + intros Hin. rewrite (OrderCart_mutate_in_stock _ _ _ _ Hc Ha Hin). cbn zeta.
      split; [by eexists|]. intros c Hc'.
      rewrite Forall_forall in Hin. destruct (Hin c Hc') as (p & Hp & Hle).
      exists p. split; [done|]. split; [|lia]. cbn.
      rewrite sub_stocks_done; [by rewrite Hp| |done].
      apply user_cart_NoDup_products. by destruct Hc as (_ & ? & _).
    + intros Hex. split.
      * destruct (OrderCart_mutate_exceeds _ _ _ _ Hc Ha Hex)
          as (l1 & bad & l2 & _ & _ & _ & ->). done.
      * by apply OrderCart_nonneg.
Qed.

Lemma stock_decrement_never_negative_witness :
  consistent shop ∧ nonneg_stock shop
  ∧ let s := run [Call (mkInfo (Some 7%nat)) (set_cart (mkProductOrderInput 2 1) None)] shop in
    nonneg_stock s
    ∧ product_stock
        <$> Products (OrderProduct_mutate (mkProductOrderInput 1 2) 1
                        (mkInfo (Some 7%nat)) s).1 !! 1%nat
      = Some (5 - 2)
    ∧ (OrderProduct_mutate (mkProductOrderInput 1 6) 1 (mkInfo (Some 7%nat)) s).2
      = inl (Exception "Stock Error")
    ∧ ∃ order, (OrderCart_mutate 1 (mkInfo (Some 7%nat)) s).2 = inr order.
Proof.
  assert (consistent shop) as Hc by (apply (bool_decide_unpack _); by vm_compute).
  assert (nonneg_stock shop) as Hn by (apply (bool_decide_unpack _); by vm_compute).
  split; [exact Hc|]. split; [exact Hn|].
  destruct (stock_decrement_never_negative shop
              [Call (mkInfo (Some 7%nat)) (set_cart (mkProductOrderInput 2 1) None)] Hc Hn)
    as (H1 & H2 & H3).
  split; [exact H1|]. split; [|split].
  - refine (proj1 (proj2 (proj1 (H2 7%nat 1%nat home (mkProductOrderInput 1 2) lamp _ _) _))).
    + by vm_compute.
    + by vm_compute.
    + by vm_compute.
  - refine (proj1 (proj2 (H2 7%nat 1%nat home (mkProductOrderInput 1 6) lamp _ _) _)).
    + by vm_compute.
    + by vm_compute.
    + by vm_compute.
  - refine (proj1 (proj1 (H3 7%nat 1%nat home _) _)).
    + by vm_compute.
    + apply (bool_decide_unpack _). by vm_compute.
Defined.

(** *** Order lines are frozen *)

Lemma keeps_order_lines_frame l s s' :
  OrderObjs s' = OrderObjs s → keeps_order_lines l s → keeps_order_lines l s'.
Proof. unfold keeps_order_lines. by intros ->. Qed.

Lemma order_cart_obj_keeps l order c : preserves (keeps_order_lines l) (order_cart_obj order c).
Proof.
  intros s Hs. unfold order_cart_obj. unfold_M.
  destruct (Products s !! _) as [p|]; [|done]. destruct (_ <? _); [done|]. cbn.
  destruct (existsb _ _); cbn; [done|]. by apply prefix_app_r.
Qed.

Lemma OrderCart_keeps l address_id info :
  preserves (keeps_order_lines l) (OrderCart_mutate address_id info).
Proof.
  apply preserves_login_required. intros user.
  apply preserves_bind. { intros s Hs. by_cases s. }
  intros address. apply preserves_bind. { by intros s Hs. }
  intros order. apply preserves_bind. { apply preserves_gets. }
  intros cart. apply preserves_bind.
  { apply preserves_for_each. intros c. apply order_cart_obj_keeps. }
  intros _. apply preserves_bind. { by intros s Hs. }
  intros _. apply preserves_bind. { by intros s Hs. }
  intros _. apply preserves_ret.
Qed.

Lemma OrderProduct_keeps l product_obj address_id info :
  preserves (keeps_order_lines l) (OrderProduct_mutate product_obj address_id info).
Proof.
  intros s Hs. unfold OrderProduct_mutate. unfold_M.
  destruct (context_user info) as [user|]; [|done].
  destruct (Addresses s !! address_id) as [address|]; [|done]. cbn.
  destruct (Products s !! _) as [p|]; [|done]. destruct (_ <? _); [done|]. cbn.
  destruct (existsb _ _); cbn; [done|]. by apply prefix_app_r.
Qed.

Lemma execute_OrderObjs_frame m info s :
  match m with order_cart _ | order_product _ _ => True
  | _ => OrderObjs (execute m info s) = OrderObjs s end.
Proof.
  destruct m; try done; cbn [execute]; by_cases s.
Qed.

Lemma step_keeps l e s : keeps_order_lines l s → keeps_order_lines l (step s e).
Proof.
  intros Hs. destruct e as [info m|k price discount]; cbn [step]; [|done].
  pose proof (execute_OrderObjs_frame m info s) as Hframe.
  destruct m; try (by eapply keeps_order_lines_frame); cbn [execute].
  - by apply OrderCart_keeps.
  - by apply OrderProduct_keeps.
Qed.

Lemma run_keeps l es s : keeps_order_lines l s → keeps_order_lines l (run es s).
Proof.
  revert s. induction es as [|e es IH]; intros s Hs; [done|].
  cbn. apply IH. by apply step_keeps.
Qed.

(** [ceil(p - p*d/100)] is the least integer [k] with
    [p * (100 - d) ≤ 100 * k]. *)
Lemma ceil_discounted_bounds p d :
  100 * (ceil_discounted p d - 1) < p * (100 - d) ∧ p * (100 - d) ≤ 100 * ceil_discounted p d.
Proof.
  unfold ceil_discounted, Qceiling, Qfloor. cbn.
  Z.to_euclidean_division_equations. lia.
Qed.

(** **** Rounding *)

Lemma nearest_even_near n d :
  0 < d → - d ≤ 2 * (nearest_even n d * d - n) ≤ d.
Proof.
  intros Hd. unfold nearest_even.
  pose proof (Z_div_mod n d ltac:(lia)) as H.
  destruct (Z.div_eucl n d) as [q r]. destruct H as [-> Hr].
  destruct (Z.compare_spec (2 * r) d); [destruct (Z.even q)|..]; lia.
Qed.

Lemma nearest_even_exact k d : 0 < d → nearest_even (k * d) d = k.
Proof.
  intros Hd. pose proof (nearest_even_near (k * d) d Hd). nia.
Qed.

Lemma nearest_even_nonneg n d : 0 ≤ n → 0 < d → 0 ≤ nearest_even n d.
Proof.
  intros Hn Hd. pose proof (nearest_even_near n d Hd). nia.
Qed.

Lemma ulp_pow2 m j :
  0 ≤ j → m < 2 ^ (53 + j) → ∃ i, 0 ≤ i ≤ j ∧ ulp m = 2 ^ i.
Proof.
  intros Hj Hm. unfold ulp. exists (Z.max 0 (Z.log2 m - 52)). split; [|done].
  split; [lia|]. destruct (Z.le_gt_cases m 0) as [H0|H0].
  - rewrite Z.log2_nonpos by done. lia.
  - apply Z.log2_lt_pow2 in Hm; lia.
Qed.

(** A multiple of [2 ^ j] below [2 ^ (53 + j)] is a [float]: rounding
    leaves it as it is. *)
Lemma round_binary64_exact c j d :
  0 ≤ j → 0 < d → 0 ≤ c → c * 2 ^ j < 2 ^ (53 + j) →
  round_binary64 (d * (c * 2 ^ j)) d = c * 2 ^ j.
Proof.
  intros Hj Hd Hc Hlt. unfold round_binary64.
  assert (0 < 2 ^ j) as Hpos by (apply Z.pow_pos_nonneg; lia).
  rewrite (Z.abs_eq (d * _)) by nia.
  rewrite (Z.mul_comm d), Z.div_mul by lia.
  destruct (ulp_pow2 (c * 2 ^ j) j Hj Hlt) as (i & Hi & ->).
  assert (2 ^ j = 2 ^ (j - i) * 2 ^ i) as Hsplit.
  { rewrite <- Z.pow_add_r by lia. f_equal. lia. }
  assert (0 < 2 ^ i) as Hposi by (apply Z.pow_pos_nonneg; lia).
  replace (c * 2 ^ j * d) with ((c * 2 ^ (j - i)) * (d * 2 ^ i)) by (rewrite Hsplit; ring).
  rewrite nearest_even_exact by nia.
  destruct (Z.eq_dec c 0) as [->|Hne]; [done|].
  rewrite Z.sgn_pos by nia.
  rewrite Hsplit. ring.
Qed.

(** Rounding moves a number below [2 ^ (53 + j)] by half of [2 ^ j] at
    most. *)
Lemma round_binary64_near n d j :
  0 ≤ j → 0 < d → 0 ≤ n → n / d < 2 ^ (53 + j) →
  let r := round_binary64 n d in
  0 ≤ r ∧ - (d * 2 ^ j) ≤ 2 * (d * r - n) ≤ d * 2 ^ j.
Proof.
  intros Hj Hd Hn Hlt r. subst r. unfold round_binary64.
  rewrite (Z.abs_eq n) by done.
  destruct (ulp_pow2 (n / d) j Hj Hlt) as (i & Hi & ->).
  assert (0 < 2 ^ i) as Hposi by (apply Z.pow_pos_nonneg; lia).
  assert (2 ^ i ≤ 2 ^ j) as Hle by (apply Z.pow_le_mono_r; lia).
  destruct (Z.eq_dec n 0) as [->|Hne].
  { cbn. nia. }
  rewrite Z.sgn_pos by lia.
  pose proof (nearest_even_near n (d * 2 ^ i) ltac:(nia)) as Hnear.
  pose proof (nearest_even_nonneg n (d * 2 ^ i) Hn ltac:(nia)) as Hnn.
  set (t := nearest_even n (d * 2 ^ i)) in *. split; [nia|]. nia.
Qed.

Lemma math_ceil_between n y :
  n * float_scale < y ≤ (n + 1) * float_scale → math_ceil y = n + 1.
Proof.
  unfold math_ceil. assert (0 < float_scale) as H by done.
  set (Q := float_scale) in *. clearbody Q. intros Hy.
  assert (- y / Q = - (n + 1)) as ->; [|lia].
  symmetry. apply (Z.div_unique_pos _ _ _ ((n + 1) * Q - y)); lia.
Qed.

Lemma math_ceil_int n : math_ceil (n * float_scale) = n.
Proof.
  unfold math_ceil. assert (0 < float_scale) as H by done.
  set (Q := float_scale) in *. clearbody Q.
  rewrite <- Z.mul_opp_l, Z.div_mul by lia. lia.
Qed.

Lemma float_scale_eq : float_scale = 128 * 2 ^ 1067.
Proof. by vm_compute. Qed.

(** The price is the same after the stock is written. *)
Lemma order_price_sub_stock p q : order_price (sub_stock p q) = order_price p.
Proof. reflexivity. Qed.

(** For a price below [2 ^ 46] and a percentage, the two roundings never
    cross an integer: the price recorded is the exact ceiling. *)
Lemma order_price_exact p :
  0 ≤ product_price p < 2 ^ 46 → 0 ≤ product_discount p ≤ 100 →
  order_price p = ceil_discounted (product_price p) (product_discount p).
Proof.
  unfold order_price, float_sub, float_of_int, int_truediv.
  generalize (product_price p) (product_discount p). clear p. intros p d Hp Hd.
  pose proof (ceil_discounted_bounds p d) as Hc.
  set (c := ceil_discounted p d) in *. clearbody c.
  assert (0 < 2 ^ 1067) as HR by (by apply Z.pow_pos_nonneg).
  assert (2 ^ 46 * float_scale = 2 ^ (53 + 1067)) as H46 by (by vm_compute).
  assert (2 ^ 53 * float_scale = 2 ^ (53 + 1074)) as H53 by (by vm_compute).
  assert (2 ^ 46 < 2 ^ 53) as Hlt by done.
  assert (0 < float_scale) as HQ by done.
  (* [float(price)] is exact *)
  assert (round_binary64 (p * float_scale) 1 = p * float_scale) as ->.
  { replace (p * float_scale) with (1 * (p * 2 ^ 1074)) at 1 by (unfold float_scale; ring).
    rewrite round_binary64_exact; [done|lia..|]. fold float_scale. rewrite <- H53. nia. }
  set (w := p * (100 - d)) in *.
  assert (d * p = 100 * p - w) as -> by (subst w; ring).
  assert (0 ≤ w ≤ 100 * p) as Hw by (subst w; nia).
  clearbody w. clear d Hd.
  destruct (Z.eq_dec (w mod 100) 0) as [Hf|Hf].
  - (* the discounted price is an integer: nothing is rounded *)
    assert (w = 100 * c) as -> by (Z.to_euclidean_division_equations; lia).
    replace ((100 * p - 100 * c) * float_scale) with (100 * ((p - c) * 2 ^ 1074))
      by (unfold float_scale; ring).
    rewrite round_binary64_exact; [|lia..|].
    2:{ fold float_scale. rewrite <- H53. nia. }
    replace (p * float_scale - (p - c) * 2 ^ 1074) with (1 * (c * 2 ^ 1074))
      by (unfold float_scale; ring).
    rewrite round_binary64_exact; [|lia..|].
    2:{ fold float_scale. rewrite <- H53. nia. }
    apply math_ceil_int.
  - (* otherwise it is a hundredth away from an integer, and the two
       roundings move it by a 128th at most *)
    assert (100 * (c - 1) < w < 100 * c) as Hc'.
    { Z.to_euclidean_division_equations. lia. }
    pose proof float_scale_eq as HQR. set (R := 2 ^ 1067) in *. clearbody R.
    rewrite HQR in *.
    assert (w * R ≤ 100 * (p * R)) as HwR by nia.
    assert (p * R < 2 ^ 46 * R) as HpR by nia.
    assert (100 * (c * R) - 99 * R ≤ w * R ≤ 100 * (c * R) - R) as HcR by nia.
    destruct (round_binary64_near ((100 * p - w) * (128 * R)) 100 1067)
      as [HX0 HX]; [lia|lia| | |].
    { apply Z.mul_nonneg_nonneg; lia. }
    { apply Z.div_lt_upper_bound; [lia|]. rewrite <- H46. lia. }
    set (X := round_binary64 ((100 * p - w) * (128 * R)) 100) in *. clearbody X.
    destruct (round_binary64_near (p * (128 * R) - X) 1 1067) as [HY0 HY]; [lia|lia| | |].
    { lia. }
    { rewrite Z.div_1_r, <- H46. lia. }
    set (Y := round_binary64 (p * (128 * R) - X) 1) in *. clearbody Y.
    replace c with ((c - 1) + 1) by lia.
    apply math_ceil_between. rewrite HQR. lia.
Qed.

(** The rounding above and the binary64 operations of the Standard Library
    give the same price, on small and on large numbers. *)
Lemma order_price_binary64_agrees :
  agree_on [0; 1; 99; 100; 999; 12345; 2147483647; 2 ^ 46 - 1; 2 ^ 47 - 1;
            2 ^ 53 + 1; 2 ^ 62 + 12345; 2 ^ 63 - 1; -7; - 2 ^ 53 - 1]
           [0; 1; 10; 33; 37; 50; 100; 150; -5] = true.
Proof. vm_compute. reflexivity. Qed.

(** C4, counterexample: a product at [2 ^ 53 + 1] with ten percent off.
    The order line records 8106479329266893 where
    [ceil(p - p*d/100)] is 8106479329266894: [float(p)] is [2 ^ 53], the
    quotient is rounded to an eighth, and the difference to an integer.
    The same happens at [2 ^ 47 - 1] with 37 percent off. *)
Lemma order_price_is_rounded :
  let ring := mkProduct "Ring" "jewel" (2 ^ 53 + 1) 10 1 in
  let s := mkState {[ 1%nat := ring ]} {[ 1%nat := home ]} [] [] [] [] [] in
  let s1 := (OrderProduct_mutate (mkProductOrderInput 1 1) 1 (mkInfo (Some 7%nat)) s).1 in
  OrderObjs s1 = [mkOrderObj 1 1 1 8106479329266893]
  ∧ ceil_discounted (product_price ring) (product_discount ring) = 8106479329266894
  ∧ order_price (mkProduct "Chain" "jewel" (2 ^ 47 - 1) 37 1)
    ≠ ceil_discounted (2 ^ 47 - 1) 37.
Proof. by vm_compute. Qed.

(** C4, as the code has it: for a price [p] from 0 to below [2 ^ 46] and
    a discount [d] from 0 to 100, an order of one product, or of the cart,
    that succeeds appends, for each ordered product, an order line with the
    ordered quantity and the unit price [ceil(p - p*d/100)] of the
    product's price and discount at that moment (the code evaluates
    [math.ceil(price - (discount * price) / 100)] in binary64, which is
    this number there).  Whatever happens afterwards (requests, changes of
    the price or the discount of a product), these order lines, and those
    that were there before, stay as they are. *)
Theorem order_line_price_frozen :
  ∀ s user address_id address,
    consistent s →
    Addresses s !! address_id = Some address →
    let order := new_order user address s in
    (∀ product_obj p,
       Products s !! product_id product_obj = Some p →
       qty product_obj ≤ product_stock p →
       0 ≤ product_price p < 2 ^ 46 →
       0 ≤ product_discount p ≤ 100 →
       let s1 := (OrderProduct_mutate product_obj address_id (mkInfo (Some user)) s).1 in
       let line := mkOrderObj (order_id order) (product_id product_obj) (qty product_obj)
                     (ceil_discounted (product_price p) (product_discount p)) in
       OrderObjs s1 = OrderObjs s ++ [line]
       ∧ ∀ es, (OrderObjs s ++ [line]) `prefix_of` OrderObjs (run es s1))
    ∧ (Forall (in_stock s) (CartObj_objects_filter user s) →
       let s1 := (OrderCart_mutate address_id (mkInfo (Some user)) s).1 in
       let lines := map (order_line (Products s) order) (CartObj_objects_filter user s) in
       OrderObjs s1 = OrderObjs s ++ lines
       ∧ (∀ c, c ∈ CartObj_objects_filter user s →
            ∃ p, Products s !! cart_obj_product_id c = Some p
                 ∧ (0 ≤ product_price p < 2 ^ 46 →
                    0 ≤ product_discount p ≤ 100 →
                    order_line (Products s) order c
                    = mkOrderObj (order_id order) (cart_obj_product_id c) (cart_obj_qty c)
                        (ceil_discounted (product_price p) (product_discount p))))
       ∧ ∀ es, (OrderObjs s ++ lines) `prefix_of` OrderObjs (run es s1)).
Proof.
  intros s user address_id address Hc Ha order. split.
  - intros product_obj p Hp Hle Hprice Hdiscount s1 line. subst s1.
    rewrite (OrderProduct_mutate_eq _ _ _ _ _ _ Hc Ha Hp). cbn zeta.
    apply Z.ltb_ge in Hle as ->. cbn [fst].
    assert (OrderObjs s ++ [line]
            = OrderObjs (with_mails user order
                (with_order_line
                   (mkOrderObj (order_id order) (product_id product_obj) (qty product_obj)
                      (order_price p))
                   (set_Products
                      (λ t, <[product_id product_obj := sub_stock p (qty product_obj)]> t)
                      (with_order order s))))) as Heq.
    { subst line. by rewrite <- order_price_exact. }
    split; [done|]. intros es. rewrite Heq.
    apply (run_keeps _ es _). unfold keeps_order_lines. reflexivity.
  - intros Hin s1 lines. subst s1.
    rewrite (OrderCart_mutate_in_stock _ _ _ _ Hc Ha Hin). cbn zeta. cbn [fst].
    split; [done|]. split.
    + intros c Hc'. rewrite Forall_forall in Hin. destruct (Hin c Hc') as (p & Hp & _).
      exists p. split; [done|]. intros Hprice Hdiscount. unfold order_line. rewrite Hp.
      by rewrite <- order_price_exact.
    + intros es. apply (run_keeps _ es _). unfold keeps_order_lines. reflexivity.
Qed.

Lemma order_line_price_frozen_witness :
  consistent shop
  ∧ Addresses shop !! 1%nat = Some home
  ∧ Products shop !! 1%nat = Some lamp
  ∧ 2 ≤ product_stock lamp
  ∧ 0 ≤ product_price lamp < 2 ^ 46
  ∧ 0 ≤ product_discount lamp ≤ 100
  ∧ let s1 := (OrderProduct_mutate (mkProductOrderInput 1 2) 1 (mkInfo (Some 7%nat)) shop).1 in
    OrderObjs s1 = [mkOrderObj 1 1 2 (ceil_discounted 100 10)]
    ∧ ceil_discounted 100 10 = 90
    ∧ ∀ es, [mkOrderObj 1 1 2 (ceil_discounted 100 10)] `prefix_of` OrderObjs (run es s1).
Proof.
  assert (consistent shop) as Hc by (apply (bool_decide_unpack _); by vm_compute).
  assert (Addresses shop !! 1%nat = Some home) as Ha by by vm_compute.
  assert (Products shop !! 1%nat = Some lamp) as Hp by by vm_compute.
  assert (2 ≤ product_stock lamp) as Hq by by vm_compute.
  assert (0 ≤ product_price lamp < 2 ^ 46) as Hprice by (by vm_compute).
  assert (0 ≤ product_discount lamp ≤ 100) as Hdiscount by (by vm_compute).
  split; [exact Hc|]. split; [exact Ha|]. split; [exact Hp|]. split; [exact Hq|].
  split; [exact Hprice|]. split; [exact Hdiscount|].
  destruct (order_line_price_frozen shop 7%nat 1%nat home Hc Ha) as [Hone _].
  destruct (Hone (mkProductOrderInput 1 2) lamp Hp Hq Hprice Hdiscount) as (Hline & Hkeep).
  split; [exact Hline|]. split; [by vm_compute|exact Hkeep].
Defined.

(** *** The cart *)

Lemma cart_line_of_key u p r : cart_line_of u p r = true ↔ cart_key r = (u, p).
Proof.
  unfold cart_line_of, cart_key. rewrite andb_true_iff, !Nat.eqb_eq. split.
  - by intros [-> ->].
  - by intros [= -> ->].
Qed.

Lemma filter_key_unique u p (l : list CartObj) :
  NoDup (map cart_key l) →
  List.filter (cart_line_of u p) l = []
  ∨ ∃ c, List.filter (cart_line_of u p) l = [c].
Proof.
  induction l as [|r l IH]; [by left|]. cbn. intros [Hr Hl]%NoDup_cons.
  destruct (cart_line_of u p r) eqn:Hg; [|by apply IH].
  right. exists r. f_equal.
  destruct (List.filter (cart_line_of u p) l) as [|y l'] eqn:Hf; [done|].
  exfalso. apply Hr. apply filter_singleton_elem in Hf as [Hy Hgy].
  apply cart_line_of_key in Hg, Hgy. rewrite Hg, <- Hgy.
  apply list_elem_of_fmap. by exists y.
Qed.

Lemma filter_map_commute {A} (g : A → bool) (f : A → A) (l : list A) :
  (∀ r, r ∈ l → g (f r) = g r) →
  List.filter g (map f l) = map f (List.filter g l).
Proof.
  induction l as [|r l IH]; [done|]. intros H. cbn.
  rewrite (H r) by left. rewrite IH by (intros; apply H; by right).
  by destruct (g r).
Qed.

Lemma save_row_line_of (l : list CartObj) c q u p r :
  NoDup (map cart_obj_id l) → c ∈ l → r ∈ l →
  cart_line_of u p (save_row (set_qty c q) r) = cart_line_of u p r.
Proof.
  intros Hnd Hc Hr. unfold save_row. cbn.
  destruct (cart_obj_id r =? cart_obj_id c)%nat eqn:Heq; [|done].
  apply Nat.eqb_eq in Heq. by rewrite (NoDup_map_elem_inj cart_obj_id l r c Hnd Hr Hc Heq).
Qed.

Lemma cart_qty_save s c q u p :
  consistent s → c ∈ CartObjs s →
  cart_qty u p (set_CartObjs (map (save_row (set_qty c q))) s)
  = if cart_line_of u p c then Some q else cart_qty u p s.
Proof.
  intros (Hpk & Hkey & _) Hc. unfold cart_qty. cbn.
  rewrite filter_map_commute by (intros; by eapply save_row_line_of).
  destruct (cart_line_of u p c) eqn:Hg.
  - destruct (filter_key_unique u p (CartObjs s) Hkey) as [Hnil|[c' Hone]].
    + exfalso. assert (In c (List.filter (cart_line_of u p) (CartObjs s))) as Hin.
      { apply filter_In. split; [by apply list_elem_of_In|done]. }
      by rewrite Hnil in Hin.
    + rewrite Hone. apply filter_singleton_elem in Hone as Hc'. destruct Hc' as [Hc' Hg'].
      apply cart_line_of_key in Hg, Hg'.
      assert (c' = c) as ->.
      { eapply (NoDup_map_elem_inj cart_key); [exact Hkey|done|done|congruence]. }
      cbn. unfold save_row. rewrite Nat.eqb_refl. reflexivity.
  - f_equal. f_equal. rewrite <- (map_id (List.filter _ (CartObjs s))) at 2.
    apply map_ext_in. intros r [Hr Hgr]%filter_In. unfold save_row. cbn.
    destruct (cart_obj_id r =? cart_obj_id c)%nat eqn:Heq; [|done].
    apply Nat.eqb_eq in Heq. apply list_elem_of_In in Hr.
    rewrite (NoDup_map_elem_inj cart_obj_id _ r c Hpk Hr Hc Heq) in Hgr. congruence.
Qed.

Lemma cart_qty_remove s u p u' p' :
  cart_qty u' p' (set_CartObjs (List.filter (λ r, negb (cart_line_of u p r))) s)
  = if decide ((u', p') = (u, p)) then None else cart_qty u' p' s.
Proof.
  unfold cart_qty. cbn. induction (CartObjs s) as [|r l IH].
  - cbn. by case_decide.
  - cbn. destruct (cart_line_of u p r) eqn:Hg; cbn.
    + destruct (cart_line_of u' p' r) eqn:Hg'; [|done].
      apply cart_line_of_key in Hg, Hg'. rewrite decide_True by congruence.
      rewrite IH. rewrite decide_True by congruence. done.
    + destruct (cart_line_of u' p' r) eqn:Hg'; [|done]. cbn.
      rewrite decide_False; [done|]. intros [= -> ->]. congruence.
Qed.

Lemma cart_qty_append s (f : list CartObj → CartObj) u p :
  cart_qty u p (set_CartObjs (λ t, t ++ [f t]) s)
  = match cart_qty u p s with
    | Some q => Some q
    | None =>
        if cart_line_of u p (f (CartObjs s)) then Some (cart_obj_qty (f (CartObjs s)))
        else None
    end.
Proof.
  unfold cart_qty. cbn. rewrite List.filter_app. cbn.
  destruct (List.filter (cart_line_of u p) (CartObjs s)); cbn; [|done].
  by destruct (cart_line_of u p _).
Qed.

Lemma SetCart_mutate_eq cart_obj add user s :
  SetCart_mutate cart_obj add (mkInfo (Some user)) s
  = match List.filter (cart_line_of user (product_id cart_obj)) (CartObjs s) with
    | [] =>
        if 0 <? qty cart_obj
        then match user_cart_add user (product_id cart_obj) (qty cart_obj) s with
             | (s', inl e) => (s', inl e)
             | (s', inr _) => (s', inr (CartObj_objects_filter user s'))
             end
        else (s, inr (CartObj_objects_filter user s))
    | [c] =>
        let s' :=
          if default false add
          then set_CartObjs
                 (map (save_row (set_qty c (cart_obj_qty c + qty cart_obj)))) s
          else if 0 <? qty cart_obj
               then set_CartObjs (map (save_row (set_qty c (qty cart_obj)))) s
               else set_CartObjs
                      (List.filter (λ r, negb (cart_line_of user (product_id cart_obj) r))) s in
        (s', inr (CartObj_objects_filter user s'))
    | _ => (s, inl (MultipleObjectsReturned "CartObj"))
    end.
Proof.
  unfold SetCart_mutate, login_required, try_except_DoesNotExist, CartObj_objects_get,
    CartObj_save, user_cart_remove. unfold_M. cbn.
  destruct (List.filter _ _) as [|c [|c' l]]; cbn.
  - destruct (0 <? qty cart_obj); [|done].
    by destruct (user_cart_add _ _ _ s) as [s' [e|[]]].
  - destruct (default false add); [done|]. by destruct (0 <? qty cart_obj).
  - done.
Qed.

Lemma SetCart_mutate_line :
  ∀ s user cart_obj add,
    consistent s →
    is_Some (Products s !! product_id cart_obj) →
    let r := SetCart_mutate cart_obj add (mkInfo (Some user)) s in
    r.2 = inr (CartObj_objects_filter user r.1)
    ∧ cart_qty user (product_id cart_obj) r.1
      = match cart_qty user (product_id cart_obj) s with
        | Some q0 =>
            if default false add then Some (q0 + qty cart_obj)
            else if 0 <? qty cart_obj then Some (qty cart_obj) else None
        | None => if 0 <? qty cart_obj then Some (qty cart_obj) else None
        end
    ∧ (cart_qty user (product_id cart_obj) s = None → qty cart_obj ≤ 0 → r.1 = s)
    ∧ (∀ u p, (u, p) ≠ (user, product_id cart_obj) → cart_qty u p r.1 = cart_qty u p s).
Proof.
  intros s user cart_obj add Hs [p0 Hp0] r. subst r. rewrite SetCart_mutate_eq.
  pose proof Hs as (Hpk & Hkey & _).
  assert (∀ u p, (u, p) ≠ (user, product_id cart_obj) →
                 ∀ c, cart_line_of user (product_id cart_obj) c = true →
                      cart_line_of u p c = false) as Hother.
  { intros u p Hne c Hc%cart_line_of_key. apply not_true_iff_false.
    intros Hc'%cart_line_of_key. congruence. }
  destruct (filter_key_unique user (product_id cart_obj) (CartObjs s) Hkey)
    as [Hnil|[c Hone]].
  - unfold cart_qty at 2 3. rewrite Hnil. cbn [head fmap option_fmap option_map].
    destruct (0 <? qty cart_obj) eqn:Hq.
    + unfold user_cart_add. rewrite Hp0.
      assert (existsb (cart_line_of user (product_id cart_obj)) (CartObjs s) = false) as ->.
      { apply not_true_iff_false. intros (y & Hy & Hg)%existsb_exists.
        assert (In y (List.filter (cart_line_of user (product_id cart_obj)) (CartObjs s)))
          as Hin by (by apply filter_In).
        by rewrite Hnil in Hin. }
      cbn [fst snd]. split; [done|]. split; [|split].
      * rewrite cart_qty_append. unfold cart_qty. rewrite Hnil. cbn.
        unfold cart_line_of. cbn. by rewrite !Nat.eqb_refl.
      * intros _ Hle. apply Z.ltb_lt in Hq. lia.
      * intros u p Hne. rewrite cart_qty_append.
        destruct (cart_qty u p s); [done|].
        rewrite (Hother u p Hne); [done|]. unfold cart_line_of. cbn. by rewrite !Nat.eqb_refl.
    + cbn [fst snd]. split; [done|]. split; [|by split].
      unfold cart_qty. by rewrite Hnil.
  - apply filter_singleton_elem in Hone as Hc. destruct Hc as [Hc Hg].
    unfold cart_qty at 2 3. rewrite Hone. cbn [head fmap option_fmap option_map].
    cbn zeta. cbn [fst snd]. split; [done|]. split; [|split].
    + destruct (default false add); [|destruct (0 <? qty cart_obj)].
      * rewrite cart_qty_save by done. by rewrite Hg.
      * rewrite cart_qty_save by done. by rewrite Hg.
      * rewrite cart_qty_remove. by rewrite decide_True.
    + done.
    + intros u p Hne.
      destruct (default false add); [|destruct (0 <? qty cart_obj)].
      * rewrite cart_qty_save by done. by rewrite (Hother u p Hne c Hg).
      * rewrite cart_qty_save by done. by rewrite (Hother u p Hne c Hg).
      * rewrite cart_qty_remove. by rewrite decide_False.
Qed.

Lemma filter_sublist {A} (f : A → bool) (l : list A) : List.filter f l `sublist_of` l.
Proof.
  induction l as [|x l IH]; cbn; [done|].
  destruct (f x); by constructor.
Qed.

(** C5: for an authenticated user and a product of the catalogue,
    [SetCart.mutate] returns the cart of the user as it is after the call:
    the rows of the cart table, as the call leaves it, that belong to the
    user, all of them and in the order of the table.  Where the user has a
    line for the product, [add] leaves it with the sum of its quantity and
    [qty]; without [add], a positive [qty] becomes its quantity and any
    other [qty] deletes it.  Where the user has no line, one is created
    with quantity [qty] if [qty] is positive, and nothing changes
    otherwise.  The other cart lines keep their quantity. *)
Theorem SetCart_sets_the_line :
  ∀ s user cart_obj add,
    consistent s →
    is_Some (Products s !! product_id cart_obj) →
    let r := SetCart_mutate cart_obj add (mkInfo (Some user)) s in
    (∃ cart,
       r.2 = inr cart
       ∧ (∀ c, c ∈ cart ↔ c ∈ CartObjs r.1 ∧ cart_obj_user c = user)
       ∧ cart `sublist_of` CartObjs r.1
       ∧ NoDup cart)
    ∧ cart_qty user (product_id cart_obj) r.1
      = match cart_qty user (product_id cart_obj) s with
        | Some q0 =>
            if default false add then Some (q0 + qty cart_obj)
            else if 0 <? qty cart_obj then Some (qty cart_obj) else None
        | None => if 0 <? qty cart_obj then Some (qty cart_obj) else None
        end
    ∧ (cart_qty user (product_id cart_obj) s = None → qty cart_obj ≤ 0 → r.1 = s)
    ∧ (∀ u p, (u, p) ≠ (user, product_id cart_obj) → cart_qty u p r.1 = cart_qty u p s).
Proof.
  intros s user cart_obj add Hs Hp r.
  destruct (SetCart_mutate_line s user cart_obj add Hs Hp) as (Hret & Hrest).
  fold r in Hret, Hrest. split; [|exact Hrest].
  exists (CartObj_objects_filter user r.1). split; [exact Hret|].
  split; [intros c; apply user_cart_elem|].
  split; [apply filter_sublist|].
  refine (sublist_NoDup _ _ _ (filter_sublist _ _)).
  apply (NoDup_fmap_1 cart_obj_id).
  assert (consistent r.1) as (Hpk & _); [|exact Hpk].
  apply (SetCart_consistent cart_obj add (mkInfo (Some user)) s Hs).
Qed.

Lemma SetCart_sets_the_line_witness :
  consistent shop
  ∧ is_Some (Products shop !! 1%nat)
  ∧ let r := SetCart_mutate (mkProductOrderInput 1 3) (Some true) (mkInfo (Some 7%nat)) shop in
    (∃ cart,
       r.2 = inr cart
       ∧ (∀ c, c ∈ cart ↔ c ∈ CartObjs r.1 ∧ cart_obj_user c = 7%nat)
       ∧ cart `sublist_of` CartObjs r.1
       ∧ NoDup cart)
    ∧ cart_qty 7 1 r.1 = Some (2 + 3)
    ∧ r.2 = inr [mkCartObj 1 7 1 5; mkCartObj 2 7 2 3].
Proof.
  assert (consistent shop) as Hc by (apply (bool_decide_unpack _); by vm_compute).
  assert (is_Some (Products shop !! 1%nat)) as Hp by (by exists lamp).
  split; [exact Hc|]. split; [exact Hp|].
  destruct (SetCart_sets_the_line shop 7%nat (mkProductOrderInput 1 3) (Some true) Hc Hp)
    as (Hret & Hqty & _).
  split; [exact Hret|]. split; [exact Hqty|]. by vm_compute.
Defined.

(** C9, the failing input: user 7 has two lamps in the cart and sends
    [qty = -2] with [add]: the line stays, with quantity 0 (the same
    request without [add] deletes the line). *)
Theorem SetCart_add_keeps_line_at_zero :
  let decrement := mkProductOrderInput 1 (-2) in
  let r := SetCart_mutate decrement (Some true) (mkInfo (Some 7%nat)) shop in
  cart_qty 7 1 shop = Some 2
  ∧ r.2 = inr [mkCartObj 1 7 1 0; mkCartObj 2 7 2 3]
  ∧ CartObjs r.1 = [mkCartObj 1 7 1 0; mkCartObj 2 7 2 3]
  ∧ cart_qty 7 1 r.1 = Some 0
  ∧ cart_qty 7 1 (SetCart_mutate decrement (Some false) (mkInfo (Some 7%nat)) shop).1 = None.
Proof. by vm_compute. Qed.

(** *** The stock error *)

(** C7, counterexample: in [shop], six lamps and two vases are both
    beyond the stock, and the two orders raise the same exception. *)
Lemma stock_error_same_for_all_products :
  (OrderProduct_mutate (mkProductOrderInput 1 6) 1 (mkInfo (Some 7%nat)) shop).2
  = inl (Exception "Stock Error")
  ∧ (OrderProduct_mutate (mkProductOrderInput 2 2) 1 (mkInfo (Some 7%nat)) shop).2
    = inl (Exception "Stock Error")
  ∧ ¬ stock_error_identifies_product.
Proof.
  split; [by vm_compute|]. split; [by vm_compute|].
  intros [offending H].
  assert (offending (Exception "Stock Error") = 1%nat) as H1.
  { by apply (H shop 7%nat 1%nat home (mkProductOrderInput 1 6) lamp). }
  assert (offending (Exception "Stock Error") = 2%nat) as H2.
  { by apply (H shop 7%nat 1%nat home (mkProductOrderInput 2 2) vase). }
  congruence.
Qed.

(** C7, as the code has it: an order of one product, or of the cart,
    that fails because a quantity is beyond the stock raises the exception
    with the message ["Stock Error"], whatever the product. *)
Theorem stock_error_message :
  ∀ s user address_id address,
    consistent s →
    Addresses s !! address_id = Some address →
    (∀ product_obj p,
       Products s !! product_id product_obj = Some p →
       product_stock p < qty product_obj →
       (OrderProduct_mutate product_obj address_id (mkInfo (Some user)) s).2
       = inl (Exception "Stock Error"))
    ∧ (Exists (exceeds_stock s) (CartObj_objects_filter user s) →
       (OrderCart_mutate address_id (mkInfo (Some user)) s).2
       = inl (Exception "Stock Error")).
Proof.
  intros s user address_id address Hs Ha. split.
  - intros product_obj p Hp Hlt.
    rewrite (OrderProduct_mutate_eq _ _ _ _ _ _ Hs Ha Hp). cbn zeta.
    by apply Z.ltb_lt in Hlt as ->.
  - intros Hex.
    by destruct (OrderCart_mutate_exceeds _ _ _ _ Hs Ha Hex) as (l1 & bad & l2 & _ & _ & _ & ->).
Qed.

Lemma stock_error_message_witness :
  consistent shop
  ∧ Addresses shop !! 1%nat = Some home
  ∧ (OrderProduct_mutate (mkProductOrderInput 2 2) 1 (mkInfo (Some 7%nat)) shop).2
    = inl (Exception "Stock Error")
  ∧ (OrderCart_mutate 1 (mkInfo (Some 7%nat)) shop).2 = inl (Exception "Stock Error").
Proof.
  assert (consistent shop) as Hc by (apply (bool_decide_unpack _); by vm_compute).
  assert (Addresses shop !! 1%nat = Some home) as Ha by by vm_compute.
  split; [exact Hc|]. split; [exact Ha|].
  destruct (stock_error_message shop 7%nat 1%nat home Hc Ha) as [Hone Hcart].
  split.
  - refine (Hone (mkProductOrderInput 2 2) vase _ _); by vm_compute.
  - apply Hcart. apply (bool_decide_unpack _). by vm_compute.
Defined.

(** *** Listing the catalogue *)

Lemma prefix_empty s : String.prefix "" s = true.
Proof. by destruct s. Qed.

Lemma contains_empty s : contains "" s = true.
Proof. destruct s; cbn; by rewrite ?prefix_empty. Qed.

Lemma filter_true {A} (g : A → bool) (l : list A) :
  (∀ x, g x = true) → List.filter g l = l.
Proof. intros H. induction l as [|x l IH]; cbn; [done|]. by rewrite H, IH. Qed.

Lemma slices_listProducts {A} first skip (qs : list A) :
  first ≠ Some 0 →
  from_option (λ n, 0 ≤ n) True first → from_option (λ n, 0 ≤ n) True skip →
  match match truthy_int skip with
        | Some skip => slice_from skip qs
        | None => inr qs
        end with
  | inl e => inl e
  | inr qs =>
      match truthy_int first with
      | Some first => slice_to first qs
      | None => inr qs
      end
  end
  = inr (let qs := match skip with
                   | Some skip => drop (Z.to_nat skip) qs
                   | None => qs
                   end in
         match first with
         | Some first => take (Z.to_nat first) qs
         | None => qs
         end).
Proof.
  intros Hfirst Hf Hs.
  destruct skip as [[|n|n]|]; cbn in Hs; try lia; cbn [truthy_int];
    unfold slice_from; cbn [Z.ltb Z.compare];
    (destruct first as [[|m|m]|]; cbn in Hf; try lia; try done).
Qed.

(** Where [first] is not 0 and [kind] is not the empty string, the
    resolver is the listing of the specification. *)
Lemma resolve_products_listProducts first skip search kind s :
  first ≠ Some 0 → kind ≠ Some ""%string →
  from_option (λ n, 0 ≤ n) True first → from_option (λ n, 0 ≤ n) True skip →
  resolve_products first skip search kind s
  = inr (listProducts first skip search kind (Product_objects_all s)).
Proof.
  intros Hfirst Hkind Hf Hs. unfold resolve_products, listProducts.
  assert (match truthy_str search with
          | Some search =>
              List.filter (λ p, icontains (product_name (snd p)) search) (Product_objects_all s)
          | None => Product_objects_all s
          end
          = match search with
            | Some search =>
                List.filter (λ p, icontains (product_name (snd p)) search)
                            (Product_objects_all s)
            | None => Product_objects_all s
            end) as ->.
  { destruct search as [x|]; [|done]. cbn. destruct (String.eqb_spec x ""); [|done].
    subst x. symmetry. apply filter_true. intros p. apply contains_empty. }
  assert (truthy_str kind = kind) as ->.
  { destruct kind as [k|]; [|done]. cbn. destruct (String.eqb_spec k ""); [|done].
    by subst k. }
  cbn zeta. by apply slices_listProducts.
Qed.

(** C6, the failing input: with [first = 0] the resolver takes the
    argument as absent and returns the whole catalogue, where the listing
    of the specification is empty. *)
Theorem resolve_products_first_zero :
  resolve_products (Some 0) None None None shop = inr (Product_objects_all shop)
  ∧ Product_objects_all shop = [(2%nat, vase); (1%nat, lamp)]
  ∧ listProducts (Some 0) None None None (Product_objects_all shop) = [].
Proof. by vm_compute. Qed.

(** *** One appointment a day *)

Lemma digit_inj a b : digit a = digit b → a mod 10 = b mod 10.
Proof.
  unfold digit. intros H. apply (f_equal N_of_ascii) in H.
  rewrite !N_ascii_embedding in H by (Z.to_euclidean_division_equations; lia).
  Z.to_euclidean_division_equations; lia.
Qed.

Lemma pad2_inj a b : 0 ≤ a < 100 → 0 ≤ b < 100 →
  digit (a / 10) = digit (b / 10) → digit a = digit b → a = b.
Proof.
  intros Ha Hb H1%digit_inj H2%digit_inj. Z.to_euclidean_division_equations. lia.
Qed.

Lemma pad4_inj a b : 0 ≤ a < 10000 → 0 ≤ b < 10000 →
  digit (a / 1000) = digit (b / 1000) → digit (a / 100) = digit (b / 100) →
  digit (a / 10) = digit (b / 10) → digit a = digit b → a = b.
Proof.
  intros Ha Hb H1%digit_inj H2%digit_inj H3%digit_inj H4%digit_inj.
  Z.to_euclidean_division_equations. lia.
Qed.

(** The text of a valid timestamp starts with the text of a date exactly
    when the timestamp falls on that date. *)
Lemma startswith_date t t' :
  valid_datetime t → valid_datetime t' →
  String.prefix (str_date (datetime_date t)) (str_datetime t') = true
  ↔ datetime_date t' = datetime_date t.
Proof.
  intros (Hy & Hm & Hd & _) (Hy' & Hm' & Hd' & _). split.
  - unfold str_date, str_datetime, str_date_then, pad4, pad2. cbn.
    repeat (destruct (ascii_dec _ _) as [?|?]; [|discriminate]). intros _.
    unfold datetime_date. f_equal.
    + symmetry. apply pad4_inj; (done || lia).
    + symmetry. apply pad2_inj; (done || lia).
    + symmetry. apply pad2_inj; (done || lia).
  - unfold str_date, str_datetime. intros ->.
    unfold str_date_then, pad4, pad2. cbn.
    repeat (destruct (ascii_dec _ _) as [?|?]; [|done]). done.
Qed.

Lemma filter_startswith_nil timestamp s :
  valid_datetime timestamp →
  Forall (λ a, valid_datetime (appointment_timestamp a)) (Appointments s) →
  Appointment_objects_filter_startswith (datetime_date timestamp) s = []
  ↔ datetime_date timestamp ∉ map appointment_date (Appointments s).
Proof.
  intros Ht Hvalid. unfold Appointment_objects_filter_startswith.
  induction Hvalid as [|a l Ha Hl IH]; cbn [List.filter map].
  - split; [intros _|done]. apply not_elem_of_nil.
  - rewrite not_elem_of_cons, <- IH.
    destruct (String.prefix (str_date (datetime_date timestamp))
                            (str_datetime (appointment_timestamp a))) eqn:Hp.
    + apply startswith_date in Hp; [|done..]. split; [done|]. intros [Hne _].
      by destruct Hne.
    + split; [|by intros [_ ?]]. intros Hnil. split; [|done]. intros Heq.
      apply not_true_iff_false in Hp. apply Hp, startswith_date; done.
Qed.

Lemma days_in_month_bounds y m : 28 ≤ days_in_month y m ≤ 31.
Proof.
  unfold days_in_month. destruct (m =? 2); [destruct (is_leap y); lia|].
  destruct ((m =? 4) || (m =? 6) || (m =? 9) || (m =? 11)); lia.
Qed.

Lemma tomorrow_valid d d' :
  1 ≤ d_year d ≤ 9999 → 1 ≤ d_month d ≤ 12 → 1 ≤ d_day d ≤ 31 →
  tomorrow d = Some d' →
  1 ≤ d_year d' ≤ 9999 ∧ 1 ≤ d_month d' ≤ 12 ∧ 1 ≤ d_day d' ≤ 31.
Proof.
  intros Hy Hm Hd. unfold tomorrow.
  pose proof (days_in_month_bounds (d_year d) (d_month d)).
  repeat case_match; intros [= <-]; cbn; lia.
Qed.

Lemma yesterday_valid d d' :
  1 ≤ d_year d ≤ 9999 → 1 ≤ d_month d ≤ 12 → 1 ≤ d_day d ≤ 31 →
  yesterday d = Some d' →
  1 ≤ d_year d' ≤ 9999 ∧ 1 ≤ d_month d' ≤ 12 ∧ 1 ≤ d_day d' ≤ 31.
Proof.
  intros Hy Hm Hd. unfold yesterday.
  pose proof (days_in_month_bounds (d_year d) (d_month d - 1)).
  repeat case_match; intros [= <-]; cbn; lia.
Qed.

(** The timestamp in UTC is a valid one. *)
Lemma astimezone_utc_valid (timestamp : DateTime) t :
  valid_DateTime timestamp → astimezone_utc timestamp = Some t → valid_datetime t.
Proof.
  intros [(Hy & Hm & Hd & Hh & Hmi & Hs) Hoff]. unfold astimezone_utc.
  set (minutes := hour timestamp * 60 + minute timestamp - utcoffset timestamp).
  intros Heq. apply bind_Some in Heq as (d & Hdate & [= <-]).
  assert (1 ≤ d_year d ≤ 9999 ∧ 1 ≤ d_month d ≤ 12 ∧ 1 ≤ d_day d ≤ 31) as (? & ? & ?).
  { repeat case_match.
    - by apply (yesterday_valid (datetime_date timestamp)).
    - by injection Hdate as <-.
    - by apply (tomorrow_valid (datetime_date timestamp)). }
  unfold valid_datetime. cbn. split_and!; try lia.
  - apply Z.div_pos; [|lia]. apply Z.mod_pos_bound. lia.
  - apply Z.div_lt_upper_bound; [lia|]. apply Z.mod_pos_bound. lia.
  - apply Z.mod_pos_bound. lia.
  - apply Z.mod_pos_bound. lia.
Qed.

(** A timestamp written in UTC is stored as it is. *)
Lemma astimezone_utc_utc t : valid_datetime t → astimezone_utc (utc t) = Some t.
Proof.
  intros (Hy & Hm & Hd & Hh & Hmi & Hs). unfold astimezone_utc, utc. cbn.
  rewrite Z.sub_0_r.
  assert ((hour t * 60 + minute t <? 0) = false) as -> by lia.
  assert ((hour t * 60 + minute t <? 1440) = true) as -> by lia.
  cbn. destruct t as [y m d h mi sec]. cbn in *. do 2 f_equal.
  - rewrite Z.mod_small by lia. Z.to_euclidean_division_equations. lia.
  - Z.to_euclidean_division_equations. lia.
Qed.

Lemma BookAppointment_mutate_eq (timestamp : DateTime) user s :
  valid_datetime timestamp →
  Forall (λ a, valid_datetime (appointment_timestamp a)) (Appointments s) →
  BookAppointment_mutate timestamp (mkInfo (Some user)) s
  = if decide (datetime_date timestamp ∈ map appointment_date (Appointments s))
    then (s, inl (Exception "No slot on that day!"))
    else match astimezone_utc timestamp with
         | Some t => (with_appointment user t s, inr (mkAppointment user t))
         | None => (s, inl OverflowError)
         end.
Proof.
  intros Ht Hvalid. pose proof (filter_startswith_nil timestamp s Ht Hvalid) as Hnil.
  unfold BookAppointment_mutate, Appointment_objects_create. unfold_M. cbn.
  destruct (Appointment_objects_filter_startswith _ s) as [|a l]; cbn.
  - rewrite decide_False; [|by apply Hnil]. by destruct (astimezone_utc timestamp).
  - rewrite decide_True; [done|]. apply dec_stable. intros Hno. by apply Hnil in Hno.
Qed.

(** A booking keeps the dates apart if its timestamp is stored under the
    date that the guard looked for. *)
Lemma BookAppointment_one_per_day (timestamp : DateTime) info s :
  valid_DateTime timestamp → same_date_in_utc timestamp → one_per_day s →
  one_per_day (BookAppointment_mutate timestamp info s).1.
Proof.
  intros Ht Hsame [Hvalid Hnd]. destruct info as [[user|]]; [|done].
  rewrite BookAppointment_mutate_eq; [|apply Ht|done]. case_decide; [done|].
  unfold same_date_in_utc in Hsame.
  destruct (astimezone_utc timestamp) as [t|] eqn:Hutc; [|done]. split; cbn.
  - apply Forall_app. split; [done|]. apply Forall_singleton. cbn.
    by apply (astimezone_utc_valid timestamp).
  - rewrite map_app. apply NoDup_app. split; [done|]. split; [|apply NoDup_singleton].
    intros d Hd [->|[]%elem_of_nil]%elem_of_cons. unfold appointment_date in *.
    cbn in *. congruence.
Qed.

Lemma order_cart_obj_Appointments l order c :
  preserves (λ s, Appointments s = l) (order_cart_obj order c).
Proof. intros s Hs. by_cases s. Qed.

Lemma OrderCart_Appointments l address_id info :
  preserves (λ s, Appointments s = l) (OrderCart_mutate address_id info).
Proof.
  apply preserves_login_required. intros user.
  apply preserves_bind. { intros s Hs. by_cases s. }
  intros address. apply preserves_bind. { by intros s Hs. }
  intros order. apply preserves_bind. { apply preserves_gets. }
  intros cart. apply preserves_bind.
  { apply preserves_for_each. intros c. apply order_cart_obj_Appointments. }
  intros _. apply preserves_bind. { by intros s Hs. }
  intros _. apply preserves_bind. { by intros s Hs. }
  intros _. apply preserves_ret.
Qed.

Lemma execute_Appointments_frame m info s :
  match m with book_appointment _ => True
  | _ => Appointments (execute m info s) = Appointments s end.
Proof.
  destruct m; try done; cbn [execute]; try by_cases s.
  by apply OrderCart_Appointments.
Qed.

Lemma step_one_per_day e s :
  valid_event e → books_on_utc_date e → one_per_day s → one_per_day (step s e).
Proof.
  intros He Hutc Hs. destruct e as [info m|k price discount]; cbn [step]; [|done].
  pose proof (execute_Appointments_frame m info s) as Hframe.
  destruct m; cbn [execute] in *; try (unfold one_per_day; by rewrite Hframe).
  by apply BookAppointment_one_per_day.
Qed.

Lemma run_one_per_day es s :
  Forall valid_event es → Forall books_on_utc_date es → one_per_day s →
  one_per_day (run es s).
Proof.
  revert s. induction es as [|e es IH]; intros s Hes Hutc Hs; [done|].
  apply Forall_cons in Hes as [He Hes]. apply Forall_cons in Hutc as [Hu Hutc].
  cbn. apply IH; [done..|]. by apply step_one_per_day.
Qed.

(** C3, the failing input: two bookings for the second of May 2024 in
    India, at two in the night and at ten in the morning.  The first passes
    the guard, which looks for stored timestamps whose text starts with
    [2024-05-02], and is stored in UTC, as [2024-05-01 20:30:00].  The
    second passes the same guard, for the text of the first row starts with
    [2024-05-01], and is stored too: two appointments fall on one date of
    their zone.  In [clinic], the first booking is stored on the first of
    May beside the appointment of ten o'clock of that day. *)
Theorem two_appointments_on_one_day :
  let empty := mkState ∅ ∅ [] [] [] [] [] in
  let r1 := BookAppointment_mutate may_2nd_at_2_in_India (mkInfo (Some 8%nat)) empty in
  let r2 := BookAppointment_mutate may_2nd_at_10_in_India (mkInfo (Some 9%nat)) r1.1 in
  let r := BookAppointment_mutate may_2nd_at_2_in_India (mkInfo (Some 8%nat)) clinic in
  (* one date and one zone *)
  datetime_date may_2nd_at_2_in_India = datetime_date may_2nd_at_10_in_India
  ∧ utcoffset may_2nd_at_2_in_India = utcoffset may_2nd_at_10_in_India
  (* both are booked *)
  ∧ r1.2 = inr (mkAppointment 8 (mkDatetime 2024 5 1 20 30 0))
  ∧ r2.2 = inr (mkAppointment 9 (mkDatetime 2024 5 2 4 30 0))
  ∧ Appointments r2.1 = [mkAppointment 8 (mkDatetime 2024 5 1 20 30 0);
                         mkAppointment 9 (mkDatetime 2024 5 2 4 30 0)]
  ∧ ¬ second_booking_refused may_2nd_at_2_in_India may_2nd_at_10_in_India empty
  (* and two rows are stored on one date *)
  ∧ one_per_day clinic
  ∧ Appointments r.1 = [mkAppointment 7 (mkDatetime 2024 5 1 10 0 0);
                        mkAppointment 8 (mkDatetime 2024 5 1 20 30 0)]
  ∧ ¬ one_per_day r.1.
Proof.
  split; [by vm_compute|]. split; [by vm_compute|]. split; [by vm_compute|].
  split; [by vm_compute|]. split; [by vm_compute|]. split.
  { intros H. specialize (H eq_refl eq_refl). by vm_compute in H. }
  split; [apply (bool_decide_unpack _); by vm_compute|]. split; [by vm_compute|].
  intros H. by apply (bool_decide_pack _) in H.
Qed.

(** X25: if every booking of a history has a timestamp that falls on the
    same date in UTC as in its own zone (one written in UTC, say), no two
    appointments are stored on one date, in every state that the history
    reaches from a store with at most one appointment a day.  There, any
    booking on the date of a stored appointment, of any user and at any
    time of the day, raises the slot error and changes nothing, and a
    booking on another date stores the timestamp in UTC. *)
Theorem one_appointment_per_utc_day :
  ∀ s0 es,
    one_per_day s0 → Forall valid_event es → Forall books_on_utc_date es →
    let s := run es s0 in
    NoDup (map appointment_date (Appointments s))
    ∧ ∀ user (timestamp : DateTime),
        valid_DateTime timestamp →
        let r := BookAppointment_mutate timestamp (mkInfo (Some user)) s in
        ((∃ a, a ∈ Appointments s ∧ appointment_date a = datetime_date timestamp) →
           r = (s, inl (Exception "No slot on that day!")))
        ∧ ((∀ a, a ∈ Appointments s → appointment_date a ≠ datetime_date timestamp) →
           ∀ t, astimezone_utc timestamp = Some t →
                r.2 = inr (mkAppointment user t)
                ∧ Appointments r.1 = Appointments s ++ [mkAppointment user t]).
Proof.
  intros s0 es Hs0 Hes Hutc s.
  destruct (run_one_per_day es s0 Hes Hutc Hs0) as [Hvalid Hnd]. fold s in Hvalid, Hnd.
  split; [done|]. intros user timestamp [Ht _] r. subst r.
  rewrite BookAppointment_mutate_eq by done. split.
  - intros (a & Ha & Heq). rewrite decide_True; [done|].
    apply list_elem_of_fmap. by exists a.
  - intros Hno t ->. rewrite decide_False; [done|].
    intros (a & Heq & Ha)%list_elem_of_fmap. by apply (Hno a).
Qed.

Lemma one_appointment_per_utc_day_witness :
  one_per_day clinic
  ∧ Forall valid_event [Call (mkInfo (Some 8%nat)) (book_appointment (utc may_2nd_at_9))]
  ∧ Forall books_on_utc_date [Call (mkInfo (Some 8%nat)) (book_appointment (utc may_2nd_at_9))]
  ∧ let s := run [Call (mkInfo (Some 8%nat)) (book_appointment (utc may_2nd_at_9))] clinic in
    NoDup (map appointment_date (Appointments s))
    ∧ BookAppointment_mutate (at_offset may_1st_at_18 (-240)) (mkInfo (Some 9%nat)) s
      = (s, inl (Exception "No slot on that day!"))
    ∧ (BookAppointment_mutate (at_offset (mkDatetime 2024 5 3 18 0 0) 330)
         (mkInfo (Some 9%nat)) s).2
      = inr (mkAppointment 9 (mkDatetime 2024 5 3 12 30 0)).
Proof.
  assert (one_per_day clinic) as H0 by (apply (bool_decide_unpack _); by vm_compute).
  assert (Forall valid_event
            [Call (mkInfo (Some 8%nat)) (book_appointment (utc may_2nd_at_9))]) as Hes.
  { apply Forall_singleton. cbn. apply (bool_decide_unpack _). by vm_compute. }
  assert (Forall books_on_utc_date
            [Call (mkInfo (Some 8%nat)) (book_appointment (utc may_2nd_at_9))]) as Hutc.
  { apply Forall_singleton. cbn. apply (bool_decide_unpack _). by vm_compute. }
  split; [exact H0|]. split; [exact Hes|]. split; [exact Hutc|].
  destruct (one_appointment_per_utc_day clinic _ H0 Hes Hutc) as [Hnd Hbook].
  split; [exact Hnd|]. split.
  - refine (proj1 (Hbook 9%nat (at_offset may_1st_at_18 (-240)) _) _).
    + apply (bool_decide_unpack _). by vm_compute.
    + exists (mkAppointment 7 may_1st_at_10). split; [|done]. by vm_compute; left.
  - refine (proj1 (proj2 (Hbook 9%nat (at_offset (mkDatetime 2024 5 3 18 0 0) 330) _) _ _ _)).
    + apply (bool_decide_unpack _). by vm_compute.
    + intros a Ha. vm_compute in Ha.
      apply elem_of_cons in Ha as [->|Ha]; [by vm_compute|].
      apply elem_of_cons in Ha as [->|Ha]; [by vm_compute|].
      by apply elem_of_nil in Ha.
    + by vm_compute.
Defined.

(** *** The booked dates *)

Lemma datetime_gt_clock t1 t2 :
  valid_datetime t1 → valid_datetime t2 →
  datetime_gt t1 t2 = true ↔ clock t2 < clock t1.
Proof.
  intros (Hy1 & Hm1 & Hd1 & Hh1 & Hmi1 & Hs1) (Hy2 & Hm2 & Hd2 & Hh2 & Hmi2 & Hs2).
  unfold datetime_gt, datetime_tuple, clock. cbn [tuple_compare].
  destruct (Z.compare_spec (year t1) (year t2)); [|split; [done|lia]|split; [lia|done]].
  destruct (Z.compare_spec (month t1) (month t2)); [|split; [done|lia]|split; [lia|done]].
  destruct (Z.compare_spec (day t1) (day t2)); [|split; [done|lia]|split; [lia|done]].
  destruct (Z.compare_spec (hour t1) (hour t2)); [|split; [done|lia]|split; [lia|done]].
  destruct (Z.compare_spec (minute t1) (minute t2)); [|split; [done|lia]|split; [lia|done]].
  destruct (Z.compare_spec (second t1) (second t2)); split; (done || lia).
Qed.

(** C10: [resolve_booked_dates] returns the timestamps of the
    appointments that are later than the current time, and only those.
    An appointment that is not later (on a past day, or earlier on the
    current day) is left out, and yet a booking on its date is refused
    with the slot error. *)
Theorem booked_dates_leave_out_the_past :
  ∀ s now,
    Forall (λ a, valid_datetime (appointment_timestamp a)) (Appointments s) →
    valid_datetime now →
    resolve_booked_dates now s
    = map appointment_timestamp
        (List.filter (λ a, datetime_gt (appointment_timestamp a) now) (Appointments s))
    ∧ (∀ t, t ∈ resolve_booked_dates now s
            ↔ ∃ a, a ∈ Appointments s ∧ appointment_timestamp a = t ∧ clock now < clock t)
    ∧ (∀ a, a ∈ Appointments s →
            clock (appointment_timestamp a) ≤ clock now →
            (appointment_timestamp a ∉ resolve_booked_dates now s)
            ∧ ∀ user (timestamp : DateTime),
                valid_datetime timestamp →
                datetime_date timestamp = appointment_date a →
                BookAppointment_mutate timestamp (mkInfo (Some user)) s
                = (s, inl (Exception "No slot on that day!"))).
Proof.
  intros s now Hvalid Hnow. rewrite Forall_forall in Hvalid.
  assert (∀ t, t ∈ resolve_booked_dates now s
               ↔ ∃ a, a ∈ Appointments s ∧ appointment_timestamp a = t
                      ∧ clock now < clock t) as Hmem.
  { intros t. unfold resolve_booked_dates. rewrite list_elem_of_fmap. split.
    - intros (a & -> & [Ha Hgt]%list_elem_of_In%filter_In). apply list_elem_of_In in Ha.
      exists a. split; [done|]. split; [done|].
      apply datetime_gt_clock; [by apply Hvalid|done..].
    - intros (a & Ha & <- & Hlt). exists a. split; [done|].
      apply list_elem_of_In, filter_In. split; [by apply list_elem_of_In|].
      apply datetime_gt_clock; [by apply Hvalid|done..]. }
  split; [done|]. split; [done|].
  intros a Ha Hle. split.
  - intros (a' & _ & Heq & Hlt)%Hmem. lia.
  - intros user timestamp Ht Hdate.
    rewrite BookAppointment_mutate_eq; [|done|by apply Forall_forall].
    rewrite decide_True; [done|]. apply list_elem_of_fmap. by exists a.
Qed.

Lemma booked_dates_leave_out_the_past_witness :
  Forall (λ a, valid_datetime (appointment_timestamp a)) (Appointments clinic)
  ∧ valid_datetime may_1st_at_12
  ∧ resolve_booked_dates may_1st_at_12 clinic = []
  ∧ BookAppointment_mutate (utc may_1st_at_18) (mkInfo (Some 9%nat)) clinic
    = (clinic, inl (Exception "No slot on that day!")).
Proof.
  assert (Forall (λ a, valid_datetime (appointment_timestamp a)) (Appointments clinic)) as Hv.
  { apply (bool_decide_unpack _). by vm_compute. }
  assert (valid_datetime may_1st_at_12) as Hnow.
  { apply (bool_decide_unpack _). by vm_compute. }
  split; [exact Hv|]. split; [exact Hnow|].
  destruct (booked_dates_leave_out_the_past clinic may_1st_at_12 Hv Hnow) as (Heq & _ & Hpast).
  split.
  - rewrite Heq. by vm_compute.
  - refine (proj2 (Hpast (mkAppointment 7 may_1st_at_10) _ _) 9%nat (utc may_1st_at_18) _ _).
    + by left.
    + by vm_compute.
    + apply (bool_decide_unpack _). by vm_compute.
    + by vm_compute.
Defined.

(** ** Further properties of the mutations *)

(** X2: with an address that does not exist, an order of the cart or of
    one product raises [DoesNotExist] and writes nothing: no order row is
    created. *)
Theorem order_without_address :
  ∀ s user address_id,
    Addresses s !! address_id = None →
    OrderCart_mutate address_id (mkInfo (Some user)) s = (s, inl (DoesNotExist "Address"))
    ∧ ∀ product_obj,
        OrderProduct_mutate product_obj address_id (mkInfo (Some user)) s
        = (s, inl (DoesNotExist "Address")).
Proof.
  intros s user address_id Ha. split; [|intros product_obj];
    unfold OrderCart_mutate, OrderProduct_mutate; unfold_M; cbn; by rewrite Ha.
Qed.

Lemma order_without_address_witness :
  Addresses shop !! 9%nat = None
  ∧ OrderCart_mutate 9 (mkInfo (Some 7%nat)) shop = (shop, inl (DoesNotExist "Address")).
Proof.
  assert (Addresses shop !! 9%nat = None) as Ha by by vm_compute.
  split; [exact Ha|]. exact (proj1 (order_without_address shop 7%nat 9%nat Ha)).
Defined.

Lemma filter_none {A} (g : A → bool) (l : list A) :
  (∀ x, x ∈ l → g x = false) → List.filter g l = [].
Proof.
  induction l as [|x l IH]; [done|]. intros H. cbn.
  rewrite (H x) by left. apply IH. intros y Hy. apply H. by right.
Qed.

Lemma filter_fresh_pk {A} (id : A → nat) (rows : list A) :
  List.filter (λ x, (id x =? fresh_pk id rows)%nat) rows = [].
Proof.
  apply filter_none. intros x Hx. apply Nat.eqb_neq.
  apply (fresh_pk_bound id) in Hx. lia.
Qed.

Lemma new_order_no_lines user address s :
  Forall (λ o, order_obj_order o ∈ map order_id (Orders s)) (OrderObjs s) →
  resolve_product_objects (new_order user address s) s = [].
Proof.
  intros Hfk. unfold resolve_product_objects. apply filter_none. intros o Ho.
  rewrite Forall_forall in Hfk. apply Hfk in Ho. apply Nat.eqb_neq. intros Heq.
  cbn in Heq. rewrite Heq in Ho. by apply fresh_pk_fresh in Ho.
Qed.

Lemma new_order_get user address s :
  Order_objects_get (order_id (new_order user address s))
                    (with_order (new_order user address s) s)
  = inr (new_order user address s).
Proof.
  unfold Order_objects_get. cbn. rewrite List.filter_app.
  rewrite (filter_fresh_pk order_id). cbn. by rewrite Nat.eqb_refl.
Qed.

(** X3: an order of one product that fails after the address is found,
    because the product does not exist or its stock is short, has already
    stored the order: the order row stays and can be read, without lines,
    and nothing else changes. *)
Theorem OrderProduct_failure_leaves_order :
  ∀ s user address_id address product_obj,
    consistent s →
    Addresses s !! address_id = Some address →
    let order := new_order user address s in
    let r := OrderProduct_mutate product_obj address_id (mkInfo (Some user)) s in
    (Products s !! product_id product_obj = None →
       r = (set_Orders (λ t, t ++ [order]) s, inl (DoesNotExist "Product")))
    ∧ (∀ p, Products s !! product_id product_obj = Some p →
            product_stock p < qty product_obj →
            r = (set_Orders (λ t, t ++ [order]) s, inl (Exception "Stock Error")))
    ∧ resolve_order (order_id order) (mkInfo (Some user)) (set_Orders (λ t, t ++ [order]) s)
      = inr order
    ∧ resolve_product_objects order (set_Orders (λ t, t ++ [order]) s) = [].
Proof.
  intros s user address_id address product_obj (_ & _ & _ & Hofk) Ha order r. subst r.
  split; [|split; [|split]].
  - intros Hp. unfold OrderProduct_mutate. unfold_M. cbn. rewrite Ha. cbn. by rewrite Hp.
  - intros p Hp Hlt. unfold OrderProduct_mutate. unfold_M. cbn. rewrite Ha. cbn.
    rewrite Hp. by apply Z.ltb_lt in Hlt as ->.
  - unfold resolve_order. cbn [context_user].
    change (set_Orders (λ t, t ++ [order]) s) with (with_order order s).
    subst order. rewrite new_order_get. cbn. by rewrite Nat.eqb_refl.
  - exact (new_order_no_lines user address s Hofk).
Qed.

Lemma OrderProduct_failure_leaves_order_witness :
  consistent shop
  ∧ Addresses shop !! 1%nat = Some home
  ∧ OrderProduct_mutate (mkProductOrderInput 5 1) 1 (mkInfo (Some 7%nat)) shop
    = (set_Orders (λ t, t ++ [new_order 7 home shop]) shop, inl (DoesNotExist "Product")).
Proof.
  assert (consistent shop) as Hc by (apply (bool_decide_unpack _); by vm_compute).
  assert (Addresses shop !! 1%nat = Some home) as Ha by by vm_compute.
  split; [exact Hc|]. split; [exact Ha|].
  refine (proj1 (OrderProduct_failure_leaves_order shop 7%nat 1%nat home
                   (mkProductOrderInput 5 1) Hc Ha) _).
  by vm_compute.
Defined.

Lemma filter_filter_keep {A} (f g : A → bool) (l : list A) :
  (∀ x, x ∈ l → f x = true → g x = true) →
  List.filter f (List.filter g l) = List.filter f l.
Proof.
  induction l as [|x l IH]; [done|]. intros H. cbn.
  assert (List.filter f (List.filter g l) = List.filter f l) as IH'.
  { apply IH. intros y Hy. apply H. by right. }
  destruct (g x) eqn:Hg; cbn.
  - by rewrite IH'.
  - destruct (f x) eqn:Hf; [|done]. rewrite (H x) in Hg; [done|by left|done].
Qed.

Lemma filter_all {A} (g : A → bool) (l : list A) :
  (∀ x, x ∈ l → g x = true) → List.filter g l = l.
Proof.
  induction l as [|x l IH]; [done|]. intros H. cbn.
  rewrite (H x) by left. f_equal. apply IH. intros y Hy. apply H. by right.
Qed.

Lemma committed_own_cart order user s :
  resolve_cart user (committed order (CartObj_objects_filter user s) s) = [].
Proof.
  unfold resolve_cart, CartObj_objects_filter at 1. cbn. apply filter_none.
  intros r [Hr Hno]%list_elem_of_In%filter_In. apply list_elem_of_In in Hr.
  apply negb_true_iff in Hno. apply not_true_iff_false. intros Hu.
  apply not_true_iff_false in Hno. apply Hno, existsb_exists. exists r.
  split; [|by apply Nat.eqb_refl]. apply filter_In. split; [by apply list_elem_of_In|done].
Qed.

Lemma committed_other_cart order user u s :
  NoDup (map cart_obj_id (CartObjs s)) → u ≠ user →
  resolve_cart u (committed order (CartObj_objects_filter user s) s) = resolve_cart u s.
Proof.
  intros Hpk Hne. unfold resolve_cart, CartObj_objects_filter at 1. cbn.
  apply filter_filter_keep. intros r Hr Hu. apply Nat.eqb_eq in Hu.
  apply negb_true_iff, not_true_iff_false. intros (c & Hc & Heq)%existsb_exists.
  apply list_elem_of_In, user_cart_elem in Hc as [Hc Hcu]. apply Nat.eqb_eq in Heq.
  assert (r = c) as -> by by eapply (NoDup_map_elem_inj cart_obj_id).
  congruence.
Qed.

(** X4: a checkout whose lines are all in stock returns the new order,
    empties the cart of the caller and leaves the carts of the other
    users; the order has one line for each cart line, and the two mails of
    the order are queued. *)
Theorem OrderCart_success_empties_cart :
  ∀ s user address_id address,
    consistent s →
    Addresses s !! address_id = Some address →
    Forall (in_stock s) (CartObj_objects_filter user s) →
    let order := new_order user address s in
    let r := OrderCart_mutate address_id (mkInfo (Some user)) s in
    r.2 = inr order
    ∧ resolve_cart user r.1 = []
    ∧ (∀ u, u ≠ user → resolve_cart u r.1 = resolve_cart u s)
    ∧ resolve_order (order_id order) (mkInfo (Some user)) r.1 = inr order
    ∧ resolve_product_objects order r.1
      = map (order_line (Products s) order) (CartObj_objects_filter user s)
    ∧ outbox r.1
      = outbox s ++ [OrderConfirmedMail user (order_id order);
                     OrderPlacedAdminMail (order_id order)].
Proof.
  intros s user address_id address Hs Ha Hin order r. subst r.
  rewrite (OrderCart_mutate_in_stock _ _ _ _ Hs Ha Hin). cbn zeta. cbn [fst snd].
  destruct Hs as (Hpk & Hkey & Hfk & Hofk).
  split; [done|]. split; [|split; [|split; [|split]]].
  - apply (committed_own_cart order user (with_order order s)).
  - intros u Hne. by apply (committed_other_cart order user u (with_order order s)).
  - unfold resolve_order. cbn [context_user].
    pose proof (new_order_get user address s) as Hget.
    unfold Order_objects_get in *. cbn in *. rewrite Hget. cbn. by rewrite Nat.eqb_refl.
  - unfold resolve_product_objects. cbn. rewrite List.filter_app.
    pose proof (new_order_no_lines user address s Hofk) as Hno.
    unfold resolve_product_objects in Hno. cbn in Hno. rewrite Hno. cbn.
    apply filter_all. intros o (c & -> & Hc)%list_elem_of_fmap. cbn.
    apply Nat.eqb_refl.
  - cbn. by rewrite <- app_assoc.
Qed.


Lemma OrderCart_success_empties_cart_witness :
  let s := (SetCart_mutate (mkProductOrderInput 2 1) None (mkInfo (Some 7%nat)) shop).1 in
  consistent s
  ∧ Addresses s !! 1%nat = Some home
  ∧ Forall (in_stock s) (CartObj_objects_filter 7 s)
  ∧ resolve_cart 7 (OrderCart_mutate 1 (mkInfo (Some 7%nat)) s).1 = []
  ∧ resolve_product_objects (new_order 7 home s) (OrderCart_mutate 1 (mkInfo (Some 7%nat)) s).1
    = [mkOrderObj 1 1 2 90; mkOrderObj 1 2 1 250].
Proof.
  intros s.
  assert (consistent s) as Hc by (apply (bool_decide_unpack _); by vm_compute).
  assert (Addresses s !! 1%nat = Some home) as Ha by by vm_compute.
  assert (Forall (in_stock s) (CartObj_objects_filter 7 s)) as Hin.
  { apply (bool_decide_unpack _). by vm_compute. }
  split; [exact Hc|]. split; [exact Ha|]. split; [exact Hin|].
  destruct (OrderCart_success_empties_cart s 7%nat 1%nat home Hc Ha Hin)
    as (_ & Hcart & _ & _ & Hlines & _).
  split; [exact Hcart|]. rewrite Hlines. by vm_compute.
Defined.

(** X5: a checkout of an empty cart succeeds: it stores an order without
    lines and queues the two mails; the catalogue, the cart table and the
    order lines are as they were. *)
Theorem OrderCart_empty_cart :
  ∀ s user address_id address,
    Addresses s !! address_id = Some address →
    CartObj_objects_filter user s = [] →
    let order := new_order user address s in
    let r := OrderCart_mutate address_id (mkInfo (Some user)) s in
    r.2 = inr order
    ∧ Orders r.1 = Orders s ++ [order]
    ∧ OrderObjs r.1 = OrderObjs s
    ∧ Products r.1 = Products s
    ∧ CartObjs r.1 = CartObjs s
    ∧ outbox r.1
      = outbox s ++ [OrderConfirmedMail user (order_id order);
                     OrderPlacedAdminMail (order_id order)].
Proof.
  intros s user address_id address Ha Hempty order r. subst r.
  rewrite (OrderCart_mutate_eq _ _ _ _ Ha). cbn zeta. rewrite Hempty. cbn.
  repeat split. by rewrite <- app_assoc.
Qed.

Lemma OrderCart_empty_cart_witness :
  Addresses shop !! 1%nat = Some home
  ∧ CartObj_objects_filter 8 shop = []
  ∧ (OrderCart_mutate 1 (mkInfo (Some 8%nat)) shop).2 = inr (new_order 8 home shop).
Proof.
  assert (Addresses shop !! 1%nat = Some home) as Ha by by vm_compute.
  assert (CartObj_objects_filter 8 shop = []) as He by by vm_compute.
  split; [exact Ha|]. split; [exact He|].
  exact (proj1 (OrderCart_empty_cart shop 8%nat 1%nat home Ha He)).
Defined.

Lemma order_cart_obj_Orders l order c :
  preserves (λ s, l `prefix_of` Orders s) (order_cart_obj order c).
Proof. intros s Hs. by_cases s. Qed.

Lemma OrderCart_Orders l address_id info :
  preserves (λ s, l `prefix_of` Orders s) (OrderCart_mutate address_id info).
Proof.
  apply preserves_login_required. intros user.
  apply preserves_bind. { intros s Hs. by_cases s. }
  intros address. apply preserves_bind. { intros s Hs. cbn. by apply prefix_app_r. }
  intros order. apply preserves_bind. { apply preserves_gets. }
  intros cart. apply preserves_bind.
  { apply preserves_for_each. intros c. apply order_cart_obj_Orders. }
  intros _. apply preserves_bind. { by intros s Hs. }
  intros _. apply preserves_bind. { by intros s Hs. }
  intros _. apply preserves_ret.
Qed.

Lemma OrderProduct_Orders l product_obj address_id info :
  preserves (λ s, l `prefix_of` Orders s) (OrderProduct_mutate product_obj address_id info).
Proof.
  intros s Hs. unfold OrderProduct_mutate. unfold_M.
  destruct (context_user info) as [user|]; [|done].
  destruct (Addresses s !! address_id) as [address|]; [|done]. cbn.
  assert (l `prefix_of` (Orders s ++ [new_order user address s])) as Hs'
    by by apply prefix_app_r.
  destruct (Products s !! _) as [p|]; [|done]. destruct (_ <? _); [done|]. cbn.
  by destruct (existsb _ _).
Qed.

Lemma execute_Orders_frame m info s :
  match m with order_cart _ | order_product _ _ => True
  | _ => Orders (execute m info s) = Orders s end.
Proof.
  destruct m; try done; cbn [execute]; by_cases s.
Qed.

Lemma step_Orders l e s : l `prefix_of` Orders s → l `prefix_of` Orders (step s e).
Proof.
  intros Hs. destruct e as [info m|k price discount]; cbn [step]; [|done].
  pose proof (execute_Orders_frame m info s) as Hframe.
  destruct m; cbn [execute] in *; try (by rewrite Hframe).
  - by apply OrderCart_Orders.
  - by apply OrderProduct_Orders.
Qed.

Lemma run_Orders l es s : l `prefix_of` Orders s → l `prefix_of` Orders (run es s).
Proof.
  revert s. induction es as [|e es IH]; intros s Hs; [done|].
  cbn. apply IH. by apply step_Orders.
Qed.

(** X6: no request changes or deletes an order: after any history of
    requests and catalogue edits, the orders that were stored are still
    the first rows of the table, each with the address it was given, also
    when that address has since been edited or deleted. *)
Theorem orders_are_kept :
  ∀ s es, Orders s `prefix_of` Orders (run es s).
Proof. intros s es. by apply run_Orders. Qed.

(** X7: [OrderProduct.mutate] does not refuse a negative quantity: where
    the stock is not negative, the order succeeds, the stock of the product
    rises by the amount, and the order line records the negative quantity. *)
Theorem OrderProduct_negative_quantity :
  ∀ s user address_id address product_obj p,
    consistent s →
    Addresses s !! address_id = Some address →
    Products s !! product_id product_obj = Some p →
    0 ≤ product_stock p →
    qty product_obj < 0 →
    let order := new_order user address s in
    let r := OrderProduct_mutate product_obj address_id (mkInfo (Some user)) s in
    r.2 = inr order
    ∧ product_stock <$> Products r.1 !! product_id product_obj
      = Some (product_stock p + Z.abs (qty product_obj))
    ∧ resolve_product_objects order r.1
      = [mkOrderObj (order_id order) (product_id product_obj) (qty product_obj)
                    (order_price p)].
Proof.
  intros s user address_id address product_obj p Hs Ha Hp Hstock Hneg order r. subst r.
  rewrite (OrderProduct_mutate_eq _ _ _ _ _ _ Hs Ha Hp). cbn zeta.
  assert ((product_stock p <? qty product_obj) = false) as -> by (apply Z.ltb_ge; lia).
  cbn [fst snd]. split; [done|]. split.
  - cbn. rewrite lookup_insert_eq. cbn. f_equal. lia.
  - destruct Hs as (_ & _ & _ & Hofk).
    pose proof (new_order_no_lines user address s Hofk) as Hno.
    unfold resolve_product_objects in *. cbn in *. rewrite List.filter_app, Hno. cbn.
    by rewrite Nat.eqb_refl.
Qed.

Lemma OrderProduct_negative_quantity_witness :
  consistent shop
  ∧ Addresses shop !! 1%nat = Some home
  ∧ product_stock <$> Products shop !! 1%nat = Some 5
  ∧ product_stock
      <$> Products (OrderProduct_mutate (mkProductOrderInput 1 (-4)) 1
                      (mkInfo (Some 7%nat)) shop).1 !! 1%nat
    = Some (5 + Z.abs (-4)).
Proof.
  assert (consistent shop) as Hc by (apply (bool_decide_unpack _); by vm_compute).
  assert (Addresses shop !! 1%nat = Some home) as Ha by by vm_compute.
  split; [exact Hc|]. split; [exact Ha|]. split; [by vm_compute|].
  refine (proj1 (proj2 (OrderProduct_negative_quantity shop 7%nat 1%nat home
                          (mkProductOrderInput 1 (-4)) lamp Hc Ha _ _ _))).
  - by vm_compute.
  - by vm_compute.
  - by vm_compute.
Defined.

(** ** Further properties of the cart *)

Lemma State_eta s :
  mkState (Products s) (Addresses s) (CartObjs s) (Orders s) (OrderObjs s)
          (Appointments s) (outbox s) = s.
Proof. by destruct s. Qed.

Lemma set_CartObjs_id f s : f (CartObjs s) = CartObjs s → set_CartObjs f s = s.
Proof. intros H. unfold set_CartObjs. rewrite H. apply State_eta. Qed.

Lemma cart_qty_None u p s :
  cart_qty u p s = None ↔ List.filter (cart_line_of u p) (CartObjs s) = [].
Proof.
  unfold cart_qty. destruct (List.filter _ _); cbn; [done|]. split; discriminate.
Qed.

(** X8: [SetCart.mutate] writes the cart table and nothing else, and in
    the cart table only lines of the caller: the cart of every other user
    is returned as before. *)
Theorem SetCart_writes_own_cart_only :
  ∀ s user cart_obj add,
    NoDup (map cart_obj_id (CartObjs s)) →
    let s' := (SetCart_mutate cart_obj add (mkInfo (Some user)) s).1 in
    Products s' = Products s
    ∧ Addresses s' = Addresses s
    ∧ Orders s' = Orders s
    ∧ OrderObjs s' = OrderObjs s
    ∧ Appointments s' = Appointments s
    ∧ outbox s' = outbox s
    ∧ ∀ u, u ≠ user → resolve_cart u s' = resolve_cart u s.
Proof.
  intros s user cart_obj add Hpk s'. subst s'.
  assert (∀ f, Products (set_CartObjs f s) = Products s
               ∧ Addresses (set_CartObjs f s) = Addresses s
               ∧ Orders (set_CartObjs f s) = Orders s
               ∧ OrderObjs (set_CartObjs f s) = OrderObjs s
               ∧ Appointments (set_CartObjs f s) = Appointments s
               ∧ outbox (set_CartObjs f s) = outbox s) as Hframe by done.
  rewrite SetCart_mutate_eq.
  destruct (List.filter (cart_line_of user (product_id cart_obj)) (CartObjs s))
    as [|c [|c' l]] eqn:Hget.
  - destruct (0 <? qty cart_obj); [|by repeat split].
    unfold user_cart_add. destruct (existsb _ _); [by repeat split|].
    destruct (Products s !! _); [|by repeat split]. cbn [fst].
    repeat split. intros u Hne. unfold resolve_cart, CartObj_objects_filter. cbn.
    rewrite List.filter_app. cbn.
    assert ((user =? u)%nat = false) as -> by (apply Nat.eqb_neq; congruence).
    by rewrite app_nil_r.
  - apply filter_singleton_elem in Hget as [Hc Hg].
    apply cart_line_of_key in Hg. injection Hg as Hcu Hcp.
    assert (∀ q u, u ≠ user →
              resolve_cart u (set_CartObjs (map (save_row (set_qty c q))) s)
              = resolve_cart u s) as Hsave.
    { intros q u Hne. unfold resolve_cart, CartObj_objects_filter. cbn.
      rewrite filter_map_commute.
      - rewrite <- (map_id (List.filter _ (CartObjs s))) at 2. apply map_ext_in.
        intros r [Hr Hu]%filter_In. apply Nat.eqb_eq in Hu. apply list_elem_of_In in Hr.
        unfold save_row. cbn. destruct (cart_obj_id r =? cart_obj_id c)%nat eqn:Heq; [|done].
        apply Nat.eqb_eq in Heq.
        rewrite (NoDup_map_elem_inj cart_obj_id _ r c Hpk Hr Hc Heq) in Hu. congruence.
      - intros r Hr. unfold save_row. cbn.
        destruct (cart_obj_id r =? cart_obj_id c)%nat eqn:Heq; [|done].
        apply Nat.eqb_eq in Heq.
        by rewrite (NoDup_map_elem_inj cart_obj_id _ r c Hpk Hr Hc Heq). }
    cbn zeta. cbn [fst].
    destruct (default false add); [|destruct (0 <? qty cart_obj)].
    + split_and!; try done. intros u Hne. by apply Hsave.
    + split_and!; try done. intros u Hne. by apply Hsave.
    + split_and!; try done. intros u Hne. unfold resolve_cart, CartObj_objects_filter. cbn.
      apply filter_filter_keep. intros r _ Hu. apply Nat.eqb_eq in Hu.
      apply negb_true_iff, not_true_iff_false. intros Hr%cart_line_of_key.
      injection Hr as Hru _. congruence.
  - by repeat split.
Qed.

Lemma SetCart_writes_own_cart_only_witness :
  NoDup (map cart_obj_id (CartObjs shop))
  ∧ resolve_cart 8 (SetCart_mutate (mkProductOrderInput 1 4) (Some true)
                      (mkInfo (Some 7%nat)) shop).1
    = resolve_cart 8 shop.
Proof.
  assert (NoDup (map cart_obj_id (CartObjs shop))) as Hpk.
  { apply (bool_decide_unpack _). by vm_compute. }
  split; [exact Hpk|].
  destruct (SetCart_writes_own_cart_only shop 7%nat (mkProductOrderInput 1 4) (Some true) Hpk)
    as (_ & _ & _ & _ & _ & _ & Hother).
  apply Hother. by vm_compute.
Defined.

Lemma set_qty_set_qty c q q' : set_qty (set_qty c q) q' = set_qty c q'.
Proof. reflexivity. Qed.

Lemma set_qty_same c : set_qty c (cart_obj_qty c) = c.
Proof. by destruct c. Qed.

Lemma save_row_twice (l : list CartObj) c q :
  NoDup (map cart_obj_id l) → c ∈ l →
  map (save_row c) (map (save_row (set_qty c q)) l) = l.
Proof.
  intros Hnd Hc. rewrite map_map. rewrite <- (map_id l) at 2. apply map_ext_in.
  intros r Hr%list_elem_of_In. unfold save_row at 2. cbn.
  destruct (cart_obj_id r =? cart_obj_id c)%nat eqn:Heq.
  - apply Nat.eqb_eq in Heq. unfold save_row. cbn. rewrite Nat.eqb_refl.
    symmetry. by apply (NoDup_map_elem_inj cart_obj_id l).
  - unfold save_row. by rewrite Heq.
Qed.

(** X9: adding a quantity to a cart line and then adding its opposite
    gives back the store as it was. *)
Theorem SetCart_add_then_subtract :
  ∀ s user product_id q q0,
    consistent s →
    cart_qty user product_id s = Some q0 →
    let info := mkInfo (Some user) in
    let s1 := (SetCart_mutate (mkProductOrderInput product_id q) (Some true) info s).1 in
    cart_qty user product_id s1 = Some (q0 + q)
    ∧ (SetCart_mutate (mkProductOrderInput product_id (- q)) (Some true) info s1).1 = s.
Proof.
  intros s user pid q q0 Hs Hq0 info s1. subst info.
  pose proof Hs as (Hpk & Hkey & _).
  destruct (filter_key_unique user pid (CartObjs s) Hkey) as [Hnil|[c Hone]].
  { apply cart_qty_None in Hnil. congruence. }
  assert (cart_obj_qty c = q0) as Hc0.
  { unfold cart_qty in Hq0. rewrite Hone in Hq0. by injection Hq0. }
  apply filter_singleton_elem in Hone as Hc. destruct Hc as [Hc Hg].
  assert (s1 = set_CartObjs (map (save_row (set_qty c (q0 + q)))) s) as Hs1.
  { subst s1. rewrite SetCart_mutate_eq. cbn [product_id qty]. rewrite Hone. cbn.
    by rewrite Hc0. }
  assert (List.filter (cart_line_of user pid) (CartObjs s1) = [set_qty c (q0 + q)]) as Hone1.
  { rewrite Hs1. cbn. rewrite filter_map_commute by (intros; by eapply save_row_line_of).
    rewrite Hone. cbn. unfold save_row. cbn. by rewrite Nat.eqb_refl. }
  split.
  - unfold cart_qty. by rewrite Hone1.
  - rewrite SetCart_mutate_eq. cbn [product_id qty]. rewrite Hone1. cbn.
    rewrite Hs1. unfold set_CartObjs at 1. cbn.
    rewrite set_qty_set_qty.
    assert (set_qty c (q0 + q + - q) = c) as ->.
    { rewrite <- (set_qty_same c) at 2. f_equal. lia. }
    rewrite save_row_twice by done. apply State_eta.
Qed.

Lemma SetCart_add_then_subtract_witness :
  consistent shop
  ∧ cart_qty 7 1 shop = Some 2
  ∧ (SetCart_mutate (mkProductOrderInput 1 (- 5)) (Some true) (mkInfo (Some 7%nat))
       (SetCart_mutate (mkProductOrderInput 1 5) (Some true) (mkInfo (Some 7%nat)) shop).1).1
    = shop.
Proof.
  assert (consistent shop) as Hc by (apply (bool_decide_unpack _); by vm_compute).
  assert (cart_qty 7 1 shop = Some 2) as Hq by by vm_compute.
  split; [exact Hc|]. split; [exact Hq|].
  exact (proj2 (SetCart_add_then_subtract shop 7%nat 1%nat 5 2 Hc Hq)).
Defined.

(** X10: for a product without a line in the cart of the caller, creating
    the line with a positive quantity and then setting it to a quantity
    that is not positive gives back the store as it was. *)
Theorem SetCart_create_then_remove :
  ∀ s user product_id q q' add,
    is_Some (Products s !! product_id) →
    cart_qty user product_id s = None →
    0 < q → q' ≤ 0 →
    let info := mkInfo (Some user) in
    let s1 := (SetCart_mutate (mkProductOrderInput product_id q) add info s).1 in
    cart_qty user product_id s1 = Some q
    ∧ (SetCart_mutate (mkProductOrderInput product_id q') (Some false) info s1).1 = s.
Proof.
  intros s user pid q q' add [p Hp] Hnone%cart_qty_None Hq Hq' info s1. subst info.
  assert (existsb (cart_line_of user pid) (CartObjs s) = false) as Hex.
  { apply not_true_iff_false. intros (y & Hy & Hg)%existsb_exists.
    assert (In y (List.filter (cart_line_of user pid) (CartObjs s))) as Hin
      by (by apply filter_In).
    by rewrite Hnone in Hin. }
  assert (cart_line_of user pid (mkCartObj (fresh_pk cart_obj_id (CartObjs s)) user pid q)
          = true) as Hnew.
  { unfold cart_line_of. cbn. by rewrite !Nat.eqb_refl. }
  assert (s1 = set_CartObjs
                 (λ t, t ++ [mkCartObj (fresh_pk cart_obj_id t) user pid q]) s) as Hs1.
  { subst s1. rewrite SetCart_mutate_eq. cbn [product_id qty]. rewrite Hnone.
    apply Z.ltb_lt in Hq as ->. unfold user_cart_add. by rewrite Hex, Hp. }
  assert (List.filter (cart_line_of user pid) (CartObjs s1)
          = [mkCartObj (fresh_pk cart_obj_id (CartObjs s)) user pid q]) as Hone1.
  { rewrite Hs1. cbn. rewrite List.filter_app, Hnone. cbn. by rewrite Hnew. }
  split.
  - unfold cart_qty. by rewrite Hone1.
  - rewrite SetCart_mutate_eq. cbn [product_id qty]. rewrite Hone1. cbn.
    assert ((0 <? q') = false) as -> by (apply Z.ltb_ge; lia).
    rewrite Hs1. unfold set_CartObjs at 1. cbn.
    rewrite List.filter_app. cbn. rewrite Hnew. cbn. rewrite app_nil_r.
    rewrite filter_all; [apply State_eta|].
    intros r Hr. apply negb_true_iff, not_true_iff_false. intros Hg.
    assert (In r (List.filter (cart_line_of user pid) (CartObjs s))) as Hin.
    { apply filter_In. split; [by apply list_elem_of_In|done]. }
    by rewrite Hnone in Hin.
Qed.

Lemma SetCart_create_then_remove_witness :
  is_Some (Products shop !! 1%nat)
  ∧ cart_qty 8 1 shop = None
  ∧ (SetCart_mutate (mkProductOrderInput 1 0) (Some false) (mkInfo (Some 8%nat))
       (SetCart_mutate (mkProductOrderInput 1 3) None (mkInfo (Some 8%nat)) shop).1).1
    = shop.
Proof.
  assert (is_Some (Products shop !! 1%nat)) as Hp by (by exists lamp).
  assert (cart_qty 8 1 shop = None) as Hq by by vm_compute.
  split; [exact Hp|]. split; [exact Hq|].
  refine (proj2 (SetCart_create_then_remove shop 8%nat 1%nat 3 0 None Hp Hq _ _)); lia.
Defined.

(** ** Further properties of the listing *)

Lemma resolve_products_slices first skip search kind s :
  resolve_products first skip search kind s
  = match match truthy_int skip with
          | Some skip => slice_from skip (filtered_products search kind s)
          | None => inr (filtered_products search kind s)
          end with
    | inl e => inl e
    | inr qs =>
        match truthy_int first with
        | Some first => slice_to first qs
        | None => inr qs
        end
    end.
Proof. reflexivity. Qed.

(** X11: the pages of the listing fit together: for a page size
    [first > 0], the page that starts after [skip] matches, followed by
    everything after [skip + first] matches, is everything after [skip]
    matches; the page has at most [first] products. *)
Theorem resolve_products_pages :
  ∀ s search kind first skip,
    0 < first → 0 ≤ skip →
    ∃ page rest,
      resolve_products (Some first) (Some skip) search kind s = inr page
      ∧ resolve_products None (Some (skip + first)) search kind s = inr rest
      ∧ resolve_products None (Some skip) search kind s = inr (page ++ rest)
      ∧ (length page ≤ Z.to_nat first)%nat.
Proof.
  intros s search kind first skip Hfirst Hskip.
  rewrite !resolve_products_slices. generalize (filtered_products search kind s) as qs.
  intros qs.
  exists (take (Z.to_nat first) (drop (Z.to_nat skip) qs)),
         (drop (Z.to_nat (skip + first)) qs).
  assert (truthy_int (Some first) = Some first) as -> by by destruct first.
  assert (truthy_int (Some (skip + first)) = Some (skip + first)) as ->
    by (destruct (skip + first) eqn:?; [lia|done..]).
  assert (drop (Z.to_nat (skip + first)) qs
          = drop (Z.to_nat first) (drop (Z.to_nat skip) qs)) as Hdrop.
  { rewrite drop_drop. f_equal. lia. }
  assert (match truthy_int (Some skip) with
          | Some skip => slice_from skip qs
          | None => inr qs
          end = inr (drop (Z.to_nat skip) qs)) as ->.
  { by destruct skip as [|k|k]; [| |lia]. }
  unfold slice_from, slice_to.
  assert ((first <? 0) = false) as -> by (apply Z.ltb_ge; lia).
  assert ((skip + first <? 0) = false) as -> by (apply Z.ltb_ge; lia).
  split; [done|]. split; [done|]. split.
  - by rewrite Hdrop, take_drop.
  - rewrite length_take. lia.
Qed.

Lemma resolve_products_pages_witness :
  0 < 1 ∧ 0 ≤ 1
  ∧ ∃ page rest,
      resolve_products (Some 1) (Some 1) None None shop = inr page
      ∧ resolve_products None (Some (1 + 1)) None None shop = inr rest
      ∧ resolve_products None (Some 1) None None shop = inr (page ++ rest)
      ∧ (length page ≤ Z.to_nat 1)%nat.
Proof.
  assert (0 < 1) as H1 by lia. assert (0 ≤ 1) as H0 by lia.
  split; [exact H1|]. split; [exact H0|].
  exact (resolve_products_pages shop None None 1 1 H1 H0).
Defined.

(** X12: whatever the arguments, a listing that returns is a part of the
    catalogue, in the order of the catalogue, and each of its products
    passes the filters that were given: the name contains [search] up to
    the case of the letters, and the kind is [kind] when [kind] is not the
    empty string. *)
Theorem resolve_products_sound :
  ∀ s first skip search kind page,
    resolve_products first skip search kind s = inr page →
    page `sublist_of` Product_objects_all s
    ∧ ∀ p, p ∈ page →
        (∀ x, search = Some x → icontains (product_name p.2) x = true)
        ∧ (∀ k, kind = Some k → k ≠ ""%string → product_kind p.2 = k).
Proof.
  intros s first skip search kind page Hres. rewrite resolve_products_slices in Hres.
  assert (page `sublist_of` filtered_products search kind s) as Hsub.
  { destruct (truthy_int skip) as [k|]; [|destruct (truthy_int first) as [n|]].
    - unfold slice_from in Hres. destruct (k <? 0); [done|].
      destruct (truthy_int first) as [n|].
      + unfold slice_to in Hres. destruct (n <? 0); [done|]. injection Hres as <-.
        etrans; [apply sublist_take|apply sublist_drop].
      + injection Hres as <-. apply sublist_drop.
    - unfold slice_to in Hres. destruct (n <? 0); [done|]. injection Hres as <-.
      apply sublist_take.
    - by injection Hres as <-. }
  split.
  - etrans; [exact Hsub|]. unfold filtered_products.
    destruct (truthy_str kind); destruct (truthy_str search);
      repeat (etrans; [apply filter_sublist|]); done.
  - intros p Hp. apply (elem_of_sublist _ _ _ Hp) in Hsub. clear Hp Hres.
    rename Hsub into Hp.
    unfold filtered_products in Hp. split.
    + intros x ->. cbn in Hp. destruct (String.eqb x "") eqn:Hx.
      { apply String.eqb_eq in Hx. rewrite Hx. apply contains_empty. }
      destruct (truthy_str kind).
      * apply list_elem_of_In, filter_In in Hp as [Hp _]. by apply filter_In in Hp as [_ ?].
      * by apply list_elem_of_In, filter_In in Hp as [_ ?].
    + intros k -> Hk. cbn in Hp. destruct (String.eqb k "") eqn:Hk'.
      { by apply String.eqb_eq in Hk'. }
      apply list_elem_of_In, filter_In in Hp as [_ Hp]. by apply String.eqb_eq in Hp.
Qed.

Lemma resolve_products_sound_witness :
  resolve_products None None (Some "LAM"%string) (Some "decor"%string) shop
  = inr [(1%nat, lamp)]
  ∧ [(1%nat, lamp)] `sublist_of` Product_objects_all shop.
Proof.
  assert (resolve_products None None (Some "LAM"%string) (Some "decor"%string) shop
          = inr [(1%nat, lamp)]) as H by by vm_compute.
  split; [exact H|].
  exact (proj1 (resolve_products_sound shop None None _ _ _ H)).
Defined.

(** ** Further properties of the appointments *)

Lemma filter_sublist_mono {A} (f g : A → bool) (l : list A) :
  (∀ x, x ∈ l → g x = true → f x = true) →
  List.filter g l `sublist_of` List.filter f l.
Proof.
  induction l as [|x l IH]; [done|]. intros H. cbn.
  assert (List.filter g l `sublist_of` List.filter f l) as IH'.
  { apply IH. intros y Hy. apply H. by right. }
  destruct (g x) eqn:Hg.
  - rewrite (H x); [by apply sublist_skip|by left|done].
  - destruct (f x); [by apply sublist_cons|done].
Qed.

(** X13: a booking whose date, as the client wrote it, begins the text of
    no stored timestamp stores the timestamp in UTC, queues its two mails
    and writes nothing else; if the timestamp is later than [now], it is
    the last of the booked dates that a query at [now] returns, and
    otherwise the booked dates are as before. *)
Theorem booked_appointment_is_listed :
  ∀ s user (timestamp : DateTime) t now,
    Forall (λ a, valid_datetime (appointment_timestamp a)) (Appointments s) →
    valid_DateTime timestamp → valid_datetime now →
    astimezone_utc timestamp = Some t →
    (∀ a, a ∈ Appointments s → appointment_date a ≠ datetime_date timestamp) →
    let r := BookAppointment_mutate timestamp (mkInfo (Some user)) s in
    r.2 = inr (mkAppointment user t)
    ∧ Appointments r.1 = Appointments s ++ [mkAppointment user t]
    ∧ resolve_booked_dates now r.1
      = resolve_booked_dates now s ++ (if bool_decide (clock now < clock t) then [t] else [])
    ∧ outbox r.1 = outbox s ++ [AppointmentConfirmedMail user t; AppointmentAdminMail user t]
    ∧ Products r.1 = Products s ∧ CartObjs r.1 = CartObjs s
    ∧ Orders r.1 = Orders s ∧ OrderObjs r.1 = OrderObjs s.
Proof.
  intros s user timestamp t now Hvalid Ht Hnow Hutc Hfree r. subst r.
  rewrite BookAppointment_mutate_eq; [|apply Ht|done].
  rewrite decide_False.
  2:{ intros (a & Heq & Ha)%list_elem_of_fmap. by apply (Hfree a). }
  rewrite Hutc. cbn [fst snd]. split; [done|]. split; [done|]. split; [|split; [|done]].
  - unfold resolve_booked_dates. cbn. rewrite List.filter_app, map_app. cbn.
    pose proof (datetime_gt_clock t now (astimezone_utc_valid _ _ Ht Hutc) Hnow) as Hgt.
    case_bool_decide as Hlater.
    + by rewrite (proj2 Hgt Hlater).
    + destruct (datetime_gt t now); [|done]. by destruct Hlater; apply Hgt.
  - cbn. by rewrite <- app_assoc.
Qed.

Lemma booked_appointment_is_listed_witness :
  Forall (λ a, valid_datetime (appointment_timestamp a)) (Appointments clinic)
  ∧ valid_DateTime may_2nd_at_10_in_India
  ∧ let r := BookAppointment_mutate may_2nd_at_10_in_India (mkInfo (Some 8%nat)) clinic in
    r.2 = inr (mkAppointment 8 (mkDatetime 2024 5 2 4 30 0))
    ∧ resolve_booked_dates may_1st_at_12 r.1
      = resolve_booked_dates may_1st_at_12 clinic ++ [mkDatetime 2024 5 2 4 30 0].
Proof.
  assert (Forall (λ a, valid_datetime (appointment_timestamp a)) (Appointments clinic)) as Hv.
  { apply (bool_decide_unpack _). by vm_compute. }
  assert (valid_DateTime may_2nd_at_10_in_India) as Ht.
  { apply (bool_decide_unpack _). by vm_compute. }
  assert (valid_datetime may_1st_at_12) as Hnow.
  { apply (bool_decide_unpack _). by vm_compute. }
  assert (astimezone_utc may_2nd_at_10_in_India = Some (mkDatetime 2024 5 2 4 30 0)) as Hutc.
  { by vm_compute. }
  assert (∀ a, a ∈ Appointments clinic →
               appointment_date a ≠ datetime_date may_2nd_at_10_in_India) as Hfree.
  { intros a Ha. vm_compute in Ha.
    apply elem_of_cons in Ha as [->|Ha]; [by vm_compute|]. by apply elem_of_nil in Ha. }
  split; [exact Hv|]. split; [exact Ht|].
  destruct (booked_appointment_is_listed clinic 8%nat may_2nd_at_10_in_India _ may_1st_at_12
              Hv Ht Hnow Hutc Hfree) as (Hret & _ & Hlist & _).
  split; [exact Hret|exact Hlist].
Defined.

(** X14: as time passes the booked dates only shrink: the dates returned
    at a later time are among those returned at an earlier time, in the
    same order. *)
Theorem booked_dates_shrink :
  ∀ s now later,
    Forall (λ a, valid_datetime (appointment_timestamp a)) (Appointments s) →
    valid_datetime now → valid_datetime later →
    clock now ≤ clock later →
    resolve_booked_dates later s `sublist_of` resolve_booked_dates now s.
Proof.
  intros s now later Hvalid Hnow Hlater Hle. unfold resolve_booked_dates.
  apply (fmap_sublist appointment_timestamp). apply filter_sublist_mono. intros a Ha Hgt.
  rewrite Forall_forall in Hvalid.
  apply datetime_gt_clock; [by apply Hvalid|done|].
  apply datetime_gt_clock in Hgt; [lia|by apply Hvalid|done].
Qed.

Lemma booked_dates_shrink_witness :
  Forall (λ a, valid_datetime (appointment_timestamp a)) (Appointments clinic)
  ∧ resolve_booked_dates may_1st_at_12 clinic
    `sublist_of` resolve_booked_dates (mkDatetime 2024 4 30 8 0 0) clinic.
Proof.
  assert (Forall (λ a, valid_datetime (appointment_timestamp a)) (Appointments clinic)) as Hv.
  { apply (bool_decide_unpack _). by vm_compute. }
  split; [exact Hv|].
  apply (booked_dates_shrink clinic (mkDatetime 2024 4 30 8 0 0) may_1st_at_12 Hv).
  - apply (bool_decide_unpack _). by vm_compute.
  - apply (bool_decide_unpack _). by vm_compute.
  - by vm_compute.
Defined.

(** ** Further properties of the address book *)

Lemma set_Addresses_id f s : f (Addresses s) = Addresses s → set_Addresses f s = s.
Proof. intros H. unfold set_Addresses. rewrite H. apply State_eta. Qed.

(** X15: a new address gets a key that no address had, it can be read
    under that key with the fields that were given and the caller as its
    owner, the other addresses are as they were, and deleting it as the
    same caller gives back the store as it was. *)
Theorem CreateAddress_then_delete :
  ∀ s user name phone address1 address2 pincode city state country,
    let info := mkInfo (Some user) in
    let address := mkAddress user name phone address1 address2 pincode city state country in
    let r := CreateAddress_mutate name phone address1 address2 pincode city state country
               info s in
    r.2 = inr address
    ∧ ∃ addressId,
        Addresses s !! addressId = None
        ∧ Addresses r.1 !! addressId = Some address
        ∧ (∀ k, k ≠ addressId → Addresses r.1 !! k = Addresses s !! k)
        ∧ DeleteAddress_mutate addressId info r.1 = (s, inr addressId).
Proof.
  intros s user name phone address1 address2 pincode city state country info address r.
  subst r info. split; [done|].
  exists (fresh (dom (Addresses s))).
  assert (Addresses s !! fresh (dom (Addresses s)) = None) as Hfresh.
  { apply not_elem_of_dom, is_fresh. }
  split; [done|]. unfold CreateAddress_mutate. unfold_M. cbn. split; [|split].
  - by rewrite lookup_insert_eq.
  - intros k Hk. by rewrite lookup_insert_ne.
  - unfold DeleteAddress_mutate. unfold_M. cbn. rewrite lookup_insert_eq. cbn.
    rewrite Nat.eqb_refl. cbn. unfold set_Addresses. cbn.
    rewrite delete_insert_eq, delete_id by done. by rewrite State_eta.
Qed.

(** X16: only its owner deletes an address.  Another caller is refused
    and nothing changes; after the owner has deleted it, the other
    addresses are as they were, and an order that names the deleted
    address raises [DoesNotExist] and writes nothing. *)
Theorem DeleteAddress_owner_only :
  ∀ s user addressId a,
    Addresses s !! addressId = Some a →
    let r := DeleteAddress_mutate addressId (mkInfo (Some user)) s in
    (address_user a ≠ user →
       r = (s, inl (Exception "You must the owner of that address to remove it!")))
    ∧ (address_user a = user →
       r.2 = inr addressId
       ∧ Addresses r.1 !! addressId = None
       ∧ (∀ k, k ≠ addressId → Addresses r.1 !! k = Addresses s !! k)
       ∧ Orders r.1 = Orders s
       ∧ ∀ u, OrderCart_mutate addressId (mkInfo (Some u)) r.1
              = (r.1, inl (DoesNotExist "Address"))).
Proof.
  intros s user addressId a Ha r. subst r.
  unfold DeleteAddress_mutate. unfold_M. cbn. rewrite Ha. cbn. split.
  - intros Hne. by apply Nat.eqb_neq in Hne as ->.
  - intros Heq. apply Nat.eqb_eq in Heq as ->. cbn.
    split; [done|]. split; [by rewrite lookup_delete_eq|]. split; [|split; [done|]].
    + intros k Hk. by rewrite lookup_delete_ne.
    + intros u. unfold OrderCart_mutate. unfold_M. cbn. by rewrite lookup_delete_eq.
Qed.

Lemma DeleteAddress_owner_only_witness :
  Addresses shop !! 1%nat = Some home
  ∧ DeleteAddress_mutate 1 (mkInfo (Some 8%nat)) shop
    = (shop, inl (Exception "You must the owner of that address to remove it!"))
  ∧ Addresses (DeleteAddress_mutate 1 (mkInfo (Some 7%nat)) shop).1 !! 1%nat = None.
Proof.
  assert (Addresses shop !! 1%nat = Some home) as Ha by by vm_compute.
  split; [exact Ha|].
  destruct (DeleteAddress_owner_only shop 8%nat 1%nat home Ha) as [Hother _].
  destruct (DeleteAddress_owner_only shop 7%nat 1%nat home Ha) as [_ Howner].
  split.
  - apply Hother. by vm_compute.
  - refine (proj1 (proj2 (Howner _))). by vm_compute.
Defined.

Lemma NoDup_singleton_eq {A} (l : list A) y :
  NoDup l → (∀ x, x ∈ l ↔ x = y) → l = [y].
Proof.
  intros Hnd H. destruct l as [|x l].
  - exfalso. by apply (elem_of_nil y), H.
  - assert (x = y) as -> by (apply H; left).
    apply NoDup_cons in Hnd as [Hy Hnd]. f_equal.
    destruct l as [|z l]; [done|]. exfalso. apply Hy.
    assert (z = y) as -> by (apply H; right; left). left.
Qed.

Lemma two_elements {A} (l : list A) x y :
  x ∈ l → y ∈ l → x ≠ y → ∃ a b l', l = a :: b :: l'.
Proof.
  intros Hx Hy Hne. destruct l as [|a [|b l']].
  - by apply elem_of_nil in Hx.
  - apply list_elem_of_singleton in Hx, Hy. congruence.
  - by exists a, b, l'.
Qed.

Lemma user_addresses_elem user s k a :
  (k, a) ∈ List.filter (λ ka, (address_user ka.2 =? user)%nat) (map_to_list (Addresses s))
  ↔ Addresses s !! k = Some a ∧ address_user a = user.
Proof.
  by rewrite list_elem_of_In, filter_In, <- list_elem_of_In, elem_of_map_to_list,
    Nat.eqb_eq.
Qed.

(** X17: for a caller with one address, [UpdateSelf.mutate] overwrites
    that address in place: it keeps its key, its owner and its country (the
    input has no country) and takes the other fields from the input; the
    other addresses are as they were. *)
Theorem UpdateSelf_overwrites_in_place :
  ∀ s user k a input,
    Addresses s !! k = Some a →
    address_user a = user →
    (∀ k' a', Addresses s !! k' = Some a' → address_user a' = user → k' = k) →
    let r := UpdateSelf_mutate (Some input) (mkInfo (Some user)) s in
    r.2 = inr tt
    ∧ Addresses r.1
      = <[k := mkAddress user (input_name input) (input_phone input)
                         (input_address1 input) (input_address2 input)
                         (input_pincode input) (input_city input) (input_state input)
                         (address_country a)]> (Addresses s)
    ∧ Orders r.1 = Orders s ∧ CartObjs r.1 = CartObjs s ∧ Products r.1 = Products s.
Proof.
  intros s user k a input Ha Hu Honly r. subst r.
  assert (List.filter (λ ka, (address_user ka.2 =? user)%nat) (map_to_list (Addresses s))
          = [(k, a)]) as Hone.
  { apply NoDup_singleton_eq.
    - rewrite <- (map_id (List.filter _ _)). apply NoDup_map_filter. rewrite map_id.
      apply NoDup_map_to_list.
    - intros [k' a']. rewrite user_addresses_elem. split.
      + intros [Ha' Hu']. assert (k' = k) as -> by by eapply Honly. congruence.
      + by intros [= -> ->]. }
  unfold UpdateSelf_mutate, Address_get_or_new. unfold_M. cbn. rewrite Hone. cbn.
  by rewrite Hu.
Qed.

Lemma UpdateSelf_overwrites_in_place_witness :
  Addresses shop !! 1%nat = Some home
  ∧ address_country
      <$> Addresses (UpdateSelf_mutate (Some (mkAddressInput "A" "1" "x" "y" 1 "c" "s"))
                       (mkInfo (Some 7%nat)) shop).1 !! 1%nat
    = Some "India"%string.
Proof.
  assert (Addresses shop !! 1%nat = Some home) as Ha by by vm_compute.
  split; [exact Ha|].
  destruct (UpdateSelf_overwrites_in_place shop 7%nat 1%nat home
              (mkAddressInput "A" "1" "x" "y" 1 "c" "s") Ha eq_refl) as (_ & Heq & _).
  - intros k' a' Hk' _.
    change (({[1%nat := home]} : gmap nat Address) !! k' = Some a') in Hk'.
    by apply lookup_singleton_Some in Hk' as [<- _].
  - rewrite Heq. by rewrite lookup_insert_eq.
Defined.

Lemma UpdateSelf_two_addresses s user k1 a1 k2 a2 input :
  Addresses s !! k1 = Some a1 → address_user a1 = user →
  Addresses s !! k2 = Some a2 → address_user a2 = user →
  k1 ≠ k2 →
  UpdateSelf_mutate (Some input) (mkInfo (Some user)) s
  = (s, inl (MultipleObjectsReturned "Address")).
Proof.
  intros H1 Hu1 H2 Hu2 Hne.
  destruct (two_elements
              (List.filter (λ ka, (address_user ka.2 =? user)%nat)
                           (map_to_list (Addresses s))) (k1, a1) (k2, a2))
    as (x & y & l' & Hl); [by apply user_addresses_elem..|congruence|].
  unfold UpdateSelf_mutate, Address_get_or_new. unfold_M. cbn. by rewrite Hl.
Qed.

(** X18: the address branch of [UpdateSelf.mutate] takes it that the
    caller has one address: once the caller has created two addresses, a
    request with an address raises [MultipleObjectsReturned] and writes
    nothing. *)
Theorem UpdateSelf_after_two_addresses :
  ∀ s user name phone address1 address2 pincode city state country
      name' phone' address1' address2' pincode' city' state' country' input,
    let info := mkInfo (Some user) in
    let s1 := (CreateAddress_mutate name phone address1 address2 pincode city state country
                 info s).1 in
    let s2 := (CreateAddress_mutate name' phone' address1' address2' pincode' city' state'
                 country' info s1).1 in
    UpdateSelf_mutate (Some input) info s2 = (s2, inl (MultipleObjectsReturned "Address")).
Proof.
  intros. subst s2 s1 info. unfold CreateAddress_mutate. unfold_M. cbn.
  set (m1 := <[fresh (dom (Addresses s)) :=
                 mkAddress user name phone address1 address2 pincode city state country]>
               (Addresses s)).
  set (k1 := fresh (dom (Addresses s))). set (k2 := fresh (dom m1)).
  assert (k1 ≠ k2) as Hne.
  { intros Heq. pose proof (is_fresh (dom m1)) as Hfresh. fold k2 in Hfresh.
    rewrite <- Heq in Hfresh. apply Hfresh. subst m1. rewrite dom_insert_L. set_solver. }
  eapply (UpdateSelf_two_addresses _ user k1 _ k2 _ input); cbn; [| | | |exact Hne].
  - rewrite lookup_insert_ne by done. subst m1. apply lookup_insert_eq.
  - done.
  - apply lookup_insert_eq.
  - done.
Qed.

(** ** Properties of the queries on orders *)

(** X19: the queries on orders give a caller only orders of the caller:
    [resolve_order] returns an order only if it has the key that was asked
    for and belongs to the caller, and raises for an order of another
    user; [resolve_orders] returns the orders of the caller, all of them. *)
Theorem order_queries_own_orders_only :
  ∀ s user id,
    (∀ o, resolve_order id (mkInfo (Some user)) s = inr o →
          o ∈ Orders s ∧ order_id o = id ∧ order_user o = user)
    ∧ (∀ o, o ∈ Orders s → order_id o = id → order_user o ≠ user →
            ∃ e, resolve_order id (mkInfo (Some user)) s = inl e)
    ∧ ∃ l, resolve_orders (mkInfo (Some user)) s = inr l
           ∧ ∀ o, o ∈ l ↔ o ∈ Orders s ∧ order_user o = user.
Proof.
  intros s user id.
  assert (∀ o, resolve_order id (mkInfo (Some user)) s = inr o →
               List.filter (λ o, (order_id o =? id)%nat) (Orders s) = [o]
               ∧ order_user o = user) as Hget.
  { intros o. unfold resolve_order, Order_objects_get. cbn.
    destruct (List.filter _ _) as [|o' [|o'' l]]; [done| |done].
    destruct (order_user o' =? user)%nat eqn:Hu; [|done]. cbn. intros [= <-].
    by apply Nat.eqb_eq in Hu. }
  split; [|split].
  - intros o [Hf Hu]%Hget. apply filter_singleton_elem in Hf as [Ho Hid].
    by apply Nat.eqb_eq in Hid.
  - intros o Ho Hid Hne.
    destruct (resolve_order id (mkInfo (Some user)) s) as [e|o']; [by exists e|].
    exfalso. destruct (Hget o' eq_refl) as [Hf Hu].
    assert (In o (List.filter (λ o, (order_id o =? id)%nat) (Orders s))) as Hin.
    { apply filter_In. split; [by apply list_elem_of_In|by apply Nat.eqb_eq]. }
    rewrite Hf in Hin. destruct Hin as [->|[]]. done.
  - eexists. split; [done|]. intros o.
    by rewrite list_elem_of_In, filter_In, <- list_elem_of_In, Nat.eqb_eq.
Qed.

Lemma order_queries_own_orders_only_witness :
  let s := (OrderProduct_mutate (mkProductOrderInput 1 2) 1 (mkInfo (Some 7%nat)) shop).1 in
  resolve_order 1 (mkInfo (Some 7%nat)) s = inr (new_order 7 home shop)
  ∧ new_order 7 home shop ∈ Orders s
  ∧ ∃ e, resolve_order 1 (mkInfo (Some 8%nat)) s = inl e.
Proof.
  intros s.
  assert (resolve_order 1 (mkInfo (Some 7%nat)) s = inr (new_order 7 home shop)) as H
    by by vm_compute.
  split; [exact H|].
  destruct (order_queries_own_orders_only s 7%nat 1%nat) as (Hown & _ & _).
  destruct (order_queries_own_orders_only s 8%nat 1%nat) as (_ & Hother & _).
  destruct (Hown _ H) as (Hin & _ & _).
  split; [exact Hin|]. apply (Hother _ Hin); by vm_compute.
Defined.

(** ** Properties of the reviews and the likes *)

Lemma Community_eta c : mkCommunity (Reviews c) (Likes c) = c.
Proof. by destruct c. Qed.

Lemma review_exists c review :
  review ∈ Reviews c →
  existsb (λ r, (review_id r =? review_id review)%nat) (Reviews c) = true.
Proof.
  intros Hr. apply existsb_exists. exists review.
  split; [by apply list_elem_of_In|apply Nat.eqb_refl].
Qed.

(** X20: a like is counted every time: [LikeReview.mutate] on a review
    that exists raises its count of likes by one, also when the caller
    likes it already; the caller then sees it as liked, and the counts of
    the other reviews are as they were. *)
Theorem LikeReview_counts_every_like :
  ∀ c user review,
    review ∈ Reviews c →
    let r := LikeReview_mutate (review_id review) (mkInfo (Some user)) c in
    (∃ id, r.2 = inr id)
    ∧ resolve_likes_count review r.1 = S (resolve_likes_count review c)
    ∧ resolve_is_liked review (mkInfo (Some user)) r.1 = inr true
    ∧ (∀ review', review_id review' ≠ review_id review →
                  resolve_likes_count review' r.1 = resolve_likes_count review' c)
    ∧ Reviews r.1 = Reviews c.
Proof.
  intros c user review Hr r. subst r. unfold LikeReview_mutate. cbn [context_user].
  rewrite (review_exists c review Hr). cbn [fst snd].
  split; [by eexists|]. split; [|split; [|split; [|done]]].
  - unfold resolve_likes_count, like_on. cbn. rewrite List.filter_app, length_app. cbn.
    rewrite Nat.eqb_refl. cbn. lia.
  - unfold resolve_is_liked, like_of. cbn. rewrite List.filter_app, length_app. cbn.
    rewrite !Nat.eqb_refl. cbn. by rewrite Nat.add_1_r.
  - intros review' Hne. unfold resolve_likes_count, like_on. cbn.
    rewrite List.filter_app, length_app. cbn.
    assert ((review_id review =? review_id review')%nat = false) as ->
      by (apply Nat.eqb_neq; congruence).
    cbn. lia.
Qed.

Lemma LikeReview_counts_every_like_witness :
  lamp_review ∈ Reviews forum
  ∧ resolve_likes_count lamp_review
      (LikeReview_mutate (review_id lamp_review) (mkInfo (Some 8%nat)) forum).1
    = S (resolve_likes_count lamp_review forum).
Proof.
  assert (lamp_review ∈ Reviews forum) as Hr by (by left).
  split; [exact Hr|].
  exact (proj1 (proj2 (LikeReview_counts_every_like forum 8%nat lamp_review Hr))).
Defined.

Lemma filter_drop_fresh_pk {A} (id : A → nat) (rows : list A) x :
  id x = fresh_pk id rows →
  List.filter (λ r, negb (id r =? fresh_pk id rows)%nat) (rows ++ [x]) = rows.
Proof.
  intros Hx. rewrite List.filter_app. cbn. rewrite Hx, Nat.eqb_refl. cbn.
  rewrite app_nil_r. apply filter_all. intros r Hr.
  apply negb_true_iff, Nat.eqb_neq. apply (fresh_pk_bound id) in Hr. lia.
Qed.

(** X21: for a caller without a like on the review, [UnlikeReview.mutate]
    raises [DoesNotExist] and changes nothing; liking the review and then
    unliking it gives back the reviews and the likes as they were. *)
Theorem LikeReview_then_unlike :
  ∀ c user review,
    review ∈ Reviews c →
    resolve_is_liked review (mkInfo (Some user)) c = inr false →
    let info := mkInfo (Some user) in
    UnlikeReview_mutate (review_id review) info c = (c, inl (DoesNotExist "Like"))
    ∧ ∃ id,
        (LikeReview_mutate (review_id review) info c).2 = inr id
        ∧ UnlikeReview_mutate (review_id review) info
            (LikeReview_mutate (review_id review) info c).1
          = (c, inr id).
Proof.
  intros c user review Hr Hno info. subst info.
  assert (List.filter (like_of user (review_id review)) (Likes c) = []) as Hnil.
  { unfold resolve_is_liked in Hno. cbn in Hno. injection Hno as Hno.
    destruct (List.filter _ _); [done|]. by cbn in Hno. }
  split.
  - unfold UnlikeReview_mutate. cbn. by rewrite Hnil.
  - exists (fresh_pk like_id (Likes c)).
    unfold LikeReview_mutate. cbn [context_user]. rewrite (review_exists c review Hr).
    cbn [fst snd]. split; [done|].
    unfold UnlikeReview_mutate. cbn. rewrite List.filter_app, Hnil. cbn.
    unfold like_of. cbn. rewrite !Nat.eqb_refl. cbn.
    rewrite (filter_drop_fresh_pk like_id (Likes c)) by done.
    by rewrite Community_eta.
Qed.

Lemma LikeReview_then_unlike_witness :
  lamp_review ∈ Reviews forum
  ∧ resolve_is_liked lamp_review (mkInfo (Some 7%nat)) forum = inr false
  ∧ UnlikeReview_mutate 1 (mkInfo (Some 7%nat)) forum = (forum, inl (DoesNotExist "Like")).
Proof.
  assert (lamp_review ∈ Reviews forum) as Hr by (by left).
  assert (resolve_is_liked lamp_review (mkInfo (Some 7%nat)) forum = inr false) as Hno
    by by vm_compute.
  split; [exact Hr|]. split; [exact Hno|].
  exact (proj1 (LikeReview_then_unlike forum 7%nat lamp_review Hr Hno)).
Defined.

(** X22: nothing keeps a caller from liking a review twice, and then the
    caller cannot unlike it: [UnlikeReview.mutate] raises
    [MultipleObjectsReturned] and removes no like. *)
Theorem UnlikeReview_after_two_likes :
  ∀ c user review,
    review ∈ Reviews c →
    let info := mkInfo (Some user) in
    let c1 := (LikeReview_mutate (review_id review) info c).1 in
    let c2 := (LikeReview_mutate (review_id review) info c1).1 in
    resolve_likes_count review c2 = S (S (resolve_likes_count review c))
    ∧ UnlikeReview_mutate (review_id review) info c2
      = (c2, inl (MultipleObjectsReturned "Like")).
Proof.
  intros c user review Hr info c1 c2. subst c2 c1 info.
  unfold LikeReview_mutate. cbn [context_user]. rewrite (review_exists c review Hr).
  cbn [fst snd Reviews]. rewrite (review_exists c review Hr). cbn [fst]. split.
  - unfold resolve_likes_count, like_on. cbn. rewrite !List.filter_app, !length_app. cbn.
    rewrite Nat.eqb_refl. cbn. lia.
  - unfold UnlikeReview_mutate. cbn. rewrite !List.filter_app. cbn.
    assert (like_of user (review_id review)
              (mkLike (fresh_pk like_id (Likes c)) user (review_id review)) = true) as ->
      by (unfold like_of; cbn; by rewrite !Nat.eqb_refl).
    assert (like_of user (review_id review)
              (mkLike (fresh_pk like_id
                         (Likes c ++ [mkLike (fresh_pk like_id (Likes c)) user
                                             (review_id review)]))
                      user (review_id review)) = true) as ->
      by (unfold like_of; cbn; by rewrite !Nat.eqb_refl).
    by destruct (List.filter (like_of user (review_id review)) (Likes c)) as [|x [|y l]].
Qed.

Lemma UnlikeReview_after_two_likes_witness :
  lamp_review ∈ Reviews forum
  ∧ let c2 := (LikeReview_mutate 1 (mkInfo (Some 7%nat))
                 (LikeReview_mutate 1 (mkInfo (Some 7%nat)) forum).1).1 in
    UnlikeReview_mutate 1 (mkInfo (Some 7%nat)) c2
    = (c2, inl (MultipleObjectsReturned "Like")).
Proof.
  assert (lamp_review ∈ Reviews forum) as Hr by (by left).
  split; [exact Hr|].
  exact (proj2 (UnlikeReview_after_two_likes forum 7%nat lamp_review Hr)).
Defined.

(** X23: only its author deletes a review, whatever the database does
    with the likes of a deleted review.  Another caller is refused and
    nothing changes; after the author has deleted it the review cannot be
    read any more, and the other reviews are still there. *)
Theorem DeleteReview_author_only :
  ∀ on_delete c user reviewId review,
    Review_objects_get reviewId c = inr review →
    let r := DeleteReview_mutate on_delete reviewId (mkInfo (Some user)) c in
    (review_user review ≠ user →
       r = (c, inl (Exception "You must be author of the review to delete it.")))
    ∧ (review_user review = user →
       r.2 = inr reviewId
       ∧ Review_objects_get reviewId r.1 = inl (DoesNotExist "Review")
       ∧ ∀ review', review' ∈ Reviews c → review_id review' ≠ reviewId →
                    review' ∈ Reviews r.1).
Proof.
  intros on_delete c user reviewId review Hget r. subst r.
  assert (review ∈ Reviews c ∧ review_id review = reviewId) as [Hin Hid].
  { unfold Review_objects_get in Hget.
    destruct (List.filter _ _) as [|x [|y l]] eqn:Hf; [done| |done].
    injection Hget as ->. apply filter_singleton_elem in Hf as [? ?%Nat.eqb_eq]. done. }
  unfold DeleteReview_mutate. cbn [context_user]. rewrite Hget. split.
  - intros Hne. by apply Nat.eqb_neq in Hne as ->.
  - intros Heq. apply Nat.eqb_eq in Heq as ->. cbn. rewrite Hid.
    split; [done|]. split.
    + unfold Review_objects_get. cbn. rewrite filter_none; [done|].
      intros x [_ Hx]%list_elem_of_In%filter_In.
      apply negb_true_iff in Hx. by rewrite Hx.
    + intros review' Hr' Hne. apply list_elem_of_In, filter_In.
      split; [by apply list_elem_of_In|]. by apply negb_true_iff, Nat.eqb_neq.
Qed.

Lemma DeleteReview_author_only_witness :
  Review_objects_get 1 forum = inr lamp_review
  ∧ DeleteReview_mutate (λ _ likes, likes) 1 (mkInfo (Some 8%nat)) forum
    = (forum, inl (Exception "You must be author of the review to delete it."))
  ∧ Review_objects_get 1 (DeleteReview_mutate (λ _ likes, likes) 1
                            (mkInfo (Some 7%nat)) forum).1
    = inl (DoesNotExist "Review").
Proof.
  assert (Review_objects_get 1 forum = inr lamp_review) as Hget by by vm_compute.
  split; [exact Hget|].
  destruct (DeleteReview_author_only (λ _ likes, likes) forum 8%nat 1%nat lamp_review Hget)
    as [Hother _].
  destruct (DeleteReview_author_only (λ _ likes, likes) forum 7%nat 1%nat lamp_review Hget)
    as [_ Hauthor].
  split.
  - apply Hother. by vm_compute.
  - refine (proj1 (proj2 (Hauthor _))). by vm_compute.
Defined.

(** X24: a user may review a product any number of times: for a product
    of the catalogue [AddReview.mutate] always stores one more review and
    returns its key, its rating and its text; the review can be read under
    that key with the caller as its author, another user cannot delete it,
    and when the caller deletes it the reviews are as they were. *)
Theorem AddReview_then_delete :
  ∀ on_delete catalogue c user rating productId text,
    is_Some (catalogue !! productId) →
    let info := mkInfo (Some user) in
    let r := AddReview_mutate rating productId text catalogue info c in
    ∃ id,
      r.2 = inr (id, rating, text)
      ∧ Review_objects_get id r.1 = inr (mkReview id user productId rating text)
      ∧ length (Reviews r.1) = S (length (Reviews c))
      ∧ (∀ u, u ≠ user →
              DeleteReview_mutate on_delete id (mkInfo (Some u)) r.1
              = (r.1, inl (Exception "You must be author of the review to delete it.")))
      ∧ Reviews (DeleteReview_mutate on_delete id info r.1).1 = Reviews c.
Proof.
  intros on_delete catalogue c user rating productId text [p Hp] info r. subst r info.
  exists (fresh_pk review_id (Reviews c)).
  unfold AddReview_mutate. cbn [context_user]. rewrite Hp. cbn [fst snd].
  set (review := mkReview (fresh_pk review_id (Reviews c)) user productId rating text).
  assert (Review_objects_get (fresh_pk review_id (Reviews c))
            (mkCommunity (Reviews c ++ [review]) (Likes c)) = inr review) as Hget.
  { unfold Review_objects_get. cbn. rewrite List.filter_app.
    rewrite (filter_fresh_pk review_id). cbn. by rewrite Nat.eqb_refl. }
  split; [done|]. split; [done|]. split; [|split].
  - cbn. rewrite length_app. cbn. lia.
  - intros u Hne. unfold DeleteReview_mutate. cbn [context_user]. rewrite Hget. cbn.
    by assert ((user =? u)%nat = false) as -> by (apply Nat.eqb_neq; congruence).
  - unfold DeleteReview_mutate. cbn [context_user]. rewrite Hget. cbn.
    rewrite Nat.eqb_refl. cbn.
    by apply (filter_drop_fresh_pk review_id (Reviews c) review).
Qed.

Lemma AddReview_then_delete_witness :
  is_Some (Products shop !! 1%nat)
  ∧ ∃ id,
      (AddReview_mutate 4 1 None (Products shop) (mkInfo (Some 7%nat)) forum).2
      = inr (id, 4, None)
      ∧ length (Reviews (AddReview_mutate 4 1 None (Products shop)
                           (mkInfo (Some 7%nat)) forum).1) = 2%nat.
Proof.
  assert (is_Some (Products shop !! 1%nat)) as Hp by (by exists lamp).
  split; [exact Hp|].
  destruct (AddReview_then_delete (λ _ likes, likes) (Products shop) forum 7%nat 4 1%nat
              None Hp) as (id & Hret & _ & Hlen & _).
  exists id. split; [exact Hret|exact Hlen].
Defined.
